(** * mage-svc: starting and stopping local services from a pid file

    A shallow embedding of [mage-svc.go] (package [svc]).  The package keeps
    the identity of a managed process in a pid file, decides whether that
    record still names a live process, waits for a list of readiness checks,
    and offers [start], [stop] and [Status].

    The Go code talks to the operating system all the time.  Here the
    operating system is a value of type [World]: a clock, the pid file, the
    cached [unix.Sysinfo] answer, the processes this program killed, waited
    for or started, the directories it asked for, a trace of the system calls
    and check calls made so far, and a record [OS] of answers the platform
    gives (which processes accept a signal at which time, what
    [unix.Sysinfo] returns, which pid [cmd.Start] yields).  Every Go function
    that touches the system becomes a function in the state monad [M] over
    [World].

    Two things are idealised.  The clock moves only in [time.Sleep], by
    exactly the time slept; every other call takes no time.  And the loop of
    [config.check], which in Go runs until something ends it, is run for a
    given number of rounds; a call that has used them up without returning
    is [Polling].  The calls that open, stat, read and close the pid file
    are not listed in the trace: what they find is the [File] of the
    world. *)

From Stdlib Require Import ZArith List String Ascii Bool Lia.
From Stdlib Require Import DecimalString DecimalPos DecimalZ.
From Stdlib Require Import Floats.SpecFloat.
From stdpp Require Import base list.

Open Scope Z_scope.

(** ** Errors

    Go's [error] values.  [ErrNotReady] is the struct value [ErrNotReady{}]
    that [check] compares against; everything else (errors made with
    [fmt.Errorf], context errors, errors of the [os] package) is an [Error]
    with its message. *)

Inductive error : Type :=
| ErrNotReady
| Error (msg : string).

(** ** Time

    A [time.Time] is counted in nanoseconds from the zero [time.Time], so the
    zero value of the type is [0].  A [time.Duration] is an [int64] number of
    nanoseconds. *)

Definition Time : Type := Z.
Definition Duration : Type := Z.

Definition zeroTime : Time := 0.

Module time.

Definition Millisecond : Duration := 1000000.
Definition Second : Duration := 1000000000.

Definition maxDuration : Duration := 2 ^ 63 - 1.
Definition minDuration : Duration := - 2 ^ 63.

(** [Time.Sub]: the difference, saturated to the range of a [Duration]. *)
Definition Sub (t u : Time) : Duration :=
  Z.max minDuration (Z.min maxDuration (t - u)).

(** IEEE 754 binary64, the format of Go's [float64]. *)
Definition prec : Z := 53.
Definition emax : Z := 1024.

(** The conversion [float64(n)] of an integer, rounded to nearest even. *)
Definition float64 (n : Z) : spec_float := binary_normalize prec emax n 0 false.

(** [Duration.Seconds]:
    [sec := d / Second; nsec := d % Second;
     return float64(sec) + float64(nsec)/1e9]
    with Go's truncating division and remainder. *)
Definition Seconds (d : Duration) : spec_float :=
  let sec := Z.quot d Second in
  let nsec := Z.rem d Second in
  SFadd prec emax (float64 sec) (SFdiv prec emax (float64 nsec) (float64 1000000000)).

(** The comparison [x > y] on [float64]. *)
Definition gt (x y : spec_float) : bool := SFltb y x.

End time.

(** ** strconv *)

Module strconv.

Definition maxInt : Z := 2 ^ 63 - 1.
Definition minInt : Z := - 2 ^ 63.

Definition digit (c : ascii) : option Z :=
  let n := Z.of_N (N_of_ascii c) in
  if (48 <=? n) && (n <=? 57) then Some (n - 48) else None.

Fixpoint digits (s : string) (acc : Z) : option Z :=
  match s with
  | EmptyString => Some acc
  | String c rest =>
      match digit c with
      | None => None
      | Some d => digits rest (acc * 10 + d)
      end
  end.

(** [strconv.Atoi]: an optional sign, then at least one decimal digit and
    nothing else; a value outside [int] is a range error.  [None] stands for
    a returned error of either kind. *)
Definition Atoi (s : string) : option Z :=
  match s with
  | EmptyString => None
  | String c rest =>
      let neg := Ascii.eqb c "-" in
      let body := if neg || Ascii.eqb c "+" then rest else s in
      match body with
      | EmptyString => None
      | String _ _ =>
          match digits body 0 with
          | None => None
          | Some n =>
              let v := if neg then - n else n in
              if (minInt <=? v) && (v <=? maxInt) then Some v else None
          end
      end
  end.

(** [strconv.Itoa]: the decimal text of an integer. *)
Definition Itoa (n : Z) : string := NilZero.string_of_int (Z.to_int n).

End strconv.

(** ** The platform *)

(** The two signals the package sends: [syscall.Signal(0)], which only asks
    whether the pid can be signalled, and [SIGKILL] (from [Process.Kill]). *)
Inductive signal : Type :=
| Signal0
| SIGKILL.

(** What is on disk at [cfg.pidFile], by how far [getPIDFile] gets with it. *)
Inductive File : Type :=
| NoFile                                   (* nothing there: [os.Open] fails *)
| OpenFails                                (* present, [os.Open] fails *)
| StatFails                                (* opens, [file.Stat] fails *)
| ReadFails (mtime : Time)                 (* opens and stats, [ReadAll] fails *)
| Contents (mtime : Time) (data : string). (* readable *)

(** A directory as [os.MkdirAll] is asked for it: a path as it is written,
    or [filepath.Dir] of the path of a file. *)
Inductive dirName : Type :=
| Named (path : string)
| ParentOf (file : string).

(** The calls that reach the system, in the order they are made.  A signal
    and a wait are listed with the [pid_t] that the kernel reads. *)
Inductive Event : Type :=
| EvSysinfo                                  (* [unix.Sysinfo] *)
| EvSignal (pid : Z) (sig : signal) (delivered : bool) (* [kill(2)] *)
| EvProbe (i : nat) (res : option error)     (* [cfg.checks[i](ctx)] *)
| EvSleep (d : Duration)                     (* [time.Sleep] *)
| EvSpawn (res : error + Z)                  (* [cmd.Start] *)
| EvWait (pid : Z)                           (* [wait4(2)] *)
| EvWrite (data : string) (res : option error) (* [ioutil.WriteFile] *)
| EvRemove.                                  (* [os.RemoveAll] *)

(** Answers of the platform that the program cannot influence. *)
Record OS : Type := mkOS {
  (* does [kill(pid, sig)] succeed at that time, for the [pid_t] that the
     kernel reads: the process exists (running, or dead and not yet waited
     for by its parent) and the caller may signal it; a [pid_t] of 0 or
     below names a group of processes or all of them *)
  os_signal : Time -> Z -> bool;
  (* [unix.Sysinfo]: the uptime in seconds, or an error *)
  os_sysinfo : Time -> error + Z;
  (* [cmd.Start] of the n-th launch of this run: the new pid, or an error *)
  os_spawn : nat -> error + Z;
  (* [ioutil.WriteFile] of the pid file, given the time and what is there
     now: if it fails, the error and what is left on disk *)
  os_write : Time -> File -> option (error * File);
  (* [Process.Release]: an error, if it fails *)
  os_release : option error;
  (* does [os.RemoveAll] of the pid file remove it *)
  os_remove : bool
}.

Record World : Type := mkWorld {
  clock : Time;                        (* [time.Now()] *)
  pidfile : File;                      (* the file at [cfg.pidFile] *)
  sysinfoOnce : option (error + Z);    (* [getSysinfoOnce], [sysinfo], [sysinfoErr] *)
  killed : list Z;                     (* where a SIGKILL of this program went *)
  reaped : list Z;                     (* children this program has waited for *)
  children : list Z;                   (* pids this program has started *)
  dirs : list dirName;                 (* what [os.MkdirAll] was asked for *)
  trace : list Event;                  (* oldest first *)
  os : OS
}.

(** ** The state monad over [World] *)

Definition M (A : Type) : Type := World -> A * World.

Definition ret {A : Type} (a : A) : M A := fun w => (a, w).

Definition bind {A B : Type} (m : M A) (k : A -> M B) : M B :=
  fun w => let (a, w') := m w in k a w'.

Notation "'do' x <- m ; k" := (bind m (fun x => k))
  (at level 10, x name, m at level 100, k at level 200).
Notation "'do' ' p <- m ; k" := (bind m (fun x => let 'p := x in k))
  (at level 10, p pattern, m at level 100, k at level 200).
Notation "m ;; k" := (bind m (fun _ => k))
  (at level 100, k at level 200, right associativity).

Definition log (e : Event) : M unit :=
  fun w => (tt, mkWorld (clock w) (pidfile w) (sysinfoOnce w) (killed w)
                        (reaped w) (children w) (dirs w) (trace w ++ [e]) (os w)).

Definition setClock (t : Time) : M unit :=
  fun w => (tt, mkWorld t (pidfile w) (sysinfoOnce w) (killed w)
                        (reaped w) (children w) (dirs w) (trace w) (os w)).

Definition setPidfile (f : File) : M unit :=
  fun w => (tt, mkWorld (clock w) f (sysinfoOnce w) (killed w)
                        (reaped w) (children w) (dirs w) (trace w) (os w)).

Definition setSysinfoOnce (r : error + Z) : M unit :=
  fun w => (tt, mkWorld (clock w) (pidfile w) (Some r) (killed w)
                        (reaped w) (children w) (dirs w) (trace w) (os w)).

Definition addKilled (pid : Z) : M unit :=
  fun w => (tt, mkWorld (clock w) (pidfile w) (sysinfoOnce w) (pid :: killed w)
                        (reaped w) (children w) (dirs w) (trace w) (os w)).

Definition addReaped (pid : Z) : M unit :=
  fun w => (tt, mkWorld (clock w) (pidfile w) (sysinfoOnce w) (killed w)
                        (pid :: reaped w) (children w) (dirs w) (trace w) (os w)).

Definition addChild (pid : Z) : M unit :=
  fun w => (tt, mkWorld (clock w) (pidfile w) (sysinfoOnce w) (killed w)
                        (reaped w) (children w ++ [pid]) (dirs w) (trace w) (os w)).

Definition addDir (d : dirName) : M unit :=
  fun w => (tt, mkWorld (clock w) (pidfile w) (sysinfoOnce w) (killed w)
                        (reaped w) (children w) (dirs w ++ [d]) (trace w) (os w)).

Definition get {A : Type} (f : World -> A) : M A := fun w => (f w, w).

Module time_ops.

(** [time.Now()]. *)
Definition Now : M Time := get clock.

(** [time.Since(t)], which is [time.Now().Sub(t)] for a time read from a
    file's modification time. *)
Definition Since (t : Time) : M Duration :=
  do now <- Now; ret (time.Sub now t).

(** [time.Sleep(d)]: the only place where the clock of the model moves. *)
Definition Sleep (d : Duration) : M unit :=
  do now <- Now; log (EvSleep d) ;; setClock (now + d).

End time_ops.

(** ** Package os: process handles

    An [os.Process] on Unix is its pid.  [Release] overwrites the pid of
    the handle with [-1], and from then on [Signal], [Kill] and [Wait] on
    that handle fail without reaching the system (the package documents
    [Release] as rendering the handle unusable). *)

Record Process : Type := mkProcess { Pid : Z }.

Definition Context : Type := Time -> option error.

Module os_ops.

Definition errReleased : error := Error "os: process already released".
Definition errNotInitialized : error := Error "os: process not initialized".
Definition errProcessDone : error := Error "os: process already finished".
Definition errEINVAL : error := Error "invalid argument".
Definition errECHILD : error := Error "wait: no child processes".

(** [os.FindProcess]: on Unix it always succeeds, whether or not the
    process exists. *)
Definition FindProcess (pid : Z) : error + Process := inr (mkProcess pid).

(** The kernel reads the pid of [kill(2)] and of [wait4(2)] as a [pid_t],
    a signed number of 32 bits.  Go passes its [int] of 64 bits in a
    register, of which the kernel takes the low 32 bits: a Go pid of
    [2^32 + 1] reaches process 1, and one of [2^32 - 1] is [-1], every
    process the caller may signal. *)
Definition pid_t (pid : Z) : Z := (pid + 2 ^ 31) mod 2 ^ 32 - 2 ^ 31.

(** Can the pid be signalled now: the platform says so for the [pid_t]
    that the kernel reads, and it is not a child that this program has
    waited for.  A process that was killed and is not yet waited for by its
    parent is still there and takes the zero signal; when it goes is up to
    the platform. *)
Definition reachable (pid : Z) (w : World) : bool :=
  os_signal (os w) (clock w) (pid_t pid) &&
  negb (existsb (Z.eqb (pid_t pid)) (reaped w)).

(** [Process.Signal]. *)
Definition Signal (ps : Process) (sig : signal) : M (option error) :=
  if Pid ps =? -1 then ret (Some errReleased)
  else if Pid ps =? 0 then ret (Some errNotInitialized)
  else
    do ok <- get (reachable (Pid ps));
    log (EvSignal (pid_t (Pid ps)) sig ok) ;;
    if ok then
      match sig with
      | Signal0 => ret None
      | SIGKILL => addKilled (pid_t (Pid ps)) ;; ret None
      end
    else ret (Some errProcessDone).

(** [Process.Kill]. *)
Definition Kill (ps : Process) : M (option error) := Signal ps SIGKILL.

(** [Process.Wait]: fails on a released handle and on a process that is not
    a child of this program, or is one it has waited for already.  Its
    callers wait only after a [Kill] that succeeded, so the wait for a child
    returns, and the child is gone. *)
Definition Wait (ps : Process) : M (option error) :=
  if Pid ps =? -1 then ret (Some errEINVAL)
  else
    do kids <- get children;
    do gone <- get reaped;
    log (EvWait (pid_t (Pid ps))) ;;
    if existsb (Z.eqb (pid_t (Pid ps))) kids &&
       negb (existsb (Z.eqb (pid_t (Pid ps))) gone)
    then addReaped (pid_t (Pid ps)) ;; ret None
    else ret (Some errECHILD).

(** [Process.Release]: the handle as it is afterwards, and the error. *)
Definition Release (ps : Process) : M (Process * option error) :=
  do r <- get (fun w => os_release (os w));
  match r with
  | Some e => ret (ps, Some e)
  | None => ret (mkProcess (-1), None)
  end.

(** [exec.CommandContext(ctx, ...)] followed by [cmd.Start()]: a context
    that is already done makes [Start] fail before anything is launched.
    The pid of the new process is the [pid_t] that the kernel hands out. *)
Definition Start (ctx : Context) : M (error + Process) :=
  do now <- time_ops.Now;
  match ctx now with
  | Some e => ret (inl e)
  | None =>
      do kids <- get children;
      do r <- get (fun w => match os_spawn (os w) (List.length kids) with
                            | inl e => inl e
                            | inr pid => inr (pid_t pid)
                            end);
      log (EvSpawn r) ;;
      match r with
      | inl e => ret (inl e)
      | inr pid => addChild pid ;; ret (inr (mkProcess pid))
      end
  end.

(** [os.MkdirAll(path, 0700)]; the Go code drops the result, so all that
    is kept is that the directory was asked for. *)
Definition MkdirAll (d : dirName) : M unit := addDir d.

(** [ioutil.WriteFile(cfg.pidFile, data, 0600)]: on success the file holds
    [data] and its modification time is now. *)
Definition WriteFile (data : string) : M (option error) :=
  do now <- time_ops.Now;
  do r <- get (fun w => os_write (os w) now (pidfile w));
  match r with
  | Some (e, rest) => log (EvWrite data (Some e)) ;; setPidfile rest ;; ret (Some e)
  | None => log (EvWrite data None) ;; setPidfile (Contents now data) ;; ret None
  end.

(** [os.RemoveAll(cfg.pidFile)]; the Go code drops the result. *)
Definition RemoveAll : M unit :=
  do ok <- get (fun w => os_remove (os w));
  log EvRemove ;;
  if ok then setPidfile NoFile else ret tt.

End os_ops.

(** ** Package svc *)

(** A readiness check, [func(ctx context.Context) error].  It looks at the
    context and at the world (the time, what happened so far) and answers
    [nil] ([None]), [ErrNotReady{}], or another error.  It changes nothing
    the package keeps track of. *)
Definition Check : Type := Context -> World -> option error.

Record runSpec : Type := mkRun {
  run_name : string;
  run_args : list string;
  run_env : list string;
  run_dir : string
}.

Record config : Type := mkConfig {
  name : string;
  pidFile : string;
  run : runSpec;
  checks : list Check
}.

(** [Status], the report of [config.Status]. *)
Record StatusT : Type := mkStatus {
  Name : string;
  PID : Z;
  Started : Time;
  Running : bool;
  Ready : bool
}.

(** A call either returns or, when the bound on the number of polling
    rounds is used up, is still polling. *)
Inductive outcome (A : Type) : Type :=
| Returned (a : A)
| Polling.
Arguments Returned {A} a.
Arguments Polling {A}.

(** [getSysinfo]: [getSysinfoOnce.Do] runs [unix.Sysinfo] on the first call
    only; every call returns what that first call stored. *)
Definition getSysinfo : M (error + Z) :=
  do once <- get sysinfoOnce;
  match once with
  | Some r => ret r
  | None =>
      do now <- time_ops.Now;
      do r <- get (fun w => os_sysinfo (os w) now);
      log EvSysinfo ;;
      setSysinfoOnce r ;;
      ret r
  end.

(** [config.getPIDFile]: the named results [pid] and [mtime] start at zero
    and every early [return] returns them as they are at that point. *)
Definition getPIDFile (cfg : config) : M (Z * Time) :=
  do file <- get pidfile;
  match file with
  | NoFile | OpenFails => ret (0, zeroTime)        (* no pidfile *)
  | StatFails => ret (0, zeroTime)                 (* can't stat the pidfile *)
  | ReadFails mtime => ret (0, mtime)              (* lost pidfile *)
  | Contents mtime data =>
      match strconv.Atoi data with
      | None => ret (0, mtime)                     (* garbled pid file *)
      | Some pid => ret (pid, mtime)
      end
  end.

(** The test [time.Since(start).Seconds() > float64(sys.Uptime)]. *)
Definition olderThanBoot (age : Duration) (uptime : Z) : bool :=
  time.gt (time.Seconds age) (time.float64 uptime).

(** [config.getProcessByPID]. *)
Definition getProcessByPID (cfg : config) (pid : Z) (start : Time)
  : M (option Process) :=
  do sys <- getSysinfo;
  do age <- time_ops.Since start;
  if match sys with
     | inr uptime => olderThanBoot age uptime
     | inl _ => false
     end
  then ret None               (* system rebooted since the pidfile was created *)
  else
    match os_ops.FindProcess pid with
    | inl _ => ret None       (* pid terminated *)
    | inr ps =>
        do err <- os_ops.Signal ps Signal0;
        match err with
        | Some _ => ret None  (* process did not exist or permission problem *)
        | None => ret (Some ps)
        end
    end.

(** [config.getProcess]. *)
Definition getProcess (cfg : config) : M (option Process) :=
  do '(pid, mtime) <- getPIDFile cfg;
  if pid <? 2 then ret None   (* leave init alone *)
  else getProcessByPID cfg pid mtime.

(** [config.running]. *)
Definition running (cfg : config) : M bool :=
  do ps <- getProcess cfg;
  ret (match ps with Some _ => true | None => false end).

Definition errBeforeChecks : error :=
  Error "process exited before starting checks".

(** [fmt.Errorf(`process %v exited before checks were satisfied`, ps.Pid)]. *)
Definition errExited (pid : Z) : error :=
  Error (String.append "process "
           (String.append (strconv.Itoa pid)
              " exited before checks were satisfied")).

(** A run-time panic of the Go program, kept as an error value. *)
Definition errIndex : error := Error "panic: index out of range".

(** How one pass over [cfg.checks] ends: it ran through (with the new
    [unready] and [ready]) or a check returned an error that ends [check]. *)
Inductive pass : Type :=
| PassDone (unready : Z) (ready : list bool)
| PassAbort (e : error).

(** One call [check(ctx)] of check number [i]. *)
Definition probe (i : nat) (c : Check) (ctx : Context) : M (option error) :=
  do res <- get (c ctx);
  log (EvProbe i res) ;;
  ret res.

(** The inner loop of [config.check],
    [for i, check := range cfg.checks { ... }], from index [i] on. *)
Fixpoint checkPass (ctx : Context) (cs : list Check) (i : nat)
  (unready : Z) (ready : list bool) : M pass :=
  match cs with
  | [] => ret (PassDone unready ready)
  | c :: rest =>
      match ready !! i with
      | None => ret (PassAbort errIndex)
      | Some true => checkPass ctx rest (S i) unready ready   (* continue *)
      | Some false =>
          do err <- probe i c ctx;
          match err with
          | None => checkPass ctx rest (S i) (unready - 1) (<[i := true]> ready)
          | Some ErrNotReady => checkPass ctx rest (S i) unready ready
          | Some e => ret (PassAbort e)
          end
      end
  end.

Definition pollInterval : Duration := 100 * time.Millisecond.

(** The outer loop of [config.check], [for { ... }], for at most [rounds]
    rounds. *)
Fixpoint checkLoop (rounds : nat) (cfg : config) (ctx : Context)
  (ps : Process) (unready : Z) (ready : list bool) : M (outcome (option error)) :=
  match rounds with
  | O => ret Polling
  | S rounds' =>
      do now <- time_ops.Now;
      match ctx now with
      | Some e => ret (Returned (Some e))
      | None =>
          do p <- checkPass ctx (checks cfg) 0 unready ready;
          match p with
          | PassAbort e => ret (Returned (Some e))
          | PassDone unready' ready' =>
              if unready' <? 1 then ret (Returned None)
              else
                time_ops.Sleep pollInterval ;;
                do err <- os_ops.Signal ps Signal0;
                match err with
                | Some _ => ret (Returned (Some (errExited (Pid ps))))
                | None => checkLoop rounds' cfg ctx ps unready' ready'
                end
          end
      end
  end.

(** [config.check]. *)
Definition check (rounds : nat) (cfg : config) (ctx : Context)
  : M (outcome (option error)) :=
  do ps <- getProcess cfg;
  match ps with
  | None => ret (Returned (Some errBeforeChecks))
  | Some ps =>
      let unready := Z.of_nat (List.length (checks cfg)) in
      let ready := replicate (List.length (checks cfg)) false in
      checkLoop rounds cfg ctx ps unready ready
  end.

(** [config.kill]. *)
Definition kill (cfg : config) (ps : Process) : M (option error) :=
  do err <- os_ops.Kill ps;
  match err with
  | Some e => ret (Some e)
  | None => os_ops.Wait ps
  end.

(** [config.start]. *)
Definition start (rounds : nat) (cfg : config) (ctx : Context)
  : M (outcome (option error)) :=
  do up <- running cfg;
  if up then check rounds cfg ctx
  else
    (if String.eqb (run_dir (run cfg)) "" then ret tt
     else os_ops.MkdirAll (Named (run_dir (run cfg)))) ;;
    do cmd <- os_ops.Start ctx;
    match cmd with
    | inl e => ret (Returned (Some e))
    | inr proc =>
        (* [os.MkdirAll(filepath.Dir(cfg.pidFile), 0700)]: the directory of
           the pid file; [filepath.Dir] never returns the empty string *)
        os_ops.MkdirAll (ParentOf (pidFile cfg)) ;;
        do err <- os_ops.WriteFile (strconv.Itoa (Pid proc));
        match err with
        | Some e => kill cfg proc ;; ret (Returned (Some e))
        | None =>
            do '(proc', err) <- os_ops.Release proc;
            match err with
            | Some e => kill cfg proc' ;; ret (Returned (Some e))
            | None =>
                do r <- check rounds cfg ctx;
                match r with
                | Polling => ret Polling
                | Returned (Some e) => kill cfg proc' ;; ret (Returned (Some e))
                | Returned None => ret (Returned None)
                end
            end
        end
    end.

(** [config.stop]; the deferred [os.RemoveAll] runs after [ps.Wait()]. *)
Definition stop (cfg : config) (ctx : Context) : M (option error) :=
  do ps <- getProcess cfg;
  match ps with
  | None => os_ops.RemoveAll ;; ret None
  | Some ps =>
      do err <- os_ops.Kill ps;
      match err with
      | Some e => ret (Some e)
      | None => os_ops.Wait ps ;; os_ops.RemoveAll ;; ret None
      end
  end.

(** [config.Status]. *)
Definition Status (rounds : nat) (cfg : config) (ctx : Context)
  : M (outcome StatusT) :=
  do '(pid, started) <- getPIDFile cfg;
  if pid =? 0 then ret (Returned (mkStatus (name cfg) pid started false false))
  else
    do ps <- getProcessByPID cfg pid started;
    match ps with
    | None => ret (Returned (mkStatus (name cfg) pid started false false))
    | Some _ =>
        do r <- check rounds cfg ctx;
        match r with
        | Polling => ret Polling
        | Returned (Some _) =>
            ret (Returned (mkStatus (name cfg) pid started true false))
        | Returned None =>
            ret (Returned (mkStatus (name cfg) pid started true true))
        end
    end.

(** ** Configuring a service: the options and [New] *)

(** The [config] that [New] is filling in.  In Go [cfg.run.args] is a slice,
    which is [nil] or a list of strings; [run_args] holds the list and
    [argsNil] tells whether the slice is still [nil]. *)
Record building : Type := mkBuilding {
  built : config;
  argsNil : bool
}.

(** An [Option], a function on a pointer to the config: the config as the
    option leaves it, or
    the value it panics with. *)
Definition Option : Type := building -> error + building.

Definition withPidFile (path : string) (cfg : config) : config :=
  mkConfig (name cfg) path (run cfg) (checks cfg).

Definition withRun (r : runSpec) (cfg : config) : config :=
  mkConfig (name cfg) (pidFile cfg) r (checks cfg).

Definition withChecks (cs : list Check) (cfg : config) : config :=
  mkConfig (name cfg) (pidFile cfg) (run cfg) cs.

(** [PIDFile]. *)
Definition PIDFile (path : string) : Option :=
  fun b => inr (mkBuilding (withPidFile path (built b)) (argsNil b)).

Definition errTwoRuns : error := Error "services expect exactly one run option".

(** [Run]: panics when [cfg.run.args] is not [nil]; the arguments it stores
    are never [nil] (no arguments are stored as the empty slice). *)
Definition Run (nm : string) (args : list string) : Option :=
  fun b =>
    if negb (argsNil b) then inl errTwoRuns
    else
      let r := run (built b) in
      inr (mkBuilding (withRun (mkRun nm args (run_env r) (run_dir r)) (built b))
                      false).

(** [Check]: [cfg.checks = append(cfg.checks, checks...)]. *)
Definition CheckOption (cs : list Check) : Option :=
  fun b =>
    inr (mkBuilding (withChecks (checks (built b) ++ cs) (built b)) (argsNil b)).

(** [Dir]. *)
Definition Dir (path : string) : Option :=
  fun b =>
    let r := run (built b) in
    inr (mkBuilding (withRun (mkRun (run_name r) (run_args r) (run_env r) path)
                             (built b))
                    (argsNil b)).

(** [Env]: [cfg.run.env = append(cfg.run.env, environment...)]. *)
Definition Env (environment : list string) : Option :=
  fun b =>
    let r := run (built b) in
    inr (mkBuilding
           (withRun (mkRun (run_name r) (run_args r)
                           (run_env r ++ environment) (run_dir r))
                    (built b))
           (argsNil b)).

(** [for _, option := range options { option(&cfg) }]: a panic ends it. *)
Fixpoint applyOptions (options : list Option) (b : building) : error + building :=
  match options with
  | [] => inr b
  | option :: rest =>
      match option b with
      | inl e => inl e
      | inr b' => applyOptions rest b'
      end
  end.

(** [New].  [filepath.Join] of the standard library is taken as given:
    [join dir file] stands for [filepath.Join(dir, file)]. *)
Definition New (join : string -> string -> string) (nm : string)
  (options : list Option) : error + config :=
  match applyOptions options
          (mkBuilding (mkConfig nm "" (mkRun "" [] [] "") []) true) with
  | inl e => inl e
  | inr b =>
      let cfg := built b in
      if negb (String.eqb (pidFile cfg) "") then inr cfg   (* leave it alone *)
      else if negb (String.eqb (run_dir (run cfg)) "") then
        inr (withPidFile (join (run_dir (run cfg)) (String.append nm ".pid")) cfg)
      else inr (withPidFile (String.append nm ".pid") cfg)
  end.

(** ** The two kinds of readiness check that come with the package *)

(** How [dialer.DialContext(ctx, network, address)] ends, by the cases
    [DialCheck] tells apart: a connection, an error that is the value
    [context.Canceled] itself, an error whose type is [*net.AddrError], any
    other error.  The dialer of package [net] wraps what goes wrong in a
    [*net.OpError], a malformed address and a cancelled context too, so
    with it only the first and the last case are seen. *)
Inductive dialResult : Type :=
| Connected
| DialCanceled
| AddrError (msg : string)
| DialFailed (msg : string).

Definition Dialer : Type := string -> string -> Context -> World -> dialResult.

Definition errCanceled : error := Error "context canceled".

(** The check of [DialCheck], for a given way the network answers. *)
Definition dial (dialer : Dialer) (network address : string) : Check :=
  fun ctx w =>
    match dialer network address ctx w with
    | Connected => None                      (* conn.Close(); return nil *)
    | DialCanceled => Some errCanceled       (* return err *)
    | AddrError msg => Some (Error msg)      (* address errors are not retried *)
    | DialFailed _ => Some ErrNotReady
    end.

(** [DialCheck]. *)
Definition DialCheck (dialer : Dialer) (network address : string) : Option :=
  CheckOption [dial dialer network address].

(** How the GET of [HTTPCheck] ends: [http.NewRequestWithContext] fails,
    [http.DefaultClient.Do] fails, or a response arrives with a status
    code. *)
Inductive httpResult : Type :=
| BadRequest (msg : string)
| TransportError (msg : string)
| Response (code : Z).

Definition HTTPClient : Type := string -> Context -> World -> httpResult.

(** The check of [HTTPCheck], for a given way the network answers. *)
Definition httpGet (client : HTTPClient) (url : string) (status : Z) : Check :=
  fun ctx w =>
    match client url ctx w with
    | BadRequest msg => Some (Error msg)
    | TransportError _ => Some ErrNotReady
    | Response code => if negb (code =? status) then Some ErrNotReady else None
    end.

(** [HTTPCheck]. *)
Definition HTTPCheck (client : HTTPClient) (url : string) (status : Z) : Option :=
  CheckOption [httpGet client url status].

(** ** Reporting *)

(** [Status.String]. *)
Definition StatusString (nfo : StatusT) : string :=
  if PID nfo =? 0 then String.append (Name nfo) " is not running"
  else if negb (Running nfo) then
    String.append (Name nfo)
      (String.append " had pid "
         (String.append (strconv.Itoa (PID nfo)) " and is not running"))
  else
    String.append
      (String.append (Name nfo)
         (String.append " has pid " (strconv.Itoa (PID nfo))))
      (if Ready nfo then " and is ready" else " and is running but not ready").

(** * Vocabulary of the properties *)

(** ** What a call added to the trace *)

(** [w'] is reached from [w] with [added] as the calls made in between. *)
Definition extends (w w' : World) (added : list Event) : Prop :=
  trace w' = trace w ++ added.

(** Calls that only look: the uptime query, a zero signal, a readiness
    check, a sleep. *)
Definition passive (e : Event) : bool :=
  match e with
  | EvSysinfo | EvSignal _ Signal0 _ | EvProbe _ _ | EvSleep _ => true
  | _ => false
  end.

Definition isSignal (e : Event) : bool :=
  match e with EvSignal _ _ _ => true | _ => false end.

Definition isProbe (e : Event) : bool :=
  match e with EvProbe _ _ => true | _ => false end.


Definition isSleep (e : Event) : bool :=
  match e with EvSleep _ => true | _ => false end.

(** Calls of the liveness resolver: the uptime query and a zero signal. *)
Definition resolving (e : Event) : bool :=
  match e with
  | EvSysinfo | EvSignal _ Signal0 _ => true
  | _ => false
  end.

(** [w'] is [w] after calls that only look: the pid file, the processes
    killed, waited for and started, the directories asked for and the
    platform are the same, and every call made in between is one that
    [allowed] admits. *)
Record quiet (allowed : Event -> bool) (w w' : World) : Prop := mkQuiet {
  quiet_pidfile : pidfile w' = pidfile w;
  quiet_killed : killed w' = killed w;
  quiet_children : children w' = children w;
  quiet_os : os w' = os w;
  quiet_trace : exists added, extends w w' added /\ forallb allowed added = true;
  quiet_reaped : reaped w' = reaped w;
  quiet_dirs : dirs w' = dirs w
}.

Definition observer (allowed : Event -> bool) {A : Type} (m : M A) : Prop :=
  forall w, quiet allowed w (snd (m w)).

(** ** The bookkeeping of the wait-for-ready loop, read off the trace *)

(** How many checks are not yet satisfied. *)
Fixpoint pending (ready : list bool) : nat :=
  match ready with
  | [] => O
  | b :: rest => ((if b then 0 else 1) + pending rest)%nat
  end.

(** The [ready] slice after a call: a check that answered [nil] is marked. *)
Definition mark (ready : list bool) (e : Event) : list bool :=
  match e with
  | EvProbe i None => <[i := true]> ready
  | _ => ready
  end.

Definition marked (ready : list bool) (evs : list Event) : list bool :=
  fold_left mark evs ready.

(** Every check called was not yet marked when it was called. *)
Fixpoint respects (ready : list bool) (evs : list Event) : Prop :=
  match evs with
  | [] => True
  | e :: rest =>
      match e with
      | EvProbe i _ => ready !! i = Some false
      | _ => True
      end /\ respects (mark ready e) rest
  end.

(** A call that does not end the loop by itself: anything but a check that
    answered an error other than [ErrNotReady]. *)
Definition soft (e : Event) : bool :=
  match e with
  | EvProbe _ (Some ErrNotReady) => true
  | EvProbe _ (Some _) => false
  | _ => true
  end.

(** A check that answers a hard error is the last call, and the loop
    returns that error. *)
Fixpoint hardLast (r : outcome (option error)) (evs : list Event) : Prop :=
  match evs with
  | [] => True
  | e :: rest =>
      match e with
      | EvProbe _ (Some err) =>
          err = ErrNotReady \/ (rest = [] /\ r = Returned (Some err))
      | _ => True
      end /\ hardLast r rest
  end.

(** Every sleep lasts [pollInterval] and is followed at once by a zero
    signal for [pid], which goes to the process that the kernel reads from
    that number; when that signal fails it is the last call. *)
Fixpoint sleepVerify (pid : Z) (r : outcome (option error)) (evs : list Event)
  : Prop :=
  match evs with
  | [] => True
  | e :: rest =>
      match e with
      | EvSleep d =>
          d = pollInterval /\
          exists ok rest', rest = EvSignal (os_ops.pid_t pid) Signal0 ok :: rest' /\
            (ok = false -> rest' = [] /\ r = Returned (Some (errExited pid)))
      | _ => True
      end /\ sleepVerify pid r rest
  end.

(** The loop sleeps only while some check is not yet satisfied. *)
Fixpoint sleepsPending (ready : list bool) (evs : list Event) : Prop :=
  match evs with
  | [] => True
  | e :: rest =>
      match e with
      | EvSleep _ => (0 < pending ready)%nat
      | _ => True
      end /\ sleepsPending (mark ready e) rest
  end.

(** The checks of one round are called by rising index, from [lo] on. *)
Fixpoint climbing (lo : nat) (evs : list Event) : Prop :=
  match evs with
  | [] => True
  | EvProbe j _ :: rest => (lo <= j)%nat /\ climbing (S j) rest
  | _ => False
  end.

(** What comes after check [i] when its answer did not end the loop: a
    check with a higher index, in the same round; or the sleep of
    [pollInterval] and then the zero signal for [pid], which is the last
    call if it is not delivered; or nothing, and then the loop has returned
    success. *)
Definition afterCheck (pid : Z) (r : outcome (option error)) (i : nat)
  (post : list Event) : Prop :=
  match post with
  | [] => r = Returned None
  | EvProbe j _ :: _ => (i < j)%nat
  | e :: post1 =>
      e = EvSleep pollInterval /\
      exists ok post',
        post1 = EvSignal (os_ops.pid_t pid) Signal0 ok :: post' /\
        (ok = false -> post' = [] /\ r = Returned (Some (errExited pid)))
  end.

Definition roundsClosed (pid : Z) (r : outcome (option error))
  (added : list Event) : Prop :=
  forall pre i res post,
    added = pre ++ EvProbe i res :: post ->
    soft (EvProbe i res) = true ->
    afterCheck pid r i post.

Definition succeeded (r : outcome (option error)) : bool :=
  match r with
  | Returned None => true
  | _ => false
  end.

(** What the trace of a run of the wait-for-ready loop looks like, when
    the loop starts with the slice [ready], waits for process [pid] and ends
    with [r]. *)
Definition loopFacts (pid : Z) (ready : list bool) (r : outcome (option error))
  (added : list Event) : Prop :=
  respects ready added /\
  (succeeded r = true -> pending (marked ready added) = O) /\
  (succeeded r = false ->
     (0 < pending (marked ready added))%nat \/ (added = [] /\ pending ready = O)) /\
  hardLast r added /\
  sleepVerify pid r added /\
  sleepsPending ready added.

(** The same for a whole call of [check] over [n] checks. *)
Definition checkFacts (n : nat) (pid : Z) (r : outcome (option error))
  (added : list Event) : Prop :=
  respects (replicate n false) added /\
  (succeeded r = true -> pending (marked (replicate n false) added) = O) /\
  (succeeded r = false ->
     n = O \/ (0 < pending (marked (replicate n false) added))%nat) /\
  hardLast r added /\
  sleepVerify pid r added /\
  sleepsPending (replicate n false) added.

(** [n] calls of [Status] in a row. *)
Fixpoint statusTimes (n : nat) (rounds : nat) (cfg : config) (ctx : Context)
  : M unit :=
  match n with
  | O => ret tt
  | S n' => Status rounds cfg ctx ;; statusTimes n' rounds cfg ctx
  end.

(** ** Floats in normal form *)




(** ** The steps of start *)

(** The world in which [start] launches the command: after [running], with
    the run directory asked for if one is configured. *)
Definition launchWorld (cfg : config) (w : World) : World :=
  let w0 := snd (running cfg w) in
  if String.eqb (run_dir (run cfg)) "" then w0
  else snd (os_ops.MkdirAll (Named (run_dir (run cfg))) w0).

(** The world in which [start] writes the pid: after the launch, with the
    directory of the pid file asked for. *)
Definition recordWorld (cfg : config) (ctx : Context) (w : World) : World :=
  snd (os_ops.MkdirAll (ParentOf (pidFile cfg))
         (snd (os_ops.Start ctx (launchWorld cfg w)))).

(** ** Sample services and machines *)

Definition noon : Time := 63900000000 * time.Second.

(** A context that is never done, and one that is already cancelled. *)
Definition background : Context := fun _ => None.
Definition cancelled : Context := fun _ => Some (Error "context canceled").

(** A check that is ready from a given time on. *)
Definition readyFrom (t : Time) : Check :=
  fun _ w => if clock w <? t then Some ErrNotReady else None.

(** A check that fails for good: an [HTTPCheck] of a URL without a
    scheme, for which no request can be built. *)
Definition noScheme : HTTPClient :=
  fun url _ _ =>
    BadRequest (String.append "parse " (String.append url ": missing protocol scheme")).
Definition badURL : Check := httpGet noScheme ":8222/healthz" 200.

Definition service (cs : list Check) : config :=
  mkConfig "nats" "var/nats/nats.pid"
    (mkRun "nats-server" ["-js"%string] [] "var/nats") cs.

(** A machine on which the pids from 4242 on can be signalled (pid 1 too,
    as for a caller with the rights of root), [unix.Sysinfo] answers with the
    given result, and the n-th launch gets pid [4242 + n]. *)
Definition machine (sysinfo : error + Z) : OS :=
  mkOS (fun _ pid => (pid =? 1) || (4242 <=? pid))
       (fun _ => sysinfo)
       (fun n => inr (4242 + Z.of_nat n))
       (fun _ _ => None)
       None
       true.

(** The same machine, on which pid 4242 is gone from a given time on. *)
Definition machineUntil (gone : Time) : OS :=
  mkOS (fun t pid => (4242 <=? pid) && (t <? gone))
       (fun _ => inr 86400)
       (fun n => inr (4242 + Z.of_nat n))
       (fun _ _ => None)
       None
       true.

(** A machine on which the pid file cannot be written. *)
Definition machineReadOnly : OS :=
  mkOS (fun _ pid => 4242 <=? pid)
       (fun _ => inr 86400)
       (fun n => inr (4242 + Z.of_nat n))
       (fun _ f => Some (Error "open var/nats/nats.pid: read-only file system", f))
       None
       true.

(** A run that has made no call yet. *)
Definition world (o : OS) (now : Time) (f : File) : World :=
  mkWorld now f None [] [] [] [] [] o.

Definition hour : Duration := 3600 * time.Second.

(** Nothing recorded yet, on a machine that has been up for a day. *)
Definition freshWorld : World := world (machine (inr 86400)) noon NoFile.

(** A service whose only check can never pass. *)
Definition failingService : config := service [badURL].

(** A pid file that names pid 1, and one that holds no number, both
    written an hour ago. *)
Definition initRecord : World :=
  world (machine (inr 86400)) (noon + hour) (Contents noon "1").
Definition garbledRecord : World :=
  world (machine (inr 86400)) (noon + hour) (Contents noon "abc").

(** Process 4242, recorded five seconds ago, and a service that is ready
    150 ms from now. *)
Definition runningWorld : World :=
  world (machine (inr 86400)) (noon + 5 * time.Second) (Contents noon "4242").
Definition slowService : config :=
  service [readyFrom (noon + 5 * time.Second + 150 * time.Millisecond)].

(** The same record on a machine where process 4242 is gone 50 ms from
    now. *)
Definition dyingWorld : World :=
  world (machineUntil (noon + 5 * time.Second + 50 * time.Millisecond))
        (noon + 5 * time.Second) (Contents noon "4242").

(** A machine that has been up for 30 seconds, and a service that needs
    30.1 seconds to become ready. *)
Definition youngWorld : World := world (machine (inr 30)) noon NoFile.
Definition lateService : config :=
  service [readyFrom (noon + 30100 * time.Millisecond)].

Definition blindWorld : World :=
  world (machine (inl (Error "function not implemented")))
        (noon + 2 * hour) (Contents noon "4242").


(** ** The claims that fail, as they are worded *)


(** The zero signal to [pid] comes right before each sleep. *)
Definition verifiesBeforeSleeping (pid : Z) (added : list Event) : Prop :=
  forall pre d post, added = pre ++ EvSleep d :: post ->
    exists pre' ok, pre = pre' ++ [EvSignal pid Signal0 ok].

(** A second [start] right after a first one starts nothing and leaves the
    pid file as it is. *)
Definition secondStartIdle (rounds : nat) (cfg : config) (ctx : Context)
  (w : World) : Prop :=
  forall r1 w1 r2 w2,
    start rounds cfg ctx w = (r1, w1) ->
    start rounds cfg ctx w1 = (r2, w2) ->
    children w2 = children w1 /\ pidfile w2 = pidfile w1.

(** The wait returns success exactly when each of the [n] checks has
    answered [nil] at least once. *)
Definition successIffAllReported (n : nat) (r : outcome (option error))
  (added : list Event) : Prop :=
  r = Returned None <->
  (forall i, (i < n)%nat -> In (EvProbe i None) added).


(** ** Options written with the package's own constructors *)

Inductive setting : Type :=
| SetPIDFile (path : string)
| SetRun (nm : string) (args : list string)
| SetChecks (cs : list Check)
| SetDir (path : string)
| SetEnv (environment : list string).

Definition optionOf (s : setting) : Option :=
  match s with
  | SetPIDFile path => PIDFile path
  | SetRun nm args => Run nm args
  | SetChecks cs => CheckOption cs
  | SetDir path => Dir path
  | SetEnv environment => Env environment
  end.

(** How many [Run] options there are. *)
Fixpoint runs (ss : list setting) : nat :=
  match ss with
  | [] => O
  | SetRun _ _ :: rest => S (runs rest)
  | _ :: rest => runs rest
  end.

(** The path of the last [PIDFile] option, the directory of the last [Dir]
    option, the command of the last [Run] option; [init] if there is none. *)
Fixpoint lastPIDFile (init : string) (ss : list setting) : string :=
  match ss with
  | [] => init
  | SetPIDFile path :: rest => lastPIDFile path rest
  | _ :: rest => lastPIDFile init rest
  end.

Fixpoint lastDir (init : string) (ss : list setting) : string :=
  match ss with
  | [] => init
  | SetDir path :: rest => lastDir path rest
  | _ :: rest => lastDir init rest
  end.

Fixpoint lastRun (init : string * list string) (ss : list setting)
  : string * list string :=
  match ss with
  | [] => init
  | SetRun nm args :: rest => lastRun (nm, args) rest
  | _ :: rest => lastRun init rest
  end.

(** The checks of all [Check] options and the variables of all [Env]
    options, in the order given. *)
Fixpoint allChecks (ss : list setting) : list Check :=
  match ss with
  | [] => []
  | SetChecks cs :: rest => cs ++ allChecks rest
  | _ :: rest => allChecks rest
  end.

Fixpoint allEnv (ss : list setting) : list string :=
  match ss with
  | [] => []
  | SetEnv environment :: rest => environment ++ allEnv rest
  | _ :: rest => allEnv rest
  end.

(** A stand-in for [filepath.Join] on paths that need no cleaning. *)
Definition slashJoin (dir file : string) : string :=
  String.append dir (String.append "/" file).

(** A network on which every dial connects and every GET answers 200. *)
Definition allUp : Dialer := fun _ _ _ _ => Connected.
Definition allOK : HTTPClient := fun _ _ _ => Response 200.

(** The service of the package's README. *)
Definition natsSettings : list setting :=
  [SetRun "nats-server" ["-addr"; "localhost"; "-m"; "8222"; "-js"; "-sd"; "."]%string;
   SetDir "var/nats";
   SetChecks [dial allUp "tcp" "localhost:4222"];
   SetChecks [httpGet allOK "http://localhost:8222" 200]].

Definition natsConfig : config :=
  mkConfig "nats" "var/nats/nats.pid"
    (mkRun "nats-server"
           ["-addr"; "localhost"; "-m"; "8222"; "-js"; "-sd"; "."]%string
           [] "var/nats")
    [dial allUp "tcp" "localhost:4222";
     httpGet allOK "http://localhost:8222" 200].

(** ** Strings *)

(** No character of the string is a space. *)
Fixpoint spaceless (s : string) : bool :=
  match s with
  | EmptyString => true
  | String c rest => negb (Ascii.eqb c " ") && spaceless rest
  end.

(** What [Status.String] puts after the name. *)
Definition statusTail (nfo : StatusT) : string :=
  if PID nfo =? 0 then " is not running"
  else if negb (Running nfo) then
    String.append " had pid "
      (String.append (strconv.Itoa (PID nfo)) " and is not running")
  else
    String.append " has pid "
      (String.append (strconv.Itoa (PID nfo))
         (if Ready nfo then " and is ready" else " and is running but not ready")).

(** ** More sample machines *)

(** A server that answers every GET with 503, and a context whose deadline
    is at a given time. *)
Definition always503 : HTTPClient := fun _ _ _ => Response 503.
Definition deadlineAt (t : Time) : Context :=
  fun now => if now <? t then None else Some (Error "context deadline exceeded").

Definition unreadyService : config :=
  service [httpGet always503 "http://localhost:8222" 200].

(** A pid file written with a newline after the number. *)
Definition newlineRecord : World :=
  world (machine (inr 86400)) (noon + hour)
        (Contents noon (String.append "4242" (String "010"%char ""))).

(** ** What the resolver looks at *)


(** Two worlds in which the resolver sees the same, but for the pid file
    and the children waited for. *)
Definition sameView (w w' : World) : Prop :=
  clock w' = clock w /\ os w' = os w /\
  fst (getSysinfo w') = fst (getSysinfo w).

(** A call that only looks and, if it is a signal, is the zero signal for
    [pid], which goes to the process that the kernel reads from that
    number. *)
Definition aimedAt (pid : Z) (e : Event) : bool :=
  match e with
  | EvSignal p Signal0 _ => p =? os_ops.pid_t pid
  | EvSysinfo | EvProbe _ _ | EvSleep _ => true
  | _ => false
  end.

(** ** The uptime answer, once stored *)

Definition isSysinfo (e : Event) : bool :=
  match e with EvSysinfo => true | _ => false end.

(** From [w], where the uptime answer [r] is stored, to [w'] the stored
    answer stays and the uptime is not asked for. *)
Definition settled (r : error + Z) (w w' : World) : Prop :=
  sysinfoOnce w = Some r ->
  sysinfoOnce w' = Some r /\
  exists added, extends w w' added /\
                forallb (fun e => negb (isSysinfo e)) added = true.

Definition keeper (r : error + Z) {A : Type} (m : M A) : Prop :=
  forall w, settled r w (snd (m w)).

(** The running service of [runningWorld] after a first uptime query. *)
Definition informedWorld : World := snd (getSysinfo runningWorld).

(** ** start and stop *)

(** Two worlds that differ at most in the directories asked for. *)
Definition sameButDirs (w w' : World) : Prop :=
  clock w' = clock w /\ pidfile w' = pidfile w /\
  sysinfoOnce w' = sysinfoOnce w /\ killed w' = killed w /\
  reaped w' = reaped w /\ children w' = children w /\
  trace w' = trace w /\ os w' = os w.

(** The calls of a [start] whose launch fails: those of the resolver, and
    the launch. *)
Definition failedLaunch (e : Event) : bool :=
  match e with
  | EvSysinfo | EvSignal _ Signal0 _ | EvSpawn (inl _) => true
  | _ => false
  end.

(** The largest pid that a [pid_t] holds. *)
Definition maxPid : Z := 2 ^ 31 - 1.

(** Process 4242, recorded five seconds ago, on a machine on which the pid
    file cannot be removed. *)
Definition machineStuck : OS :=
  mkOS (fun _ pid => 4242 <=? pid)
       (fun _ => inr 86400)
       (fun n => inr (4242 + Z.of_nat n))
       (fun _ _ => None)
       None
       false.
Definition stuckWorld : World :=
  world machineStuck (noon + 5 * time.Second) (Contents noon "4242").

(** A pid file that names [2^32 + 1], which the kernel reads as pid 1. *)
Definition wrappedRecord : World :=
  world (machine (inr 86400)) (noon + hour) (Contents noon "4294967297").

(** * Proofs *)

(** ** strconv: what Itoa writes, Atoi reads back *)

Lemma digit_not_sign (c : ascii) (d : Z) :
  strconv.digit c = Some d ->
  Ascii.eqb c "-" = false /\ Ascii.eqb c "+" = false.
Proof.
  intros H. split.
  - destruct (Ascii.eqb_spec c "-") as [-> |]; [discriminate | reflexivity].
  - destruct (Ascii.eqb_spec c "+") as [-> |]; [discriminate | reflexivity].
Qed.

Lemma digits_of_uint_acc (d : Decimal.uint) :
  forall acc : positive,
    strconv.digits (NilEmpty.string_of_uint d) (Z.pos acc) =
    Some (Z.pos (Pos.of_uint_acc d acc)).
Proof.
  induction d; intros acc; cbn [NilEmpty.string_of_uint strconv.digits Pos.of_uint_acc];
    [reflexivity | ..];
    match goal with
    | |- context [strconv.digit ?c] =>
        change (strconv.digit c) with (Some (Z.of_N (N_of_ascii c) - 48))
    end;
    cbv beta iota; rewrite <- IHd; f_equal; cbn [N_of_ascii N_of_digits]; lia.
Qed.

Lemma digits_of_uint (d : Decimal.uint) :
  strconv.digits (NilEmpty.string_of_uint d) 0 = Some (Z.of_N (Pos.of_uint d)).
Proof.
  induction d; cbn [NilEmpty.string_of_uint strconv.digits Pos.of_uint];
    [reflexivity | ..];
    match goal with
    | |- context [strconv.digit ?c] =>
        change (strconv.digit c) with (Some (Z.of_N (N_of_ascii c) - 48))
    end;
    cbv beta iota;
    first [ exact IHd | apply digits_of_uint_acc ].
Qed.

Lemma digits_to_uint (p : positive) :
  strconv.digits (NilEmpty.string_of_uint (Pos.to_uint p)) 0 = Some (Z.pos p).
Proof. rewrite digits_of_uint, DecimalPos.Unsigned.of_to. reflexivity. Qed.

Lemma string_of_to_uint (p : positive) :
  exists c rest,
    NilZero.string_of_uint (Pos.to_uint p) = String c rest /\
    NilEmpty.string_of_uint (Pos.to_uint p) = String c rest /\
    Ascii.eqb c "-" = false /\ Ascii.eqb c "+" = false.
Proof.
  pose proof (DecimalPos.Unsigned.to_uint_nonnil p) as Hnil.
  pose proof (digits_to_uint p) as Hd.
  assert (Heq : NilZero.string_of_uint (Pos.to_uint p) =
                NilEmpty.string_of_uint (Pos.to_uint p))
    by (destruct (Pos.to_uint p); [contradiction | reflexivity ..]).
  rewrite Heq.
  destruct (NilEmpty.string_of_uint (Pos.to_uint p)) as [| c rest] eqn:Hs.
  - destruct (Pos.to_uint p); first [contradiction | discriminate].
  - exists c, rest. split; [reflexivity |]. split; [reflexivity |].
    cbn [strconv.digits] in Hd.
    destruct (strconv.digit c) as [v |] eqn:Hc; [| discriminate].
    eapply digit_not_sign; eassumption.
Qed.

(** Every [int] that [Itoa] writes is read back by [Atoi]. *)
Lemma Atoi_Itoa (n : Z) :
  strconv.minInt <= n <= strconv.maxInt ->
  strconv.Atoi (strconv.Itoa n) = Some n.
Proof.
  intros Hrange. unfold strconv.Itoa.
  destruct n as [| p | p]; cbn [Z.to_int NilZero.string_of_int].
  - reflexivity.
  - destruct (string_of_to_uint p) as (c & rest & Hz & He & Hm & Hp).
    pose proof (digits_to_uint p) as Hd. rewrite He in Hd.
    rewrite Hz. unfold strconv.Atoi. rewrite Hm, Hp. cbn [orb].
    rewrite Hd.
    replace ((strconv.minInt <=? Z.pos p) && (Z.pos p <=? strconv.maxInt))
      with true; [reflexivity |].
    symmetry. apply andb_true_iff. split; apply Z.leb_le; lia.
  - destruct (string_of_to_uint p) as (c & rest & Hz & He & Hm & Hp).
    pose proof (digits_to_uint p) as Hd. rewrite He in Hd.
    rewrite Hz. unfold strconv.Atoi.
    change (Ascii.eqb "-" "-") with true. cbn [orb].
    rewrite Hd.
    replace ((strconv.minInt <=? - Z.pos p) && (- Z.pos p <=? strconv.maxInt))
      with true; [reflexivity |].
    symmetry. apply andb_true_iff. split; apply Z.leb_le; lia.
Qed.

(** ** The monad *)

Lemma bind_eq {A B : Type} (m : M A) (k : A -> M B) (w : World) :
  bind m k w = k (fst (m w)) (snd (m w)).
Proof. unfold bind. destruct (m w); reflexivity. Qed.

Lemma extends_refl (w : World) : extends w w [].
Proof. unfold extends. now rewrite app_nil_r. Qed.

Lemma extends_trans (w1 w2 w3 : World) (a b : list Event) :
  extends w1 w2 a -> extends w2 w3 b -> extends w1 w3 (a ++ b).
Proof. unfold extends. intros H1 H2. rewrite H2, H1. now rewrite app_assoc. Qed.

Lemma extends_inj (w w' : World) (a b : list Event) :
  extends w w' a -> extends w w' b -> a = b.
Proof. unfold extends. intros H1 H2. rewrite H1 in H2. now apply app_inv_head in H2. Qed.

(** ** Calls that only look *)

Section Quiet.

Variable allowed : Event -> bool.

Lemma quiet_refl (w : World) : quiet allowed w w.
Proof.
  constructor; try reflexivity. exists []. split; [apply extends_refl | reflexivity].
Qed.

Lemma quiet_trans (w1 w2 w3 : World) :
  quiet allowed w1 w2 -> quiet allowed w2 w3 -> quiet allowed w1 w3.
Proof.
  intros [f1 k1 c1 o1 (a & e1 & p1) r1 d1] [f2 k2 c2 o2 (b & e2 & p2) r2 d2].
  constructor; try congruence.
  exists (a ++ b). split; [eapply extends_trans; eassumption |].
  rewrite forallb_app, p1, p2. reflexivity.
Qed.

Lemma observer_ret {A : Type} (a : A) : observer allowed (ret a).
Proof. intros w. apply quiet_refl. Qed.

Lemma observer_get {A : Type} (f : World -> A) : observer allowed (get f).
Proof. intros w. apply quiet_refl. Qed.

Lemma observer_bind {A B : Type} (m : M A) (k : A -> M B) :
  observer allowed m -> (forall a, observer allowed (k a)) ->
  observer allowed (bind m k).
Proof.
  intros Hm Hk w. rewrite bind_eq.
  eapply quiet_trans; [apply Hm | apply Hk].
Qed.

Lemma observer_log (e : Event) : allowed e = true -> observer allowed (log e).
Proof.
  intros He w. constructor; try reflexivity.
  exists [e]. split; [reflexivity | simpl; now rewrite He].
Qed.

Lemma observer_setClock (t : Time) : observer allowed (setClock t).
Proof.
  intros w. constructor; try reflexivity.
  exists []. split; [unfold extends; simpl; now rewrite app_nil_r | reflexivity].
Qed.

Lemma observer_setSysinfoOnce (r : error + Z) : observer allowed (setSysinfoOnce r).
Proof.
  intros w. constructor; try reflexivity.
  exists []. split; [unfold extends; simpl; now rewrite app_nil_r | reflexivity].
Qed.

End Quiet.

Lemma quiet_weaken (p q : Event -> bool) (w w' : World) :
  (forall e, p e = true -> q e = true) -> quiet p w w' -> quiet q w w'.
Proof.
  intros Hpq [f k c o (a & e & Ha) r d]. constructor; try assumption.
  exists a. split; [assumption |].
  apply forallb_forall. intros x Hx. apply Hpq.
  rewrite forallb_forall in Ha. now apply Ha.
Qed.

Lemma resolving_passive (e : Event) : resolving e = true -> passive e = true.
Proof. destruct e as [| pid [|] ok | | | | | |]; simpl; congruence. Qed.

Lemma observer_weaken {A : Type} (m : M A) :
  observer resolving m -> observer passive m.
Proof. intros H w. eapply quiet_weaken; [apply resolving_passive | apply H]. Qed.

Ltac observe :=
  repeat first
    [ match goal with H : _ |- observer _ _ => apply H end
    | apply observer_ret
    | apply observer_get
    | apply observer_setClock
    | apply observer_setSysinfoOnce
    | apply observer_log; reflexivity
    | apply observer_bind; [| intros ?]
    | match goal with
      | |- observer _ (match ?x with _ => _ end) => destruct x
      end ].

Lemma observer_Sleep (d : Duration) : observer passive (time_ops.Sleep d).
Proof. unfold time_ops.Sleep, time_ops.Now. observe. Qed.

Lemma observer_Signal0 (ps : Process) : observer resolving (os_ops.Signal ps Signal0).
Proof. unfold os_ops.Signal. observe. Qed.

Lemma observer_getSysinfo : observer resolving getSysinfo.
Proof. unfold getSysinfo, time_ops.Now. observe. Qed.

Lemma observer_getPIDFile (cfg : config) : observer resolving (getPIDFile cfg).
Proof. unfold getPIDFile. observe. Qed.

Lemma observer_getProcessByPID (cfg : config) (pid : Z) (start : Time) :
  observer resolving (getProcessByPID cfg pid start).
Proof.
  unfold getProcessByPID, time_ops.Since, time_ops.Now, os_ops.FindProcess.
  pose proof observer_getSysinfo. pose proof observer_Signal0. observe.
Qed.

Lemma observer_getProcess (cfg : config) : observer resolving (getProcess cfg).
Proof.
  unfold getProcess.
  pose proof (observer_getPIDFile cfg). pose proof (observer_getProcessByPID cfg).
  observe.
Qed.

Lemma observer_running (cfg : config) : observer resolving (running cfg).
Proof. unfold running. pose proof (observer_getProcess cfg). observe. Qed.

Lemma observer_probe (i : nat) (c : Check) (ctx : Context) :
  observer passive (probe i c ctx).
Proof. unfold probe. observe. Qed.

Lemma observer_checkPass (ctx : Context) (cs : list Check) :
  forall i unready ready, observer passive (checkPass ctx cs i unready ready).
Proof.
  induction cs as [| c rest IH]; intros i unready ready; simpl.
  - observe.
  - pose proof (observer_probe i c ctx). observe.
Qed.

Lemma observer_checkLoop (rounds : nat) (cfg : config) (ctx : Context) (ps : Process) :
  forall unready ready, observer passive (checkLoop rounds cfg ctx ps unready ready).
Proof.
  induction rounds as [| rounds IH]; intros unready ready; simpl.
  - observe.
  - pose proof (observer_checkPass ctx (checks cfg)).
    pose proof (observer_Sleep pollInterval).
    pose proof (observer_weaken _ (observer_Signal0 ps)).
    unfold time_ops.Now. observe.
Qed.

Lemma observer_check (rounds : nat) (cfg : config) (ctx : Context) :
  observer passive (check rounds cfg ctx).
Proof.
  unfold check. pose proof (observer_weaken _ (observer_getProcess cfg)).
  pose proof (observer_checkLoop rounds cfg ctx). observe.
Qed.

Lemma observer_Status (rounds : nat) (cfg : config) (ctx : Context) :
  observer passive (Status rounds cfg ctx).
Proof.
  unfold Status.
  pose proof (observer_weaken _ (observer_getPIDFile cfg)).
  pose proof (fun pid start => observer_weaken _ (observer_getProcessByPID cfg pid start)).
  pose proof (observer_check rounds cfg ctx). observe.
Qed.

Lemma observer_statusTimes (n rounds : nat) (cfg : config) (ctx : Context) :
  observer passive (statusTimes n rounds cfg ctx).
Proof.
  induction n as [| n IH]; simpl.
  - observe.
  - pose proof (observer_Status rounds cfg ctx). observe.
Qed.

(** ** The identity store *)

Lemma getPIDFile_pure (cfg : config) (w : World) : snd (getPIDFile cfg w) = w.
Proof.
  unfold getPIDFile. rewrite bind_eq. simpl.
  destruct (pidfile w) as [| | | mtime | mtime data]; try reflexivity.
  destruct (strconv.Atoi data); reflexivity.
Qed.


(** ** The liveness resolver *)

(** [getProcess] refuses a pid below 2 before it asks the system anything. *)
Lemma getProcess_small_pid (cfg : config) (w : World) :
  fst (fst (getPIDFile cfg w)) < 2 -> getProcess cfg w = (None, w).
Proof.
  intros Hpid. unfold getProcess. rewrite bind_eq.
  rewrite getPIDFile_pure.
  destruct (fst (getPIDFile cfg w)) as [pid mtime] eqn:E. simpl in Hpid.
  apply Z.ltb_lt in Hpid. rewrite Hpid. reflexivity.
Qed.

(** ** The [ready] slice and the trace *)

Lemma marked_app (ready : list bool) (a b : list Event) :
  marked ready (a ++ b) = marked (marked ready a) b.
Proof. unfold marked. apply fold_left_app. Qed.

Lemma mark_length (ready : list bool) (e : Event) :
  length (mark ready e) = length ready.
Proof. destruct e as [| | i [err|] | | | | |]; simpl; try reflexivity. apply length_insert. Qed.

Lemma marked_length (evs : list Event) :
  forall ready, length (marked ready evs) = length ready.
Proof.
  induction evs as [| e evs IH]; intros ready; simpl; [reflexivity |].
  unfold marked in *. simpl. rewrite IH. apply mark_length.
Qed.

Lemma mark_true (ready : list bool) (e : Event) (i : nat) :
  ready !! i = Some true -> mark ready e !! i = Some true.
Proof.
  intros Hi. destruct e as [| | j [err|] | | | | |]; simpl; try assumption.
  destruct (decide (j = i)) as [-> | Hne].
  - apply list_lookup_insert_eq. eapply lookup_lt_Some; eassumption.
  - rewrite list_lookup_insert_ne; assumption.
Qed.

Lemma marked_true (evs : list Event) (i : nat) :
  forall ready, ready !! i = Some true -> marked ready evs !! i = Some true.
Proof.
  induction evs as [| e evs IH]; intros ready Hi; [assumption |].
  unfold marked in *. simpl. apply IH. now apply mark_true.
Qed.

Lemma marked_success (evs : list Event) (i : nat) :
  forall ready, (i < length ready)%nat -> In (EvProbe i None) evs ->
                marked ready evs !! i = Some true.
Proof.
  induction evs as [| e evs IH]; intros ready Hlen Hin; [destruct Hin |].
  destruct Hin as [-> | Hin].
  - change (marked ready (EvProbe i None :: evs))
      with (marked (<[i := true]> ready) evs).
    apply marked_true. now apply list_lookup_insert_eq.
  - change (marked ready (e :: evs)) with (marked (mark ready e) evs).
    apply IH; [now rewrite mark_length | assumption].
Qed.

Lemma marked_true_inv (evs : list Event) (i : nat) :
  forall ready, marked ready evs !! i = Some true ->
                ready !! i = Some true \/ In (EvProbe i None) evs.
Proof.
  induction evs as [| e evs IH]; intros ready H; [now left |].
  change (marked ready (e :: evs)) with (marked (mark ready e) evs) in H.
  apply IH in H. destruct H as [H | H]; [| right; now right].
  destruct e as [| | j [err|] | | | | |]; simpl in H; try (now left).
  destruct (decide (j = i)) as [-> | Hne].
  - right. now left.
  - rewrite list_lookup_insert_ne in H by assumption. now left.
Qed.

Lemma marked_other (evs : list Event) (ready : list bool) :
  forallb (fun e => negb (isProbe e)) evs = true -> marked ready evs = ready.
Proof.
  revert ready.
  induction evs as [| e evs IH]; intros ready H; [reflexivity |].
  simpl in H. apply andb_true_iff in H as [He H].
  change (marked ready (e :: evs)) with (marked (mark ready e) evs).
  rewrite IH by assumption. destruct e; simpl in *; congruence.
Qed.

Lemma respects_app (a b : list Event) :
  forall ready,
    respects ready (a ++ b) <-> respects ready a /\ respects (marked ready a) b.
Proof.
  induction a as [| e a IH]; intros ready; simpl.
  - tauto.
  - change (marked ready (e :: a)) with (marked (mark ready e) a).
    rewrite IH. tauto.
Qed.

Lemma respects_skips (evs : list Event) (i : nat) :
  forall ready, ready !! i = Some true -> respects ready evs ->
                forall res, ~ In (EvProbe i res) evs.
Proof.
  induction evs as [| e evs IH]; intros ready Hi Hr res Hin; [destruct Hin |].
  destruct Hr as [He Hr]. destruct Hin as [-> | Hin].
  - congruence.
  - eapply IH; [apply mark_true with (e := e); eassumption | eassumption | eassumption].
Qed.

Lemma pending_insert (ready : list bool) :
  forall i, ready !! i = Some false ->
            pending ready = S (pending (<[i := true]> ready)).
Proof.
  induction ready as [| b ready IH]; intros i Hi; [discriminate |].
  destruct i as [| i]; simpl in *.
  - injection Hi as ->. reflexivity.
  - rewrite (IH i Hi). destruct b; simpl; lia.
Qed.

Lemma pending_pos (ready : list bool) :
  forall i, ready !! i = Some false -> (0 < pending ready)%nat.
Proof. intros i Hi. rewrite (pending_insert _ _ Hi). lia. Qed.

Lemma pending_zero (ready : list bool) :
  pending ready = O <->
  forall i, (i < length ready)%nat -> ready !! i = Some true.
Proof.
  induction ready as [| b ready IH]; simpl.
  - split; [intros _ i Hi; lia | reflexivity].
  - split.
    + intros H i Hi. destruct b; [| discriminate]. simpl in H.
      destruct i as [| i]; [reflexivity |]. simpl. apply IH; [assumption | lia].
    + intros H. pose proof (H O ltac:(lia)) as H0. simpl in H0.
      injection H0 as ->. simpl. apply IH. intros i Hi.
      apply (H (S i)). lia.
Qed.

Lemma pending_replicate (n : nat) : pending (replicate n false) = n.
Proof. induction n as [| n IH]; simpl; [reflexivity | now rewrite IH]. Qed.

(** ** Hard errors and sleeps in a trace *)

Lemma hardLast_app (r : outcome (option error)) (a b : list Event) :
  forallb soft a = true -> hardLast r b -> hardLast r (a ++ b).
Proof.
  induction a as [| e a IH]; intros Ha Hb; [assumption |].
  simpl in Ha. apply andb_true_iff in Ha as [He Ha]. simpl.
  split; [| now apply IH].
  destruct e as [| | i [[| msg] |] | | | | |]; simpl in He; try exact I;
    [now left | discriminate].
Qed.

Lemma hardLast_soft (r : outcome (option error)) (a : list Event) :
  forallb soft a = true -> hardLast r a.
Proof. intros Ha. rewrite <- (app_nil_r a). apply hardLast_app; [assumption | exact I]. Qed.

Lemma hardLast_split (r : outcome (option error)) (pre post : list Event)
  (i : nat) (e : error) :
  hardLast r (pre ++ EvProbe i (Some e) :: post) ->
  e <> ErrNotReady -> post = [] /\ r = Returned (Some e).
Proof.
  induction pre as [| x pre IH]; simpl.
  - intros [[H | H] _] Hne; [contradiction | assumption].
  - intros [_ H]. now apply IH.
Qed.

Lemma sleepVerify_app (pid : Z) (r : outcome (option error)) (a b : list Event) :
  forallb (fun e => negb (isSleep e)) a = true ->
  sleepVerify pid r b -> sleepVerify pid r (a ++ b).
Proof.
  induction a as [| e a IH]; intros Ha Hb; [assumption |].
  simpl in Ha. apply andb_true_iff in Ha as [He Ha]. simpl.
  split; [| now apply IH].
  destruct e; simpl in He; try exact I; discriminate.
Qed.

Lemma sleepVerify_split (pid : Z) (r : outcome (option error))
  (pre post : list Event) (d : Duration) :
  sleepVerify pid r (pre ++ EvSleep d :: post) ->
  d = pollInterval /\
  exists ok post', post = EvSignal (os_ops.pid_t pid) Signal0 ok :: post' /\
    (ok = false -> post' = [] /\ r = Returned (Some (errExited pid))).
Proof.
  induction pre as [| x pre IH]; simpl.
  - intros [H _]. exact H.
  - intros [_ H]. now apply IH.
Qed.

Lemma probes_soft_sleepless (a : list Event) :
  forallb isProbe a = true -> forallb (fun e => negb (isSleep e)) a = true.
Proof.
  intros H. apply forallb_forall. intros e He.
  rewrite forallb_forall in H. specialize (H e He). destruct e; simpl in *; congruence.
Qed.

Lemma sleepsPending_app (a b : list Event) :
  forall ready,
    sleepsPending ready (a ++ b) <->
    sleepsPending ready a /\ sleepsPending (marked ready a) b.
Proof.
  induction a as [| e a IH]; intros ready; simpl.
  - tauto.
  - change (marked ready (e :: a)) with (marked (mark ready e) a).
    rewrite IH. tauto.
Qed.

Lemma sleepsPending_sleepless (a : list Event) :
  forall ready,
    forallb (fun e => negb (isSleep e)) a = true -> sleepsPending ready a.
Proof.
  induction a as [| e a IH]; intros ready Ha; [exact I |].
  simpl in Ha. apply andb_true_iff in Ha as [He Ha]. simpl.
  split; [| now apply IH].
  destruct e; simpl in He; try exact I; discriminate.
Qed.

Lemma respects_probeless (a : list Event) :
  forall ready,
    forallb (fun e => negb (isProbe e)) a = true -> respects ready a.
Proof.
  induction a as [| e a IH]; intros ready Ha; [exact I |].
  simpl in Ha. apply andb_true_iff in Ha as [He Ha]. simpl.
  split; [| now apply IH].
  destruct e; simpl in He; try exact I; discriminate.
Qed.

(** ** The calls one at a time *)

Lemma probe_eq (i : nat) (c : Check) (ctx : Context) (w : World) :
  probe i c ctx w = (c ctx w, snd (log (EvProbe i (c ctx w)) w)).
Proof. reflexivity. Qed.

Lemma Signal0_eq (ps : Process) (w : World) :
  Pid ps <> -1 -> Pid ps <> 0 ->
  os_ops.Signal ps Signal0 w =
  (if os_ops.reachable (Pid ps) w then None else Some os_ops.errProcessDone,
   snd (log (EvSignal (os_ops.pid_t (Pid ps)) Signal0
              (os_ops.reachable (Pid ps) w)) w)).
Proof.
  intros H1 H0. unfold os_ops.Signal.
  apply Z.eqb_neq in H1, H0. rewrite H1, H0.
  rewrite bind_eq. simpl. rewrite bind_eq. simpl.
  destruct (os_ops.reachable (Pid ps) w); reflexivity.
Qed.

Lemma Sleep_eq (d : Duration) (w : World) :
  extends w (snd (time_ops.Sleep d w)) [EvSleep d].
Proof. reflexivity. Qed.

(** ** One pass over the checks *)

Lemma checkPass_cons (ctx : Context) (c : Check) (rest : list Check) (i : nat)
  (unready : Z) (ready : list bool) (w : World) :
  checkPass ctx (c :: rest) i unready ready w =
  match ready !! i with
  | None => (PassAbort errIndex, w)
  | Some true => checkPass ctx rest (S i) unready ready w
  | Some false =>
      match c ctx w with
      | None =>
          checkPass ctx rest (S i) (unready - 1) (<[i := true]> ready)
            (snd (log (EvProbe i None) w))
      | Some ErrNotReady =>
          checkPass ctx rest (S i) unready ready
            (snd (log (EvProbe i (Some ErrNotReady)) w))
      | Some (Error msg) =>
          (PassAbort (Error msg), snd (log (EvProbe i (Some (Error msg))) w))
      end
  end.
Proof.
  simpl. destruct (ready !! i) as [[|] |]; try reflexivity.
  rewrite bind_eq, probe_eq. cbn [fst snd].
  destruct (c ctx w) as [[| msg] |]; reflexivity.
Qed.

Lemma checkPass_spec (ctx : Context) (cs : list Check) :
  forall i unready ready w,
    length ready = (i + length cs)%nat ->
    unready = Z.of_nat (pending ready) ->
    exists added,
      extends w (snd (checkPass ctx cs i unready ready w)) added /\
      forallb isProbe added = true /\
      respects ready added /\
      match fst (checkPass ctx cs i unready ready w) with
      | PassDone unready' ready' =>
          ready' = marked ready added /\
          unready' = Z.of_nat (pending ready') /\
          forallb soft added = true
      | PassAbort e =>
          exists pre j, added = pre ++ [EvProbe j (Some e)] /\
                        forallb soft pre = true /\ e <> ErrNotReady
      end.
Proof.
  induction cs as [| c rest IH]; intros i unready ready w Hlen Hun.
  - exists []. simpl. repeat split; try assumption. apply extends_refl.
  - simpl in Hlen. rewrite checkPass_cons.
    destruct (ready !! i) as [b |] eqn:Hi;
      [| apply lookup_ge_None in Hi; lia].
    destruct b.
    + apply IH; [lia | assumption].
    + destruct (c ctx w) as [[| msg] |] eqn:Hc.
      * (* ErrNotReady *)
        set (e := EvProbe i (Some ErrNotReady)).
        set (w1 := snd (log e w)).
        destruct (IH (S i) unready ready w1 ltac:(lia) Hun)
          as (added & Hext & Hprobe & Hresp & Hres).
        exists (e :: added).
        split; [apply (extends_trans w w1 _ [e] added); [reflexivity | assumption] |].
        split; [exact Hprobe |].
        split; [split; [exact Hi | exact Hresp] |].
        destruct (fst (checkPass ctx rest (S i) unready ready w1)) as [u' r' | err].
        -- destruct Hres as (Hr & Hu & Hs). repeat split; assumption.
        -- destruct Hres as (pre & j & Hadd & Hs & Hne).
           exists (e :: pre), j.
           rewrite Hadd. repeat split; assumption.
      * (* a hard error *)
        exists [EvProbe i (Some (Error msg))]. cbn [fst snd].
        split; [reflexivity |]. split; [reflexivity |].
        split; [split; [exact Hi | exact I] |].
        exists [], i. repeat split. discriminate.
      * (* ready *)
        set (e := EvProbe i None).
        set (w1 := snd (log e w)).
        assert (Hun' : unready - 1 = Z.of_nat (pending (<[i := true]> ready))).
        { rewrite (pending_insert _ _ Hi) in Hun. lia. }
        destruct (IH (S i) (unready - 1) (<[i := true]> ready) w1
                    ltac:(rewrite length_insert; lia) Hun')
          as (added & Hext & Hprobe & Hresp & Hres).
        exists (e :: added).
        split; [apply (extends_trans w w1 _ [e] added); [reflexivity | assumption] |].
        split; [exact Hprobe |].
        split; [split; [exact Hi | exact Hresp] |].
        destruct (fst (checkPass ctx rest (S i) (unready - 1) (<[i := true]> ready) w1))
          as [u' r' | err].
        -- destruct Hres as (Hr & Hu & Hs). repeat split; assumption.
        -- destruct Hres as (pre & j & Hadd & Hs & Hne).
           exists (e :: pre), j.
           rewrite Hadd. repeat split; assumption.
Qed.

(** ** The wait-for-ready loop *)

(** One round: the context is asked first; the checks not yet satisfied are
    called; with none left the loop returns; otherwise it sleeps and then
    sends the zero signal, and goes on only if that signal was delivered. *)
Lemma checkLoop_round (rounds : nat) (cfg : config) (ctx : Context)
  (ps : Process) (unready : Z) (ready : list bool) (w : World) :
  checkLoop (S rounds) cfg ctx ps unready ready w =
  match ctx (clock w) with
  | Some e => (Returned (Some e), w)
  | None =>
      match checkPass ctx (checks cfg) 0 unready ready w with
      | (PassAbort e, w1) => (Returned (Some e), w1)
      | (PassDone unready' ready', w1) =>
          if unready' <? 1 then (Returned None, w1)
          else
            match os_ops.Signal ps Signal0 (snd (time_ops.Sleep pollInterval w1)) with
            | (Some _, w3) => (Returned (Some (errExited (Pid ps))), w3)
            | (None, w3) => checkLoop rounds cfg ctx ps unready' ready' w3
            end
      end
  end.
Proof.
  cbn [checkLoop]. rewrite bind_eq. cbn [time_ops.Now get fst snd].
  destruct (ctx (clock w)); [reflexivity |].
  rewrite bind_eq.
  destruct (checkPass ctx (checks cfg) 0 unready ready w) as [[u' r' | e] w1];
    cbn [fst snd]; [| reflexivity].
  destruct (u' <? 1); [reflexivity |].
  rewrite bind_eq, bind_eq.
  destruct (os_ops.Signal ps Signal0 (snd (time_ops.Sleep pollInterval w1)))
    as [[e |] w3]; reflexivity.
Qed.

Lemma checkLoop_spec (cfg : config) (ctx : Context) (ps : Process) :
  Pid ps <> -1 -> Pid ps <> 0 ->
  forall rounds unready ready w,
    length ready = length (checks cfg) ->
    unready = Z.of_nat (pending ready) ->
    exists added,
      extends w (snd (checkLoop rounds cfg ctx ps unready ready w)) added /\
      loopFacts (Pid ps) ready
        (fst (checkLoop rounds cfg ctx ps unready ready w)) added.
Proof.
  intros Hp1 Hp0.
  induction rounds as [| rounds IH]; intros unready ready w Hlen Hun.
  - exists []. split; [apply extends_refl |].
    repeat split; try exact I; try discriminate.
    intros _. cbn [marked fold_left].
    destruct (pending ready); [right; split; reflexivity | left; lia].
  - rewrite checkLoop_round.
    destruct (ctx (clock w)) as [e |].
    { exists []. split; [apply extends_refl |].
      repeat split; try exact I; try discriminate.
      intros _. cbn [marked fold_left].
      destruct (pending ready); [right; split; reflexivity | left; lia]. }
    destruct (checkPass_spec ctx (checks cfg) 0 unready ready w Hlen Hun)
      as (a & Hext & Hprobe & Hresp & Hres).
    destruct (checkPass ctx (checks cfg) 0 unready ready w)
      as [[u' r' | e] w1]; cbn [fst snd] in *.
    + destruct Hres as (Hr & Hu & Hs).
      destruct (u' <? 1) eqn:Hlt.
      * (* every check is satisfied *)
        exists a. split; [assumption |]. cbn [fst snd].
        repeat split; try assumption; try discriminate.
        -- intros _. rewrite <- Hr. apply Z.ltb_lt in Hlt. lia.
        -- now apply hardLast_soft.
        -- rewrite <- (app_nil_r a). apply sleepVerify_app;
             [now apply probes_soft_sleepless | exact I].
        -- apply sleepsPending_sleepless. now apply probes_soft_sleepless.
      * apply Z.ltb_ge in Hlt.
        set (w2 := snd (time_ops.Sleep pollInterval w1)).
        rewrite (Signal0_eq ps w2 Hp1 Hp0).
        set (ok := os_ops.reachable (Pid ps) w2).
        set (w3 := snd (log (EvSignal (os_ops.pid_t (Pid ps)) Signal0 ok) w2)).
        assert (Hext3 : extends w w3 (a ++ [EvSleep pollInterval; EvSignal (os_ops.pid_t (Pid ps)) Signal0 ok])).
        { apply (extends_trans w w1 w3); [assumption |].
          apply (extends_trans w1 w2 w3 [_] [_]); [apply Sleep_eq | reflexivity]. }
        assert (Hmid : marked ready (a ++ [EvSleep pollInterval; EvSignal (os_ops.pid_t (Pid ps)) Signal0 ok]) = r').
        { rewrite marked_app, <- Hr. reflexivity. }
        destruct ok eqn:Hok.
        -- (* the process is still there: next round *)
           destruct (IH u' r' w3 ltac:(rewrite Hr, marked_length; assumption) Hu)
             as (b & Hextb & Hrb & Hsb & Hfb & Hhb & Hvb & Hpb).
           exists ((a ++ [EvSleep pollInterval; EvSignal (os_ops.pid_t (Pid ps)) Signal0 true]) ++ b).
           split; [eapply extends_trans; eassumption |].
           set (r := fst (checkLoop rounds cfg ctx ps u' r' w3)) in *.
           split; [| split; [| split; [| split; [| split]]]].
           ++ apply respects_app. split.
              ** apply respects_app. split; [assumption | simpl; tauto].
              ** rewrite Hmid. assumption.
           ++ intros Hsucc. rewrite marked_app, Hmid. now apply Hsb.
           ++ intros Hfail. left. rewrite marked_app, Hmid.
              destruct (Hfb Hfail) as [H | [-> H]]; [assumption |].
              cbn [marked fold_left]. lia.
           ++ rewrite <- app_assoc. apply hardLast_app; [assumption |].
              simpl. tauto.
           ++ rewrite <- app_assoc. apply sleepVerify_app;
                [now apply probes_soft_sleepless |].
              simpl. split; [| split; [exact I | assumption]].
              split; [reflexivity |].
              exists true, b. split; [reflexivity | discriminate].
           ++ apply sleepsPending_app. split.
              ** apply sleepsPending_app. split;
                   [apply sleepsPending_sleepless; now apply probes_soft_sleepless |].
                 rewrite <- Hr. simpl. split; [lia | tauto].
              ** rewrite Hmid. assumption.
        -- (* the process is gone *)
           exists (a ++ [EvSleep pollInterval; EvSignal (os_ops.pid_t (Pid ps)) Signal0 false]).
           split; [assumption |]. cbn [fst snd].
           split; [| split; [| split; [| split; [| split]]]].
           ++ apply respects_app. split; [assumption | simpl; tauto].
           ++ discriminate.
           ++ intros _. left. rewrite Hmid. lia.
           ++ apply hardLast_app; [assumption | simpl; tauto].
           ++ apply sleepVerify_app; [now apply probes_soft_sleepless |].
              simpl. split; [| tauto].
              split; [reflexivity |].
              exists false, []. split; [reflexivity |]. intros _. split; reflexivity.
           ++ apply sleepsPending_app. split;
                [apply sleepsPending_sleepless; now apply probes_soft_sleepless |].
              rewrite <- Hr. simpl. split; [lia | tauto].
    + (* a check answered a hard error *)
      destruct Hres as (pre & j & Hadd & Hs & Hne).
      exists a. split; [assumption |]. cbn [fst snd].
      split; [assumption |]. split; [discriminate |].
      split; [| split; [| split]].
      * intros _. left. subst a.
        apply respects_app in Hresp as [_ [Hj _]].
        rewrite marked_app. cbn [marked fold_left mark].
        eapply pending_pos. exact Hj.
      * subst a. apply hardLast_app; [assumption |].
        simpl. split; [right; split; reflexivity | exact I].
      * rewrite <- (app_nil_r a). apply sleepVerify_app;
          [now apply probes_soft_sleepless | exact I].
      * apply sleepsPending_sleepless. now apply probes_soft_sleepless.
Qed.

(** ** Resolving the recorded identity *)

Lemma getSysinfo_fst (w : World) :
  fst (getSysinfo w) =
  match sysinfoOnce w with
  | Some r => r
  | None => os_sysinfo (os w) (clock w)
  end.
Proof. unfold getSysinfo. rewrite bind_eq. simpl. destruct (sysinfoOnce w); reflexivity. Qed.

Lemma getSysinfo_clock (w : World) : clock (snd (getSysinfo w)) = clock w.
Proof. unfold getSysinfo. rewrite bind_eq. simpl. destruct (sysinfoOnce w); reflexivity. Qed.

(** The first call stores the answer; later calls return it without asking
    the system again. *)
Lemma getSysinfo_cached (w : World) :
  getSysinfo (snd (getSysinfo w)) = (fst (getSysinfo w), snd (getSysinfo w)).
Proof. unfold getSysinfo. rewrite !bind_eq. simpl. destruct (sysinfoOnce w) eqn:E; simpl; [rewrite E |]; reflexivity. Qed.

Lemma getSysinfo_trace (w : World) :
  extends w (snd (getSysinfo w))
    (match sysinfoOnce w with Some _ => [] | None => [EvSysinfo] end).
Proof.
  unfold getSysinfo. rewrite bind_eq. simpl.
  destruct (sysinfoOnce w); [apply extends_refl | reflexivity].
Qed.

Lemma getProcessByPID_eq (cfg : config) (pid : Z) (start : Time) (w : World) :
  getProcessByPID cfg pid start w =
  if match fst (getSysinfo w) with
     | inr uptime => olderThanBoot (time.Sub (clock w) start) uptime
     | inl _ => false
     end
  then (None, snd (getSysinfo w))
  else
    match os_ops.Signal (mkProcess pid) Signal0 (snd (getSysinfo w)) with
    | (Some _, w') => (None, w')
    | (None, w') => (Some (mkProcess pid), w')
    end.
Proof.
  unfold getProcessByPID. rewrite bind_eq.
  unfold time_ops.Since, time_ops.Now. rewrite !bind_eq. cbn [get ret fst snd].
  rewrite getSysinfo_clock.
  destruct (match fst (getSysinfo w) with
            | inr uptime => olderThanBoot (time.Sub (clock w) start) uptime
            | inl _ => false
            end); [reflexivity |].
  cbn [os_ops.FindProcess]. rewrite bind_eq.
  destruct (os_ops.Signal (mkProcess pid) Signal0 (snd (getSysinfo w))) as [[e |] w'];
    reflexivity.
Qed.

Lemma getProcessByPID_Some (cfg : config) (pid : Z) (start : Time)
  (w w' : World) (ps : Process) :
  getProcessByPID cfg pid start w = (Some ps, w') -> ps = mkProcess pid.
Proof.
  rewrite getProcessByPID_eq.
  destruct (match fst (getSysinfo w) with
            | inr uptime => olderThanBoot (time.Sub (clock w) start) uptime
            | inl _ => false
            end); [discriminate |].
  destruct (os_ops.Signal (mkProcess pid) Signal0 (snd (getSysinfo w))) as [[e |] w''];
    [discriminate |].
  intros H. injection H as <- _. reflexivity.
Qed.

Lemma getProcess_eq (cfg : config) (w : World) :
  getProcess cfg w =
  if fst (fst (getPIDFile cfg w)) <? 2 then (None, w)
  else getProcessByPID cfg (fst (fst (getPIDFile cfg w)))
         (snd (fst (getPIDFile cfg w))) w.
Proof.
  unfold getProcess. rewrite bind_eq, getPIDFile_pure.
  destruct (fst (getPIDFile cfg w)) as [pid mtime]. cbn [fst snd].
  destruct (pid <? 2); reflexivity.
Qed.

Lemma getProcess_Some (cfg : config) (w w' : World) (ps : Process) :
  getProcess cfg w = (Some ps, w') ->
  Pid ps = fst (fst (getPIDFile cfg w)) /\ 2 <= Pid ps.
Proof.
  rewrite getProcess_eq.
  destruct (fst (fst (getPIDFile cfg w)) <? 2) eqn:Hlt; [discriminate |].
  intros H. apply getProcessByPID_Some in H. subst ps. cbn [Pid].
  apply Z.ltb_ge in Hlt. split; [reflexivity | assumption].
Qed.

Lemma resolving_traits (a : list Event) :
  forallb resolving a = true ->
  forallb (fun e => negb (isProbe e)) a = true /\
  forallb (fun e => negb (isSleep e)) a = true /\
  forallb soft a = true.
Proof.
  intros H. rewrite forallb_forall in H.
  repeat split; apply forallb_forall; intros e He; specialize (H e He);
    destruct e as [| pid [|] ok | | | | | |]; simpl in *; congruence.
Qed.

(** ** A whole call of [check] *)

Lemma check_facts (rounds : nat) (cfg : config) (ctx : Context) (w : World) :
  exists added,
    extends w (snd (check rounds cfg ctx w)) added /\
    checkFacts (length (checks cfg)) (fst (fst (getPIDFile cfg w)))
      (fst (check rounds cfg ctx w)) added.
Proof.
  unfold check. rewrite bind_eq.
  destruct (observer_getProcess cfg w) as [_ _ _ _ (a & Hexta & Ha) _ _].
  destruct (resolving_traits a Ha) as (Hnp & Hns & Hsoft).
  set (n := length (checks cfg)).
  assert (Hma : marked (replicate n false) a = replicate n false)
    by now apply marked_other.
  destruct (getProcess cfg w) as [[ps |] w1] eqn:Hgp; cbn [fst snd] in *.
  - destruct (getProcess_Some _ _ _ _ Hgp) as [Hpid Hge].
    destruct (checkLoop_spec cfg ctx ps ltac:(lia) ltac:(lia) rounds
                (Z.of_nat n) (replicate n false) w1
                ltac:(apply length_replicate)
                ltac:(now rewrite pending_replicate))
      as (b & Hextb & Hr & Hs & Hf & Hh & Hv & Hp).
    rewrite <- Hpid.
    exists (a ++ b). split; [eapply extends_trans; eassumption |].
    set (r := fst (checkLoop rounds cfg ctx ps (Z.of_nat n) (replicate n false) w1)) in *.
    split; [| split; [| split; [| split; [| split]]]].
    + apply respects_app. split; [now apply respects_probeless | now rewrite Hma].
    + intros H. rewrite marked_app, Hma. now apply Hs.
    + intros H. rewrite marked_app, Hma.
      destruct (Hf H) as [H1 | [_ H1]]; [now right | left].
      now rewrite pending_replicate in H1.
    + now apply hardLast_app.
    + now apply sleepVerify_app.
    + apply sleepsPending_app. split;
        [now apply sleepsPending_sleepless | now rewrite Hma].
  - exists a. split; [assumption |].
    split; [| split; [| split; [| split; [| split]]]].
    + now apply respects_probeless.
    + discriminate.
    + intros _. rewrite Hma, pending_replicate. lia.
    + now apply hardLast_soft.
    + rewrite <- (app_nil_r a). now apply sleepVerify_app.
    + now apply sleepsPending_sleepless.
Qed.

(** * The claims *)

(** ** Status and the pid file *)

(** C7.  However often [Status] is called, and whether or not a call is
    still polling when its rounds are used up, the pid file afterwards is the
    pid file before, and every call made to the system was one that only
    looks (the uptime query, a zero signal, a readiness check, a sleep):
    nothing was written, removed, started or killed. *)
Theorem Status_never_changes_pidfile :
  forall (n rounds : nat) (cfg : config) (ctx : Context) (w : World),
    pidfile (snd (statusTimes n rounds cfg ctx w)) = pidfile w /\
    exists added,
      extends w (snd (statusTimes n rounds cfg ctx w)) added /\
      forallb passive added = true.
Proof.
  intros n rounds cfg ctx w.
  destruct (observer_statusTimes n rounds cfg ctx w) as [Hf _ _ _ Ht _ _].
  split; assumption.
Qed.

(** ** Seconds as [float64]

    What is needed of IEEE 754 to read the test of the resolver: an integer
    below [2^53] converts exactly, a quotient of numbers that are not
    negative is not negative, and a sum with a number that is not negative
    does not round below the other summand. *)

(** *** Binary digits *)





(** *** Shifting right *)








(** *** Floats in normal form *)





(** *** Rounding a sum *)




(** *** Dividing *)







(** ** The reboot test *)

Lemma reachable_getSysinfo (pid : Z) (w : World) :
  os_ops.reachable pid (snd (getSysinfo w)) = os_ops.reachable pid w.
Proof.
  unfold os_ops.reachable.
  destruct (observer_getSysinfo w) as [_ _ _ Ho _ Hr _].
  now rewrite Hr, Ho, getSysinfo_clock.
Qed.

Lemma running_eq (cfg : config) (w : World) :
  running cfg w =
  (match fst (getProcess cfg w) with Some _ => true | None => false end,
   snd (getProcess cfg w)).
Proof. unfold running. rewrite bind_eq. reflexivity. Qed.




(** C10.  When the uptime query fails, the age of the record plays no
    part: for every recorded time the resolver returns the process exactly
    when the zero signal to the pid is delivered, and [running] answers the
    same.  The result carries no error: it is the same whichever error the
    query failed with. *)
Theorem getProcessByPID_without_uptime :
  forall (cfg : config) (w : World) (pid : Z) (started : Time) (e : error),
    fst (getPIDFile cfg w) = (pid, started) ->
    2 <= pid ->
    fst (getSysinfo w) = inl e ->
    fst (getProcessByPID cfg pid started w) =
      (if os_ops.reachable pid w then Some (mkProcess pid) else None) /\
    fst (running cfg w) = os_ops.reachable pid w.
Proof.
  intros cfg w pid started e Hfile Hpid Hsys.
  assert (Heq : fst (getProcessByPID cfg pid started w) =
                if os_ops.reachable pid w then Some (mkProcess pid) else None).
  { rewrite getProcessByPID_eq, Hsys.
    rewrite Signal0_eq by (cbn [Pid]; lia). cbn [Pid].
    rewrite reachable_getSysinfo.
    destruct (os_ops.reachable pid w); reflexivity. }
  split; [assumption |].
  rewrite running_eq, getProcess_eq, Hfile. cbn [fst snd].
  apply Z.ltb_ge in Hpid. rewrite Hpid, Heq.
  destruct (os_ops.reachable pid w); reflexivity.
Qed.

(** ** start on a running service *)

(** X7.  When the recorded identity resolves to a live process at the time
    of the call, [start] is the wait-for-ready loop and nothing else: it
    returns what [check] returns, it launches nothing, and it leaves the pid
    file as it is. *)
Theorem start_while_running_only_waits :
  forall (rounds : nat) (cfg : config) (ctx : Context) (w : World),
    fst (running cfg w) = true ->
    let w' := snd (start rounds cfg ctx w) in
    start rounds cfg ctx w = check rounds cfg ctx (snd (running cfg w)) /\
    children w' = children w /\
    pidfile w' = pidfile w /\
    exists added, extends w w' added /\ forallb passive added = true.
Proof.
  intros rounds cfg ctx w Hrun w'.
  assert (Heq : start rounds cfg ctx w = check rounds cfg ctx (snd (running cfg w))).
  { unfold start. rewrite bind_eq, Hrun. reflexivity. }
  split; [assumption |].
  assert (Hq : quiet passive w w').
  { subst w'. rewrite Heq.
    eapply quiet_trans.
    - apply quiet_weaken with (p := resolving); [apply resolving_passive |].
      apply observer_running.
    - apply observer_check. }
  destruct Hq as [Hf _ Hc _ Ht _ _]. repeat split; assumption.
Qed.

(** ** The wait-for-ready loop, read off the trace *)

Lemma pending_pos_inv (ready : list bool) :
  (0 < pending ready)%nat -> exists i, ready !! i = Some false.
Proof.
  induction ready as [| b ready IH]; simpl; [lia |].
  destruct b; simpl.
  - intros H. destruct (IH H) as [i Hi]. now exists (S i).
  - intros _. now exists O.
Qed.

Lemma lookup_replicate_false (n i : nat) :
  replicate n false !! i <> Some true.
Proof.
  intros H. apply lookup_replicate in H as [H _]. discriminate.
Qed.

Lemma respects_split (ready : list bool) (pre post : list Event) (i : nat) :
  respects ready (pre ++ EvProbe i None :: post) ->
  forall res, ~ In (EvProbe i res) post.
Proof.
  intros H. apply respects_app in H as [_ [Hi Hpost]].
  cbn [mark] in Hpost.
  eapply respects_skips; [| exact Hpost].
  apply list_lookup_insert_eq. eapply lookup_lt_Some; eassumption.
Qed.

(** C9, as amended.  In one call of [check]: a check that has answered
    [nil] is not called again; when [check] returns success every
    configured check has answered [nil] once; with at least one check
    configured the converse holds too, so success is returned exactly when
    all of them have; and a check that answers an error other than
    [ErrNotReady] is the last call made, and [check] returns that error. *)
Theorem check_remembers_satisfied_probes :
  forall (rounds : nat) (cfg : config) (ctx : Context) (w : World)
         (added : list Event),
    extends w (snd (check rounds cfg ctx w)) added ->
    let r := fst (check rounds cfg ctx w) in
    (forall pre i post,
        added = pre ++ EvProbe i None :: post ->
        forall res, ~ In (EvProbe i res) post) /\
    (r = Returned None ->
     forall i, (i < length (checks cfg))%nat -> In (EvProbe i None) added) /\
    ((0 < length (checks cfg))%nat ->
     (forall i, (i < length (checks cfg))%nat -> In (EvProbe i None) added) ->
     r = Returned None) /\
    (forall pre i e post,
        added = pre ++ EvProbe i (Some e) :: post ->
        e <> ErrNotReady ->
        post = [] /\ r = Returned (Some e)).
Proof.
  intros rounds cfg ctx w added Hext r.
  destruct (check_facts rounds cfg ctx w) as (a & Ha & Hresp & Hs & Hf & Hh & _ & _).
  fold r in Hs, Hf, Hh.
  assert (a = added) by (eapply extends_inj; eassumption). subst a.
  set (n := length (checks cfg)) in *.
  split; [| split; [| split]].
  - intros pre i post ->. eapply respects_split. exact Hresp.
  - intros Hr i Hi. rewrite Hr in Hs.
    pose proof (Hs eq_refl) as H0.
    apply pending_zero with (i := i) in H0;
      [| now rewrite marked_length, length_replicate].
    apply marked_true_inv in H0 as [H0 | H0]; [| assumption].
    now apply lookup_replicate_false in H0.
  - intros Hn Hall.
    destruct (succeeded r) eqn:Hsucc.
    + destruct r as [[e |] |]; try discriminate. reflexivity.
    + exfalso. destruct (Hf eq_refl) as [H0 | H0]; [lia |].
      apply pending_pos_inv in H0 as [i Hi].
      assert (Hlt : (i < n)%nat).
      { apply lookup_lt_Some in Hi. now rewrite marked_length, length_replicate in Hi. }
      rewrite (marked_success added i (replicate n false)) in Hi;
        [discriminate | now rewrite length_replicate | now apply Hall].
  - intros pre i e post -> Hne. eapply hardLast_split; eassumption.
Qed.

(** ** What follows a check *)

Lemma climbing_weaken (evs : list Event) (lo lo' : nat) :
  (lo' <= lo)%nat -> climbing lo evs -> climbing lo' evs.
Proof.
  destruct evs as [| [| | j res | | | | |] rest]; simpl; try tauto.
  intros Hle [Hj Hrest]. split; [lia | assumption].
Qed.

Lemma checkPass_climbing (ctx : Context) (cs : list Check) :
  forall i unready ready w,
    exists added,
      extends w (snd (checkPass ctx cs i unready ready w)) added /\
      climbing i added.
Proof.
  induction cs as [| c rest IH]; intros i unready ready w.
  - exists []. split; [apply extends_refl | exact I].
  - rewrite checkPass_cons.
    destruct (ready !! i) as [[|] |].
    + destruct (IH (S i) unready ready w) as (a & Ha & Hc).
      exists a. split; [assumption |]. apply climbing_weaken with (lo := S i); [lia | assumption].
    + destruct (c ctx w) as [[| msg] |].
      * destruct (IH (S i) unready ready (snd (log (EvProbe i (Some ErrNotReady)) w)))
          as (a & Ha & Hc).
        exists (EvProbe i (Some ErrNotReady) :: a).
        split; [apply (extends_trans w (snd (log (EvProbe i (Some ErrNotReady)) w))
                         _ [EvProbe i (Some ErrNotReady)] a);
                [reflexivity | assumption] |].
        split; [lia | assumption].
      * exists [EvProbe i (Some (Error msg))].
        split; [reflexivity |]. split; [lia | exact I].
      * destruct (IH (S i) (unready - 1) (<[i := true]> ready)
                    (snd (log (EvProbe i None) w))) as (a & Ha & Hc).
        exists (EvProbe i None :: a).
        split; [apply (extends_trans w (snd (log (EvProbe i None) w))
                         _ [EvProbe i None] a);
                [reflexivity | assumption] |].
        split; [lia | assumption].
    + exists []. split; [apply extends_refl | exact I].
Qed.

(** In one round, what comes after a check is a check with a higher index,
    or the round is over. *)
Lemma climbing_next (pre : list Event) :
  forall lo a i res post,
    climbing lo a -> a = pre ++ EvProbe i res :: post ->
    match post with
    | [] => True
    | EvProbe j _ :: _ => (i < j)%nat
    | _ => False
    end.
Proof.
  induction pre as [| x pre IH]; intros lo a i res post Hc ->; simpl in Hc.
  - destruct Hc as [_ Hc].
    destruct post as [| [| | j r | | | | |] post]; simpl in Hc; solve [tauto | lia].
  - destruct x as [| | j r | | | | |]; try contradiction.
    destruct Hc as [_ Hc]. eapply IH; [exact Hc | reflexivity].
Qed.

Lemma roundsClosed_nil (pid : Z) (r : outcome (option error)) :
  roundsClosed pid r [].
Proof. intros pre i res post H. now apply app_cons_not_nil in H. Qed.

Lemma roundsClosed_cons (pid : Z) (r : outcome (option error)) (e : Event)
  (b : list Event) :
  isProbe e = false -> roundsClosed pid r b -> roundsClosed pid r (e :: b).
Proof.
  intros He Hb pre i res post Heq Hsoft.
  destruct pre as [| x pre]; cbn [app] in Heq.
  - injection Heq as -> _. discriminate.
  - injection Heq as _ Heq. now apply (Hb pre i res post).
Qed.

Lemma roundsClosed_skip (pid : Z) (r : outcome (option error)) (a b : list Event) :
  forallb (fun e => negb (isProbe e)) a = true ->
  roundsClosed pid r b -> roundsClosed pid r (a ++ b).
Proof.
  induction a as [| e a IH]; intros Ha Hb; [assumption |].
  simpl in Ha. apply andb_true_iff in Ha as [He Ha].
  cbn [app]. apply roundsClosed_cons; [now apply negb_true_iff | now apply IH].
Qed.

(** The calls of one round, followed by what comes after the round. *)
Lemma roundsClosed_round (pid : Z) (r : outcome (option error)) (lo : nat)
  (a c : list Event) :
  climbing lo a ->
  (forall i, afterCheck pid r i c) ->
  roundsClosed pid r c ->
  roundsClosed pid r (a ++ c).
Proof.
  intros Ha Hc Hclosed pre i res post Heq Hsoft.
  apply app_eq_app in Heq as [l [[Hl Hr] | [Hl Hr]]].
  - destruct l as [| y l]; cbn [app] in Hr.
    + rewrite app_nil_r in Hl. subst pre.
      now apply (Hclosed [] i res post).
    + injection Hr as <- ->.
      pose proof (climbing_next pre lo a i res l Ha Hl) as Hnext.
      destruct l as [| [| | j r' | | | | |] l]; cbn [app]; try contradiction.
      * apply Hc.
      * exact Hnext.
  - now apply (Hclosed l i res post).
Qed.

Lemma checkLoop_closed (cfg : config) (ctx : Context) (ps : Process) :
  Pid ps <> -1 -> Pid ps <> 0 ->
  forall rounds unready ready w,
    length ready = length (checks cfg) ->
    unready = Z.of_nat (pending ready) ->
    exists added,
      extends w (snd (checkLoop rounds cfg ctx ps unready ready w)) added /\
      roundsClosed (Pid ps) (fst (checkLoop rounds cfg ctx ps unready ready w)) added.
Proof.
  intros Hp1 Hp0.
  induction rounds as [| rounds IH]; intros unready ready w Hlen Hun.
  - exists []. split; [apply extends_refl | apply roundsClosed_nil].
  - rewrite checkLoop_round.
    destruct (ctx (clock w)) as [e |].
    { exists []. split; [apply extends_refl | apply roundsClosed_nil]. }
    destruct (checkPass_spec ctx (checks cfg) 0 unready ready w Hlen Hun)
      as (a & Hext & _ & _ & Hres).
    destruct (checkPass_climbing ctx (checks cfg) 0 unready ready w)
      as (a' & Hext' & Hclimb).
    assert (a' = a) by (eapply extends_inj; eassumption). subst a'. clear Hext'.
    destruct (checkPass ctx (checks cfg) 0 unready ready w)
      as [[u' r' | e] w1]; cbn [fst snd] in *.
    + destruct Hres as (Hr & Hu & Hs).
      destruct (u' <? 1).
      * (* every check is satisfied *)
        exists a. split; [assumption |]. cbn [fst].
        rewrite <- (app_nil_r a).
        eapply roundsClosed_round; [exact Hclimb | | apply roundsClosed_nil].
        intros i. reflexivity.
      * set (w2 := snd (time_ops.Sleep pollInterval w1)).
        rewrite (Signal0_eq ps w2 Hp1 Hp0).
        set (ok := os_ops.reachable (Pid ps) w2).
        set (w3 := snd (log (EvSignal (os_ops.pid_t (Pid ps)) Signal0 ok) w2)).
        assert (Hext3 : extends w w3
                          (a ++ [EvSleep pollInterval;
                                 EvSignal (os_ops.pid_t (Pid ps)) Signal0 ok])).
        { apply (extends_trans w w1 w3); [assumption |].
          apply (extends_trans w1 w2 w3 [_] [_]); [apply Sleep_eq | reflexivity]. }
        destruct ok eqn:Hok.
        -- (* the process is still there: next round *)
           destruct (IH u' r' w3 ltac:(rewrite Hr, marked_length; assumption) Hu)
             as (b & Hextb & Hb).
           exists (a ++ EvSleep pollInterval
                        :: EvSignal (os_ops.pid_t (Pid ps)) Signal0 true :: b).
           split.
           ++ replace (a ++ EvSleep pollInterval
                         :: EvSignal (os_ops.pid_t (Pid ps)) Signal0 true :: b)
                with ((a ++ [EvSleep pollInterval;
                             EvSignal (os_ops.pid_t (Pid ps)) Signal0 true]) ++ b)
                by (rewrite <- app_assoc; reflexivity).
              eapply extends_trans; eassumption.
           ++ eapply roundsClosed_round; [exact Hclimb | |].
              ** intros i. split; [reflexivity |].
                 exists true, b. split; [reflexivity | discriminate].
              ** apply roundsClosed_cons; [reflexivity |].
                 apply roundsClosed_cons; [reflexivity | exact Hb].
        -- (* the process is gone *)
           exists (a ++ [EvSleep pollInterval;
                         EvSignal (os_ops.pid_t (Pid ps)) Signal0 false]).
           split; [assumption |]. cbn [fst].
           eapply roundsClosed_round; [exact Hclimb | |].
           ++ intros i. split; [reflexivity |].
              exists false, []. split; [reflexivity |]. intros _. split; reflexivity.
           ++ apply roundsClosed_cons; [reflexivity |].
              apply roundsClosed_cons; [reflexivity | apply roundsClosed_nil].
    + (* a check answered a hard error *)
      destruct Hres as (pre0 & j & Hadd & _ & Hne).
      exists a. split; [assumption |]. cbn [fst].
      intros pre i res post Heq Hsoft.
      pose proof (climbing_next pre 0%nat a i res post Hclimb Heq) as Hnext.
      destruct post as [| [| | j' r'' | | | | |] post]; try contradiction.
      * exfalso. rewrite Hadd in Heq.
        change (pre ++ [EvProbe i res]) with (pre ++ [EvProbe i res]) in Heq.
        apply app_inj_tail in Heq as [_ Heq]. injection Heq as <- <-.
        destruct e as [| msg]; [now apply Hne | discriminate Hsoft].
      * exact Hnext.
Qed.

Lemma check_closed (rounds : nat) (cfg : config) (ctx : Context) (w : World) :
  exists added,
    extends w (snd (check rounds cfg ctx w)) added /\
    roundsClosed (fst (fst (getPIDFile cfg w))) (fst (check rounds cfg ctx w)) added.
Proof.
  unfold check. rewrite bind_eq.
  destruct (observer_getProcess cfg w) as [_ _ _ _ (a & Hexta & Ha) _ _].
  destruct (resolving_traits a Ha) as (Hnp & _ & _).
  destruct (getProcess cfg w) as [[ps |] w1] eqn:Hgp; cbn [fst snd] in *.
  - destruct (getProcess_Some _ _ _ _ Hgp) as [Hpid Hge].
    destruct (checkLoop_closed cfg ctx ps ltac:(lia) ltac:(lia) rounds
                (Z.of_nat (length (checks cfg)))
                (replicate (length (checks cfg)) false) w1
                ltac:(apply length_replicate)
                ltac:(now rewrite pending_replicate))
      as (b & Hextb & Hb).
    rewrite <- Hpid.
    exists (a ++ b). split; [eapply extends_trans; eassumption |].
    now apply roundsClosed_skip.
  - exists a. split; [assumption |].
    rewrite <- (app_nil_r a). apply roundsClosed_skip; [assumption | apply roundsClosed_nil].
Qed.

(** C5, as amended.  In one call of [check]: when the answer of a check did
    not end the loop, every check after it is already satisfied and some
    check is not, the round is over with checks unsatisfied, and the very
    next calls are the sleep of the poll interval and then the zero signal
    for the recorded pid; so the liveness check comes after the sleep and
    before the next round.  Conversely every sleep lasts the poll interval,
    is made only while some check has not yet answered [nil], and is
    followed at once by that zero signal.  When the signal is not delivered
    it is the last call, and [check] returns the error that names the
    pid. *)
Theorem check_verifies_after_sleeping :
  forall (rounds : nat) (cfg : config) (ctx : Context) (w : World)
         (added : list Event),
    extends w (snd (check rounds cfg ctx w)) added ->
    let r := fst (check rounds cfg ctx w) in
    let pid := fst (fst (getPIDFile cfg w)) in
    let n := length (checks cfg) in
    (forall pre i res post,
        added = pre ++ EvProbe i res :: post ->
        soft (EvProbe i res) = true ->
        (forall j, (i < j < n)%nat -> In (EvProbe j None) pre) ->
        (exists k, (k < n)%nat /\ ~ In (EvProbe k None) (pre ++ [EvProbe i res])) ->
        exists ok post',
          post = EvSleep pollInterval
                   :: EvSignal (os_ops.pid_t pid) Signal0 ok :: post' /\
          (ok = false -> post' = [] /\ r = Returned (Some (errExited pid)))) /\
    (forall pre d post,
        added = pre ++ EvSleep d :: post ->
        d = pollInterval /\
        (exists i, (i < n)%nat /\ ~ In (EvProbe i None) pre) /\
        exists ok post',
          post = EvSignal (os_ops.pid_t pid) Signal0 ok :: post' /\
          (ok = false -> post' = [] /\ r = Returned (Some (errExited pid)))).
Proof.
  intros rounds cfg ctx w added Hext r pid n.
  destruct (check_facts rounds cfg ctx w) as (a & Ha & Hresp & Hsucc & _ & _ & Hv & Hp).
  fold r pid n in Hresp, Hsucc, Hv, Hp.
  assert (a = added) by (eapply extends_inj; eassumption). subst a. clear Ha.
  destruct (check_closed rounds cfg ctx w) as (a & Ha & Hclosed).
  fold r pid in Hclosed.
  assert (a = added) by (eapply extends_inj; eassumption). subst a. clear Ha.
  split.
  - intros pre i res post Heq Hsoft Hlater (k & Hk & Hnot).
    pose proof (Hclosed pre i res post Heq Hsoft) as Hafter.
    destruct post as [| e post1].
    + (* nothing follows: the loop has returned success *)
      exfalso. cbn [afterCheck] in Hafter.
      rewrite Hafter in Hsucc. pose proof (Hsucc eq_refl) as H0.
      apply pending_zero with (i := k) in H0;
        [| now rewrite marked_length, length_replicate].
      apply marked_true_inv in H0 as [H0 | H0];
        [now apply lookup_replicate_false in H0 |].
      apply Hnot. now rewrite Heq in H0.
    + destruct e as [| | j res' | d | | | |]; cbn [afterCheck] in Hafter;
        try (destruct Hafter as [Hd _]; discriminate Hd).
      * (* a check with a higher index: it is satisfied already *)
        exfalso. rewrite Heq in Hresp.
        change (pre ++ EvProbe i res :: EvProbe j res' :: post1)
          with (pre ++ [EvProbe i res] ++ EvProbe j res' :: post1) in Hresp.
        rewrite app_assoc in Hresp.
        apply respects_app in Hresp as [_ [Hj _]].
        assert (Hjn : (j < n)%nat).
        { apply lookup_lt_Some in Hj.
          now rewrite marked_length, length_replicate in Hj. }
        rewrite (marked_success (pre ++ [EvProbe i res]) j (replicate n false)) in Hj;
          [discriminate | now rewrite length_replicate |].
        apply in_or_app. left. apply Hlater. lia.
      * destruct Hafter as [Hd (ok & post' & -> & Hok)]. injection Hd as ->.
        exists ok, post'. split; [reflexivity | assumption].
  - intros pre d post Heq. rewrite Heq in Hv, Hp.
    destruct (sleepVerify_split _ _ _ _ _ Hv) as [Hd Hsig].
    split; [assumption |]. split; [| assumption].
    apply sleepsPending_app in Hp as [_ [Hpos _]].
    apply pending_pos_inv in Hpos as [i Hi].
    assert (Hlt : (i < n)%nat).
    { apply lookup_lt_Some in Hi. now rewrite marked_length, length_replicate in Hi. }
    exists i. split; [assumption |].
    intros Hin.
    rewrite (marked_success pre i (replicate n false)) in Hi;
      [discriminate | now rewrite length_replicate | assumption].
Qed.

(** ** Status *)

Lemma Status_eq (rounds : nat) (cfg : config) (ctx : Context) (w : World) :
  let pid := fst (fst (getPIDFile cfg w)) in
  let started := snd (fst (getPIDFile cfg w)) in
  Status rounds cfg ctx w =
  if pid =? 0 then (Returned (mkStatus (name cfg) pid started false false), w)
  else
    match getProcessByPID cfg pid started w with
    | (None, w1) => (Returned (mkStatus (name cfg) pid started false false), w1)
    | (Some _, w1) =>
        match check rounds cfg ctx w1 with
        | (Polling, w2) => (Polling, w2)
        | (Returned (Some _), w2) =>
            (Returned (mkStatus (name cfg) pid started true false), w2)
        | (Returned None, w2) =>
            (Returned (mkStatus (name cfg) pid started true true), w2)
        end
    end.
Proof.
  cbv zeta. unfold Status. rewrite bind_eq, getPIDFile_pure.
  destruct (fst (getPIDFile cfg w)) as [pid started]. cbn [fst snd].
  destruct (pid =? 0); [reflexivity |].
  rewrite bind_eq.
  destruct (getProcessByPID cfg pid started w) as [[ps |] w1]; cbn [fst snd];
    [| reflexivity].
  rewrite bind_eq.
  destruct (check rounds cfg ctx w1) as [[[e |] |] w2]; reflexivity.
Qed.

(** The report is coherent: ready only if running, running only with a
    pid other than 0. *)
Lemma Status_coherent (rounds : nat) (cfg : config) (ctx : Context)
  (w : World) (st : StatusT) :
  fst (Status rounds cfg ctx w) = Returned st ->
  (Ready st = true -> Running st = true) /\
  (Running st = true -> PID st <> 0).
Proof.
  pose proof (Status_eq rounds cfg ctx w) as Heq. cbv zeta in Heq.
  rewrite Heq. clear Heq.
  destruct (fst (fst (getPIDFile cfg w)) =? 0) eqn:Hz.
  - intros [= <-]. split; discriminate.
  - apply Z.eqb_neq in Hz.
    destruct (getProcessByPID cfg _ _ w) as [[ps |] w1].
    + destruct (check rounds cfg ctx w1) as [[[e |] |] w2]; cbn [fst];
        intros H; try discriminate; injection H as <-;
        split; intros _; try reflexivity; exact Hz.
    + intros [= <-]. split; discriminate.
Qed.

Lemma getPIDFile_fst_file (cfg : config) (w w' : World) :
  pidfile w' = pidfile w -> fst (getPIDFile cfg w') = fst (getPIDFile cfg w).
Proof.
  intros H. unfold getPIDFile. rewrite !bind_eq. cbn [get fst snd]. rewrite H.
  destruct (pidfile w) as [| | | mtime | mtime data]; try reflexivity.
  destruct (strconv.Atoi data); reflexivity.
Qed.


(** ** start, branch by branch *)

Lemma start_eq (rounds : nat) (cfg : config) (ctx : Context) (w : World) :
  start rounds cfg ctx w =
  if fst (running cfg w) then check rounds cfg ctx (snd (running cfg w))
  else
    match fst (os_ops.Start ctx (launchWorld cfg w)) with
    | inl e => (Returned (Some e), snd (os_ops.Start ctx (launchWorld cfg w)))
    | inr proc =>
        match os_ops.WriteFile (strconv.Itoa (Pid proc)) (recordWorld cfg ctx w) with
        | (Some e, w2) => (Returned (Some e), snd (kill cfg proc w2))
        | (None, w2) =>
            match os_release (os w2) with
            | Some e => (Returned (Some e), snd (kill cfg proc w2))
            | None => check rounds cfg ctx w2
            end
        end
    end.
Proof.
  unfold start. rewrite bind_eq.
  destruct (fst (running cfg w)); [reflexivity |].
  rewrite bind_eq.
  replace (snd ((if String.eqb (run_dir (run cfg)) ""
                 then ret tt
                 else os_ops.MkdirAll (Named (run_dir (run cfg))))
                  (snd (running cfg w))))
    with (launchWorld cfg w)
    by (unfold launchWorld; destruct (String.eqb (run_dir (run cfg)) ""); reflexivity).
  rewrite bind_eq. unfold recordWorld.
  destruct (os_ops.Start ctx (launchWorld cfg w)) as [[e | proc] w1];
    cbn [fst snd]; [reflexivity |].
  rewrite bind_eq, bind_eq.
  destruct (os_ops.WriteFile (strconv.Itoa (Pid proc))
              (snd (os_ops.MkdirAll (ParentOf (pidFile cfg)) w1))) as [[e |] w2];
    cbn [fst snd].
  - rewrite bind_eq. reflexivity.
  - rewrite bind_eq. unfold os_ops.Release. rewrite bind_eq. cbn [get fst snd].
    destruct (os_release (os w2)) as [e |]; cbn [ret fst snd].
    + rewrite bind_eq. reflexivity.
    + rewrite bind_eq.
      destruct (check rounds cfg ctx w2) as [[[e |] |] w3]; cbn [fst snd];
        [rewrite bind_eq | |]; reflexivity.
Qed.

(** ** The rollback of start *)

(** On a released handle [kill] fails at once and changes nothing. *)
Lemma kill_released (cfg : config) (w : World) :
  kill cfg (mkProcess (-1)) w = (Some os_ops.errReleased, w).
Proof. reflexivity. Qed.

(** Once the process is launched, the pid written and the handle released,
    [start] is [check] and nothing more: when the wait fails, the rollback
    is made on the released handle, so the failure is returned and the world
    is left as [check] left it. *)
Lemma start_after_release_is_check (rounds : nat) (cfg : config)
  (ctx : Context) (w : World) (proc : Process) :
  fst (running cfg w) = false ->
  fst (os_ops.Start ctx (launchWorld cfg w)) = inr proc ->
  fst (os_ops.WriteFile (strconv.Itoa (Pid proc)) (recordWorld cfg ctx w)) = None ->
  let w2 := snd (os_ops.WriteFile (strconv.Itoa (Pid proc)) (recordWorld cfg ctx w)) in
  os_release (os w2) = None ->
  start rounds cfg ctx w = check rounds cfg ctx w2.
Proof.
  intros Hrun Hstart Hwrite w2 Hrel. subst w2.
  rewrite start_eq, Hrun, Hstart.
  destruct (os_ops.WriteFile (strconv.Itoa (Pid proc)) (recordWorld cfg ctx w))
    as [[e |] w2]; cbn [fst snd] in *; [discriminate |].
  now rewrite Hrel.
Qed.

Lemma WriteFile_ok (data : string) (w : World) :
  fst (os_ops.WriteFile data w) = None ->
  pidfile (snd (os_ops.WriteFile data w)) = Contents (clock w) data /\
  killed (snd (os_ops.WriteFile data w)) = killed w.
Proof.
  unfold os_ops.WriteFile, time_ops.Now. rewrite !bind_eq. cbn [get fst snd].
  destruct (os_write (os w) (clock w) (pidfile w)) as [[e rest] |];
    rewrite ?bind_eq; cbn; [discriminate | split; reflexivity].
Qed.

Lemma Start_killed (ctx : Context) (w : World) :
  killed (snd (os_ops.Start ctx w)) = killed w.
Proof.
  unfold os_ops.Start, time_ops.Now. rewrite !bind_eq. cbn [get fst snd].
  destruct (ctx (clock w)); [reflexivity |].
  rewrite !bind_eq. cbn [get fst snd].
  destruct (os_spawn (os w) (length (children w))); rewrite ?bind_eq; reflexivity.
Qed.

Lemma launchWorld_killed (cfg : config) (w : World) :
  killed (launchWorld cfg w) = killed w.
Proof.
  unfold launchWorld. destruct (observer_running cfg w) as [_ Hk _ _ _ _ _].
  destruct (String.eqb (run_dir (run cfg)) ""); exact Hk.
Qed.

(** So whatever the wait returns, [start] has killed nothing, and the pid
    file names the launched process, as written. *)
Lemma start_rolls_nothing_back (rounds : nat) (cfg : config)
  (ctx : Context) (w : World) (proc : Process) :
  fst (running cfg w) = false ->
  fst (os_ops.Start ctx (launchWorld cfg w)) = inr proc ->
  fst (os_ops.WriteFile (strconv.Itoa (Pid proc)) (recordWorld cfg ctx w)) = None ->
  let w2 := snd (os_ops.WriteFile (strconv.Itoa (Pid proc)) (recordWorld cfg ctx w)) in
  os_release (os w2) = None ->
  strconv.minInt <= Pid proc <= strconv.maxInt ->
  let w' := snd (start rounds cfg ctx w) in
  killed w' = killed w /\
  pidfile w' = Contents (clock (recordWorld cfg ctx w)) (strconv.Itoa (Pid proc)) /\
  fst (getPIDFile cfg w') = (Pid proc, clock (recordWorld cfg ctx w)).
Proof.
  intros Hrun Hstart Hwrite w2 Hrel Hrange w'.
  pose proof (start_after_release_is_check rounds cfg ctx w proc
                Hrun Hstart Hwrite Hrel) as Heq.
  fold w2 in Heq.
  destruct (WriteFile_ok _ _ Hwrite) as [Hfile Hkill]. fold w2 in Hfile, Hkill.
  destruct (observer_check rounds cfg ctx w2) as [Hf Hk _ _ _ _ _].
  assert (Hpf : pidfile w' =
                Contents (clock (recordWorld cfg ctx w)) (strconv.Itoa (Pid proc))).
  { subst w'. rewrite Heq, Hf. exact Hfile. }
  split; [| split; [exact Hpf |]].
  - subst w'. rewrite Heq, Hk, Hkill. unfold recordWorld.
    change (killed (snd (os_ops.MkdirAll (ParentOf (pidFile cfg))
                           (snd (os_ops.Start ctx (launchWorld cfg w))))))
      with (killed (snd (os_ops.Start ctx (launchWorld cfg w)))).
    rewrite Start_killed. apply launchWorld_killed.
  - unfold getPIDFile. rewrite bind_eq. cbn [get fst snd]. rewrite Hpf.
    rewrite Atoi_Itoa by assumption. reflexivity.
Qed.

(** ** The guard on small pids *)

Lemma check_small_pid (rounds : nat) (cfg : config) (ctx : Context) (w : World) :
  fst (fst (getPIDFile cfg w)) < 2 ->
  check rounds cfg ctx w = (Returned (Some errBeforeChecks), w).
Proof.
  intros Hpid. unfold check. rewrite bind_eq, getProcess_small_pid by assumption.
  reflexivity.
Qed.

(** With a pid below 2 in the pid file [stop] sends no signal: it removes
    the file and returns. *)
Lemma stop_small_pid (cfg : config) (ctx : Context) (w : World) :
  fst (fst (getPIDFile cfg w)) < 2 ->
  stop cfg ctx w = (None, snd (os_ops.RemoveAll w)).
Proof.
  intros Hpid. unfold stop. rewrite bind_eq, getProcess_small_pid by assumption.
  cbn [fst snd]. rewrite bind_eq. reflexivity.
Qed.

(** * The code at concrete inputs *)

(** ** Where the code falls short of its own words *)

(** C1.  [start] launches process 4242, records it, releases the handle and
    waits; the only check answers a hard error.  [start] returns that error,
    yet no SIGKILL has reached the system (the [Kill] of the rollback is
    made on the released handle), nothing was killed, the pid file still
    names 4242, and the resolver still finds the process running. *)
Theorem start_failed_wait_leaves_process_running :
  let '(r, w') := start 5 failingService background freshWorld in
  r = Returned (badURL background freshWorld) /\
  badURL background freshWorld =
    Some (Error "parse :8222/healthz: missing protocol scheme") /\
  children w' = [4242] /\
  killed w' = [] /\
  trace w' =
    [EvSpawn (inr 4242); EvWrite "4242" None; EvSysinfo;
     EvSignal 4242 Signal0 true;
     EvProbe 0 (badURL background freshWorld)] /\
  pidfile w' = Contents noon "4242" /\
  fst (running failingService w') = true.
Proof. vm_compute. repeat split. Qed.

(** The rollback does work where it is made before [Release]: when the pid
    file cannot be written the launched process is killed and waited for,
    and is gone. *)
Example start_failed_write_kills_process :
  let '(r, w') :=
    start 5 failingService background (world machineReadOnly noon NoFile) in
  r = Returned (Some (Error "open var/nats/nats.pid: read-only file system")) /\
  killed w' = [4242] /\
  reaped w' = [4242] /\
  os_ops.reachable 4242 w' = false /\
  pidfile w' = NoFile /\
  trace w' =
    [EvSpawn (inr 4242);
     EvWrite "4242" (Some (Error "open var/nats/nats.pid: read-only file system"));
     EvSignal 4242 SIGKILL true; EvWait 4242].
Proof. vm_compute. repeat split. Qed.

(** C2.  With pid 1 in the pid file and a caller that may signal pid 1,
    [Status] sends the zero signal to pid 1 and reports the service as
    running: it goes to [getProcessByPID] directly and only stops at pid 0,
    where [getProcess] stops at every pid below 2. *)
Theorem Status_resolves_pid_1 :
  let '(r, w') := Status 5 (service []) background initRecord in
  r = Returned (mkStatus "nats" 1 noon true false) /\
  trace w' = [EvSysinfo; EvSignal 1 Signal0 true] /\
  fst (getProcess (service []) initRecord) = None.
Proof. vm_compute. repeat split. Qed.

(** C4.  A pid file without a number in it reads as pid 0, without an
    error, but with the modification time of the file and not the zero
    time; [Status] reports that time as [Started] next to pid 0. *)
Theorem getPIDFile_garbled_keeps_mtime :
  fst (getPIDFile (service []) garbledRecord) = (0, noon) /\
  noon <> zeroTime /\
  fst (Status 5 (service []) background garbledRecord) =
    Returned (mkStatus "nats" 0 noon false false).
Proof. vm_compute. repeat split. discriminate. Qed.

(** C6.  The machine had been up for 30 seconds when the first [start]
    stored the uptime; the service took 30.1 seconds to become ready, and the
    first [start] returned success.  Process 4242 can be signalled and its
    check answers [nil]: the service is running and ready.  The second
    [start], right after the first, finds the record older than the stored
    uptime, takes the service for not running, launches process 4243 and
    overwrites the pid file.  Nothing was killed: both processes are
    there. *)
Theorem second_start_launches_again :
  let '(r1, w1) := start 400 lateService background youngWorld in
  let '(r2, w2) := start 400 lateService background w1 in
  r1 = Returned None /\ children w1 = [4242] /\
  pidfile w1 = Contents noon "4242" /\
  os_ops.reachable 4242 w1 = true /\
  (forall c, In c (checks lateService) -> c background w1 = None) /\
  r2 = Returned None /\ children w2 = [4242; 4243] /\
  pidfile w2 = Contents (noon + 30100 * time.Millisecond) "4243" /\
  killed w2 = [] /\
  ~ secondStartIdle 400 lateService background youngWorld.
Proof.
  destruct (start 400 lateService background youngWorld) as [r1 w1] eqn:H1.
  destruct (start 400 lateService background w1) as [r2 w2] eqn:H2.
  assert (E1 : w1 = snd (start 400 lateService background youngWorld))
    by now rewrite H1.
  assert (E2 : w2 = snd (start 400 lateService background
                           (snd (start 400 lateService background youngWorld))))
    by now rewrite <- E1, H2.
  assert (Hc1 : children w1 = [4242]) by (rewrite E1; vm_compute; reflexivity).
  assert (Hc2 : children w2 = [4242; 4243]) by (rewrite E2; vm_compute; reflexivity).
  split; [| split; [exact Hc1 | split; [| split; [| split; [| split;
    [| split; [exact Hc2 | split; [| split]]]]]]]].
  - replace r1 with (fst (start 400 lateService background youngWorld))
      by (now rewrite H1). vm_compute. reflexivity.
  - rewrite E1. vm_compute. reflexivity.
  - rewrite E1. vm_compute. reflexivity.
  - intros c [<- | []]. rewrite E1. vm_compute. reflexivity.
  - replace r2 with (fst (start 400 lateService background w1)) by (now rewrite H2).
    rewrite E1. vm_compute. reflexivity.
  - rewrite E2. vm_compute. reflexivity.
  - rewrite E2. vm_compute. reflexivity.
  - intros Hidle. destruct (Hidle r1 w1 r2 w2 H1 H2) as [Hc _].
    rewrite Hc1, Hc2 in Hc. discriminate.
Qed.

(** ** Where the specification says more than the code does *)


(** C5, counterexample.  The process is gone 50 ms after the first round:
    the loop calls the check, sleeps, and only then sends the zero signal.
    What comes right before the sleep is the check, not the signal. *)
Lemma check_sleeps_before_verifying :
  let '(r, w') := check 5 slowService background dyingWorld in
  r = Returned (Some (errExited 4242)) /\
  trace w' =
    [EvSysinfo; EvSignal 4242 Signal0 true;
     EvProbe 0 (Some ErrNotReady); EvSleep pollInterval;
     EvSignal 4242 Signal0 false] /\
  ~ verifiesBeforeSleeping 4242 (trace w').
Proof.
  vm_compute. repeat split.
  intros H.
  destruct (H [EvSysinfo; EvSignal 4242 Signal0 true; EvProbe 0 (Some ErrNotReady)]
              100000000 [EvSignal 4242 Signal0 false] eq_refl)
    as (pre' & ok & Hpre).
  change [EvSysinfo; EvSignal 4242 Signal0 true; EvProbe 0 (Some ErrNotReady)]
    with ([EvSysinfo; EvSignal 4242 Signal0 true] ++ [EvProbe 0 (Some ErrNotReady)])
    in Hpre.
  apply app_inj_tail in Hpre as [_ Hlast]. discriminate.
Qed.


(** C9, counterexample.  No check is configured and the context is
    already cancelled: every configured check has answered [nil] (there is
    none), and the wait returns the error of the context. *)
Lemma cancelled_wait_without_checks :
  let '(r, w') := check 5 (service []) cancelled runningWorld in
  r = Returned (cancelled (clock runningWorld)) /\
  trace w' = [EvSysinfo; EvSignal 4242 Signal0 true] /\
  ~ successIffAllReported 0 r (trace w').
Proof.
  vm_compute. repeat split.
  intros [_ H]. discriminate H. intros i Hi. inversion Hi.
Qed.

(** ** The theorems at concrete inputs *)


(** C5 at the process that is gone after the first round: the round
    leaves the only check unsatisfied, the sleep follows and then the zero
    signal to pid 4242, which fails, and [check] returns the error naming
    4242. *)
Lemma check_verifies_after_sleeping_witness :
  extends dyingWorld (snd (check 5 slowService background dyingWorld))
    ([EvSysinfo; EvSignal 4242 Signal0 true]
       ++ EvProbe 0 (Some ErrNotReady)
       :: [EvSleep pollInterval; EvSignal 4242 Signal0 false]) /\
  exists ok post',
    [EvSleep pollInterval; EvSignal 4242 Signal0 false] =
      EvSleep pollInterval
        :: EvSignal (os_ops.pid_t (fst (fst (getPIDFile slowService dyingWorld))))
             Signal0 ok
        :: post' /\
    (ok = false ->
     post' = [] /\
     fst (check 5 slowService background dyingWorld) =
       Returned (Some (errExited (fst (fst (getPIDFile slowService dyingWorld)))))).
Proof.
  assert (H : extends dyingWorld (snd (check 5 slowService background dyingWorld))
                ([EvSysinfo; EvSignal 4242 Signal0 true]
                   ++ EvProbe 0 (Some ErrNotReady)
                   :: [EvSleep pollInterval; EvSignal 4242 Signal0 false]))
    by (vm_compute; reflexivity).
  split; [exact H |].
  apply (proj1 (check_verifies_after_sleeping 5 slowService background dyingWorld _ H)
           [EvSysinfo; EvSignal 4242 Signal0 true] 0%nat (Some ErrNotReady)
           [EvSleep pollInterval; EvSignal 4242 Signal0 false]).
  - reflexivity.
  - reflexivity.
  - cbn. intros j Hj. lia.
  - exists 0%nat. split; [cbn; lia |].
    cbn. intros [H0 | [H0 | [H0 | []]]]; discriminate H0.
Defined.

(** X7 at a service that is running: [start] launches nothing and leaves
    the pid file alone. *)
Lemma start_while_running_only_waits_witness :
  fst (running slowService runningWorld) = true /\
  children (snd (start 5 slowService background runningWorld)) =
    children runningWorld /\
  pidfile (snd (start 5 slowService background runningWorld)) =
    pidfile runningWorld.
Proof.
  split; [vm_compute; reflexivity |].
  pose proof (start_while_running_only_waits 5 slowService background runningWorld
                ltac:(vm_compute; reflexivity)) as H.
  split; [exact (proj1 (proj2 H)) | exact (proj1 (proj2 (proj2 H)))].
Defined.


(** C9 at the slow check: [check] returns success and the check has
    answered [nil]. *)
Lemma check_remembers_satisfied_probes_witness :
  fst (check 5 slowService background runningWorld) = Returned None /\
  forall i, (i < length (checks slowService))%nat ->
            In (EvProbe i None)
               (trace (snd (check 5 slowService background runningWorld))).
Proof.
  split; [vm_compute; reflexivity |].
  apply (check_remembers_satisfied_probes 5 slowService background runningWorld
           (trace (snd (check 5 slowService background runningWorld))));
    vm_compute; reflexivity.
Defined.

(** C10 at the same record on a machine that cannot tell its uptime: the
    record is older than any uptime the machine of [staleWorld] reports, and
    the resolver returns process 4242 because the zero signal is
    delivered. *)
Lemma getProcessByPID_without_uptime_witness :
  fst (getSysinfo blindWorld) = inl (Error "function not implemented") /\
  fst (getProcessByPID (service []) 4242 noon blindWorld) = Some (mkProcess 4242) /\
  fst (running (service []) blindWorld) = true.
Proof.
  split; [vm_compute; reflexivity |].
  apply (getProcessByPID_without_uptime (service []) blindWorld 4242 noon
           (Error "function not implemented"));
    [vm_compute; reflexivity | lia | vm_compute; reflexivity].
Defined.

(** * More of the package *)

(** ** New and the options *)

Lemma applyOptions_settings (ss : list setting) :
  forall b : building,
    match applyOptions (map optionOf ss) b with
    | inl e =>
        e = errTwoRuns /\
        (2 <= runs ss + (if argsNil b then 0 else 1))%nat
    | inr b' =>
        (runs ss + (if argsNil b then 0 else 1) <= 1)%nat /\
        name (built b') = name (built b) /\
        pidFile (built b') = lastPIDFile (pidFile (built b)) ss /\
        checks (built b') = checks (built b) ++ allChecks ss /\
        run_env (run (built b')) = run_env (run (built b)) ++ allEnv ss /\
        run_dir (run (built b')) = lastDir (run_dir (run (built b))) ss /\
        (run_name (run (built b')), run_args (run (built b'))) =
          lastRun (run_name (run (built b)), run_args (run (built b))) ss
    end.
Proof.
  induction ss as [| s ss IH]; intros b.
  - cbn. rewrite !app_nil_r. destruct (argsNil b); cbn; intuition lia.
  - cbn [map applyOptions].
    destruct s as [path | nm args | cs | path | environment];
      cbn [optionOf PIDFile Run CheckOption Dir Env].
    + specialize (IH (mkBuilding (withPidFile path (built b)) (argsNil b))).
      cbn in IH |- *.
      destruct (applyOptions (map optionOf ss) _) as [e | b']; exact IH.
    + unfold Run. destruct (argsNil b) eqn:Hnil; cbn [negb].
      * specialize (IH (mkBuilding
                          (withRun (mkRun nm args (run_env (run (built b)))
                                          (run_dir (run (built b)))) (built b))
                          false)).
        cbn in IH |- *.
        destruct (applyOptions (map optionOf ss) _) as [e | b'].
        -- destruct IH as [He Hn]. split; [exact He | lia].
        -- destruct IH as (Hn & H). split; [lia | exact H].
      * cbn. split; [reflexivity | lia].
    + specialize (IH (mkBuilding (withChecks (checks (built b) ++ cs) (built b))
                                 (argsNil b))).
      cbn in IH |- *.
      destruct (applyOptions (map optionOf ss) _) as [e | b']; [exact IH |].
      rewrite app_assoc. exact IH.
    + specialize (IH (mkBuilding
                        (withRun (mkRun (run_name (run (built b)))
                                        (run_args (run (built b)))
                                        (run_env (run (built b))) path) (built b))
                        (argsNil b))).
      cbn in IH |- *.
      destruct (applyOptions (map optionOf ss) _) as [e | b']; exact IH.
    + specialize (IH (mkBuilding
                        (withRun (mkRun (run_name (run (built b)))
                                        (run_args (run (built b)))
                                        (run_env (run (built b)) ++ environment)
                                        (run_dir (run (built b)))) (built b))
                        (argsNil b))).
      cbn in IH |- *.
      destruct (applyOptions (map optionOf ss) _) as [e | b']; [exact IH |].
      rewrite app_assoc. exact IH.
Qed.

(** X1.  [New] panics exactly when the options hold more than one [Run],
    and then with the message that a service expects exactly one run
    option; a [Run] without arguments counts like any other. *)
Theorem New_panics_on_second_Run :
  forall (join : string -> string -> string) (nm : string) (ss : list setting),
    match New join nm (map optionOf ss) with
    | inl e => e = errTwoRuns /\ (2 <= runs ss)%nat
    | inr _ => (runs ss <= 1)%nat
    end.
Proof.
  intros join nm ss. unfold New.
  pose proof (applyOptions_settings ss
                (mkBuilding (mkConfig nm "" (mkRun "" [] [] "") []) true)) as H.
  destruct (applyOptions (map optionOf ss) _) as [e | b]; cbn in H.
  - destruct H as [He Hn]. split; [exact He | lia].
  - destruct H as [Hn _].
    destruct (negb (String.eqb (pidFile (built b)) ""));
      [| destruct (negb (String.eqb (run_dir (run (built b))) ""))]; lia.
Qed.

(** X2.  The service that [New] returns has the name given, the checks of
    all [Check] options in the order given, the variables of all [Env]
    options in the order given, the directory of the last [Dir] option and
    the command of the [Run] option (empty ones where there is no such
    option). *)
Theorem New_keeps_options_in_order :
  forall (join : string -> string -> string) (nm : string) (ss : list setting)
         (cfg : config),
    New join nm (map optionOf ss) = inr cfg ->
    name cfg = nm /\
    checks cfg = allChecks ss /\
    run_env (run cfg) = allEnv ss /\
    run_dir (run cfg) = lastDir "" ss /\
    (run_name (run cfg), run_args (run cfg)) = lastRun (""%string, []) ss.
Proof.
  intros join nm ss cfg. unfold New.
  pose proof (applyOptions_settings ss
                (mkBuilding (mkConfig nm "" (mkRun "" [] [] "") []) true)) as H.
  destruct (applyOptions (map optionOf ss) _) as [e | b]; cbn in H;
    [discriminate |].
  destruct H as (_ & Hname & _ & Hchecks & Henv & Hdir & Hrun).
  destruct (negb (String.eqb (pidFile (built b)) ""));
    [| destruct (negb (String.eqb (run_dir (run (built b))) ""))];
    intros [= <-]; cbn; repeat split; assumption.
Qed.

Lemma New_keeps_options_in_order_witness :
  New slashJoin "nats" (map optionOf natsSettings) = inr natsConfig /\
  checks natsConfig = allChecks natsSettings /\
  run_env (run natsConfig) = allEnv natsSettings.
Proof.
  split; [reflexivity |].
  pose proof (New_keeps_options_in_order slashJoin "nats" natsSettings natsConfig
                eq_refl) as (_ & Hchecks & Henv & _).
  split; assumption.
Defined.

(** X3.  The pid file of the service is the path of the last [PIDFile]
    option if that is not empty; otherwise it is [name.pid] joined to the
    directory of the last [Dir] option if that is not empty, and plain
    [name.pid] otherwise.  The order of [PIDFile] and [Dir] among the
    options plays no part. *)
Theorem New_pidFile_default :
  forall (join : string -> string -> string) (nm : string) (ss : list setting)
         (cfg : config),
    New join nm (map optionOf ss) = inr cfg ->
    pidFile cfg =
      if negb (String.eqb (lastPIDFile "" ss) "") then lastPIDFile "" ss
      else if negb (String.eqb (lastDir "" ss) "")
           then join (lastDir "" ss) (String.append nm ".pid")
           else String.append nm ".pid".
Proof.
  intros join nm ss cfg. unfold New.
  pose proof (applyOptions_settings ss
                (mkBuilding (mkConfig nm "" (mkRun "" [] [] "") []) true)) as H.
  destruct (applyOptions (map optionOf ss) _) as [e | b]; cbn in H;
    [discriminate |].
  destruct H as (_ & _ & Hpid & _ & _ & Hdir & _).
  rewrite <- Hpid, <- Hdir.
  destruct (negb (String.eqb (pidFile (built b)) "")) eqn:Hp;
    [| destruct (negb (String.eqb (run_dir (run (built b))) "")) eqn:Hd];
    intros [= <-]; reflexivity.
Qed.

Lemma New_pidFile_default_witness :
  New slashJoin "nats" (map optionOf natsSettings) = inr natsConfig /\
  pidFile natsConfig = slashJoin "var/nats" "nats.pid".
Proof.
  split; [reflexivity |].
  exact (New_pidFile_default slashJoin "nats" natsSettings natsConfig eq_refl).
Defined.

(** ** Where the errors of the wait come from *)

Lemma checkPass_abort_origin (ctx : Context) (cs : list Check) :
  forall i unready ready w e,
    length ready = (i + length cs)%nat ->
    fst (checkPass ctx cs i unready ready w) = PassAbort e ->
    exists c w0, In c cs /\ c ctx w0 = Some e /\ e <> ErrNotReady.
Proof.
  induction cs as [| c rest IH]; intros i unready ready w e Hlen.
  - discriminate.
  - simpl in Hlen. rewrite checkPass_cons.
    destruct (ready !! i) as [[|] |] eqn:Hi;
      [| | apply lookup_ge_None in Hi; lia].
    + intros H. destruct (IH (S i) unready ready w e ltac:(lia) H)
        as (c' & w0 & Hin & Hc & Hne).
      exists c', w0. repeat split; [now right | assumption | assumption].
    + destruct (c ctx w) as [[| msg] |] eqn:Hc.
      * intros H. destruct (IH (S i) unready ready _ e ltac:(lia) H)
          as (c' & w0 & Hin & Hc' & Hne).
        exists c', w0. repeat split; [now right | assumption | assumption].
      * cbn [fst]. intros [= <-]. exists c, w.
        repeat split; [now left | assumption | discriminate].
      * intros H.
        destruct (IH (S i) (unready - 1) (<[i := true]> ready) _ e
                    ltac:(rewrite length_insert; lia) H)
          as (c' & w0 & Hin & Hc' & Hne).
        exists c', w0. repeat split; [now right | assumption | assumption].
Qed.

Lemma checkLoop_error_origin (cfg : config) (ctx : Context) (ps : Process) :
  forall rounds unready ready w e,
    length ready = length (checks cfg) ->
    unready = Z.of_nat (pending ready) ->
    fst (checkLoop rounds cfg ctx ps unready ready w) = Returned (Some e) ->
    (exists t, ctx t = Some e) \/
    e = errExited (Pid ps) \/
    (exists c w0, In c (checks cfg) /\ c ctx w0 = Some e /\ e <> ErrNotReady).
Proof.
  induction rounds as [| rounds IH]; intros unready ready w e Hlen Hun.
  - discriminate.
  - rewrite checkLoop_round.
    destruct (ctx (clock w)) as [e0 |] eqn:Hctx.
    { cbn [fst]. intros [= <-]. left. now exists (clock w). }
    destruct (checkPass_spec ctx (checks cfg) 0 unready ready w Hlen Hun)
      as (a & _ & _ & _ & Hres).
    pose proof (checkPass_abort_origin ctx (checks cfg) 0 unready ready w) as Habort.
    destruct (checkPass ctx (checks cfg) 0 unready ready w)
      as [[u' r' | e0] w1]; cbn [fst snd] in *.
    + destruct Hres as (Hr & Hu & _).
      destruct (u' <? 1); [discriminate |].
      destruct (os_ops.Signal ps Signal0 (snd (time_ops.Sleep pollInterval w1)))
        as [[e1 |] w3].
      * cbn [fst]. intros [= <-]. right. now left.
      * apply IH; [rewrite Hr, marked_length; assumption | assumption].
    + intros [= <-]. right. right. now apply (Habort e0 Hlen).
Qed.

Lemma check_errors (rounds : nat) (cfg : config) (ctx : Context) (w : World)
  (e : error) :
  fst (check rounds cfg ctx w) = Returned (Some e) ->
  (fst (getProcess cfg w) = None /\ e = errBeforeChecks) \/
  (exists t, ctx t = Some e) \/
  e = errExited (fst (fst (getPIDFile cfg w))) \/
  (exists c w0, In c (checks cfg) /\ c ctx w0 = Some e /\ e <> ErrNotReady).
Proof.
  unfold check. rewrite bind_eq.
  destruct (getProcess cfg w) as [[ps |] w1] eqn:Hgp; cbn [fst snd].
  - destruct (getProcess_Some _ _ _ _ Hgp) as [Hpid _]. rewrite <- Hpid.
    intros H. right.
    eapply (checkLoop_error_origin cfg ctx ps rounds);
      [| | exact H]; [apply length_replicate | now rewrite pending_replicate].
  - intros [= <-]. left. split; reflexivity.
Qed.



(** X5.  When every configured check is one of the package's own, an
    [HTTPCheck] or a [DialCheck], an error of a check ends the wait only in
    three cases, each of a check that is configured: an HTTP request that
    cannot be built, a dial that answers [context.Canceled] itself, and a
    dial that answers a [*net.AddrError].  A connection that is refused or
    times out, a transport failure and a response with the wrong status
    never do.  (The dialer of package [net] wraps every failure, so with it
    the two cases of a dial do not arise.) *)
Theorem wait_on_own_checks :
  forall (rounds : nat) (cfg : config) (ctx : Context) (w : World) (e : error),
    (forall c, In c (checks cfg) ->
       (exists client url status, c = httpGet client url status) \/
       (exists dialer network address, c = dial dialer network address)) ->
    fst (check rounds cfg ctx w) = Returned (Some e) ->
    (fst (getProcess cfg w) = None /\ e = errBeforeChecks) \/
    (exists t, ctx t = Some e) \/
    e = errExited (fst (fst (getPIDFile cfg w))) \/
    (exists (client : HTTPClient) (url : string) (status : Z) (w0 : World) msg,
        In (httpGet client url status) (checks cfg) /\
        client url ctx w0 = BadRequest msg /\ e = Error msg) \/
    (exists (dialer : Dialer) (network address : string) (w0 : World),
        In (dial dialer network address) (checks cfg) /\
        ((dialer network address ctx w0 = DialCanceled /\ e = errCanceled) \/
         (exists msg, dialer network address ctx w0 = AddrError msg /\
                      e = Error msg))).
Proof.
  intros rounds cfg ctx w e Hown Hrun.
  destruct (check_errors rounds cfg ctx w e Hrun)
    as [H | [H | [H | (c & w0 & Hin & Hc & Hne)]]];
    [now left | now right; left | now right; right; left |].
  right. right. right.
  destruct (Hown c Hin) as [(client & url & status & ->) | (dialer & network & address & ->)].
  - left. unfold httpGet in Hc.
    destruct (client url ctx w0) as [msg | msg | code] eqn:Hres.
    + injection Hc as <-. now exists client, url, status, w0, msg.
    + injection Hc as <-. contradiction.
    + destruct (negb (code =? status)); [| discriminate].
      injection Hc as <-. contradiction.
  - right. unfold dial in Hc. exists dialer, network, address, w0.
    split; [assumption |].
    destruct (dialer network address ctx w0) as [| | msg | msg] eqn:Hres.
    + discriminate.
    + injection Hc as <-. left. split; reflexivity.
    + injection Hc as <-. right. now exists msg.
    + injection Hc as <-. contradiction.
Qed.

Lemma wait_on_own_checks_witness :
  fst (check 5 failingService background runningWorld) =
    Returned (Some (Error "parse :8222/healthz: missing protocol scheme")) /\
  ((fst (getProcess failingService runningWorld) = None /\
    Error "parse :8222/healthz: missing protocol scheme" = errBeforeChecks) \/
   (exists t, background t =
                Some (Error "parse :8222/healthz: missing protocol scheme")) \/
   Error "parse :8222/healthz: missing protocol scheme" =
     errExited (fst (fst (getPIDFile failingService runningWorld))) \/
   (exists (client : HTTPClient) (url : string) (status : Z) (w0 : World) msg,
       In (httpGet client url status) (checks failingService) /\
       client url background w0 = BadRequest msg /\
       Error "parse :8222/healthz: missing protocol scheme" = Error msg) \/
   (exists (dialer : Dialer) (network address : string) (w0 : World),
       In (dial dialer network address) (checks failingService) /\
       ((dialer network address background w0 = DialCanceled /\
         Error "parse :8222/healthz: missing protocol scheme" = errCanceled) \/
        (exists msg, dialer network address background w0 = AddrError msg /\
                     Error "parse :8222/healthz: missing protocol scheme" =
                       Error msg)))).
Proof.
  assert (H : fst (check 5 failingService background runningWorld) =
              Returned (Some (Error "parse :8222/healthz: missing protocol scheme")))
    by (vm_compute; reflexivity).
  split; [exact H |].
  apply (wait_on_own_checks 5 failingService background runningWorld); [| exact H].
  intros c [<- | []]. left.
  exists noScheme, ":8222/healthz"%string, 200. reflexivity.
Defined.

(** ** Status.String *)

Lemma append_assoc (a b c : string) :
  String.append (String.append a b) c = String.append a (String.append b c).
Proof. induction a as [| x a IH]; simpl; [reflexivity | now rewrite IH]. Qed.

Lemma append_cancel_l (a b c : string) :
  String.append a b = String.append a c -> b = c.
Proof.
  induction a as [| x a IH]; simpl; [trivial |].
  intros [= H]. now apply IH.
Qed.

(** Two strings without a space, each followed by a space and more, are
    equal only if the parts before and after the space are. *)
Lemma append_cut (a b x y : string) :
  spaceless a = true -> spaceless b = true ->
  String.append a (String " " x) = String.append b (String " " y) ->
  a = b /\ x = y.
Proof.
  revert b. induction a as [| c a IH]; intros [| d b] Ha Hb; simpl in *.
  - intros [= ->]. split; reflexivity.
  - intros [= <- _]. discriminate.
  - intros [= -> _]. discriminate.
  - apply andb_true_iff in Ha as [_ Ha]. apply andb_true_iff in Hb as [_ Hb].
    intros [= <- H]. destruct (IH b Ha Hb H) as [-> ->]. split; reflexivity.
Qed.

Lemma string_of_uint_spaceless (d : Decimal.uint) :
  spaceless (NilEmpty.string_of_uint d) = true.
Proof. induction d; simpl; assumption || reflexivity. Qed.

Lemma Itoa_spaceless (n : Z) : spaceless (strconv.Itoa n) = true.
Proof.
  unfold strconv.Itoa.
  destruct (Z.to_int n) as [d | d]; cbn [NilZero.string_of_int];
    destruct d; try reflexivity;
    try (cbn [NilZero.string_of_uint spaceless]; apply string_of_uint_spaceless).
  all: change (spaceless (String "-" ?s)) with (spaceless s);
    cbn [NilZero.string_of_uint]; apply string_of_uint_spaceless.
Qed.

Lemma Itoa_inj (n m : Z) : strconv.Itoa n = strconv.Itoa m -> n = m.
Proof.
  unfold strconv.Itoa. intros H.
  assert (Hnil : forall z, Z.to_int z <> Decimal.Pos Decimal.Nil /\
                           Z.to_int z <> Decimal.Neg Decimal.Nil).
  { intros [| p | p]; cbn [Z.to_int]; split; try discriminate;
      intros [= Hp]; exact (DecimalPos.Unsigned.to_uint_nonnil p Hp). }
  apply (f_equal NilZero.int_of_string) in H.
  rewrite !NilZero.isi in H by apply Hnil.
  injection H as H.
  apply (f_equal Z.of_int) in H. now rewrite !DecimalZ.of_to in H.
Qed.

Lemma StatusString_tail (nfo : StatusT) :
  StatusString nfo = String.append (Name nfo) (statusTail nfo).
Proof.
  unfold StatusString, statusTail.
  destruct (PID nfo =? 0); [reflexivity |].
  destruct (negb (Running nfo)); [reflexivity |].
  now rewrite !append_assoc.
Qed.

Lemma String_inj (c d : ascii) (s t : string) :
  String c s = String d t -> c = d /\ s = t.
Proof. intros [= -> ->]. split; reflexivity. Qed.

Ltac peel H :=
  cbn [String.append] in H;
  repeat first
    [ discriminate H
    | let Hc := fresh in
      apply String_inj in H; destruct H as [Hc H];
      first [ discriminate Hc | clear Hc ] ].

(** X6.  For one service the sentence of [Status.String] tells the state:
    two reports with the same name read the same only if both have pid 0,
    or both have the same pid other than 0, agree on running and, when
    running, agree on ready. *)
Theorem StatusString_unambiguous :
  forall a b : StatusT,
    Name a = Name b ->
    StatusString a = StatusString b ->
    (PID a = 0 /\ PID b = 0) \/
    (PID a <> 0 /\ PID a = PID b /\ Running a = Running b /\
     (Running a = true -> Ready a = Ready b)).
Proof.
  intros a b Hname H.
  rewrite !StatusString_tail, Hname in H. apply append_cancel_l in H.
  unfold statusTail in H.
  destruct (PID a =? 0) eqn:Ha; destruct (PID b =? 0) eqn:Hb.
  - left. split; now apply Z.eqb_eq.
  - exfalso. destruct (negb (Running b)); peel H.
  - exfalso. destruct (negb (Running a)); peel H.
  - right. apply Z.eqb_neq in Ha. split; [assumption |].
    destruct (Running a), (Running b); cbn [negb] in H; peel H.
    + destruct (Ready a), (Ready b);
        apply append_cut in H; try apply Itoa_spaceless;
        destruct H as [Hp Hs]; try discriminate Hs;
        apply Itoa_inj in Hp; repeat split; assumption || reflexivity.
    + apply append_cut in H; try apply Itoa_spaceless.
      destruct H as [Hp _]. apply Itoa_inj in Hp.
      repeat split; try assumption. discriminate.
Qed.

Lemma StatusString_unambiguous_witness :
  Name (mkStatus "nats" 4242 noon true true) =
    Name (mkStatus "nats" 4242 (noon + hour) true true) /\
  ((PID (mkStatus "nats" 4242 noon true true) = 0 /\
    PID (mkStatus "nats" 4242 (noon + hour) true true) = 0) \/
   (PID (mkStatus "nats" 4242 noon true true) <> 0 /\
    PID (mkStatus "nats" 4242 noon true true) =
      PID (mkStatus "nats" 4242 (noon + hour) true true) /\
    Running (mkStatus "nats" 4242 noon true true) =
      Running (mkStatus "nats" 4242 (noon + hour) true true) /\
    (Running (mkStatus "nats" 4242 noon true true) = true ->
     Ready (mkStatus "nats" 4242 noon true true) =
       Ready (mkStatus "nats" 4242 (noon + hour) true true)))).
Proof.
  split; [reflexivity |].
  apply StatusString_unambiguous; reflexivity.
Defined.

(** ** The identity store *)

(** X8.  What [start] writes, the store reads back: after a successful
    [WriteFile] of [Itoa(pid)], [getPIDFile] returns that pid and the time of
    the write, for every pid an [int] can hold. *)
Theorem written_pid_is_read_back :
  forall (cfg : config) (pid : Z) (w : World),
    strconv.minInt <= pid <= strconv.maxInt ->
    fst (os_ops.WriteFile (strconv.Itoa pid) w) = None ->
    fst (getPIDFile cfg (snd (os_ops.WriteFile (strconv.Itoa pid) w))) =
      (pid, clock w).
Proof.
  intros cfg pid w Hrange Hwrite.
  destruct (WriteFile_ok _ _ Hwrite) as [Hfile _].
  unfold getPIDFile. rewrite bind_eq. cbn [get fst snd]. rewrite Hfile.
  rewrite Atoi_Itoa by assumption. reflexivity.
Qed.

Lemma written_pid_is_read_back_witness :
  fst (os_ops.WriteFile (strconv.Itoa 4242) freshWorld) = None /\
  fst (getPIDFile (service [])
         (snd (os_ops.WriteFile (strconv.Itoa 4242) freshWorld))) =
    (4242, clock freshWorld).
Proof.
  split; [vm_compute; reflexivity |].
  apply written_pid_is_read_back; [vm_compute; split; discriminate | vm_compute; reflexivity].
Defined.

Lemma digits_stray (s t : string) (c : ascii) :
  strconv.digit c = None ->
  forall acc, strconv.digits (String.append s (String c t)) acc = None.
Proof.
  intros Hc. induction s as [| x s IH]; intros acc; cbn [String.append strconv.digits].
  - now rewrite Hc.
  - destruct (strconv.digit x); [apply IH | reflexivity].
Qed.

Lemma Atoi_stray (s t : string) (c : ascii) :
  strconv.digit c = None -> c <> "-"%char -> c <> "+"%char ->
  strconv.Atoi (String.append s (String c t)) = None.
Proof.
  intros Hc Hm Hp.
  destruct s as [| x s]; cbn [String.append]; unfold strconv.Atoi.
  - apply Ascii.eqb_neq in Hm, Hp. rewrite Hm, Hp. cbn [orb].
    cbn [strconv.digits]. now rewrite Hc.
  - destruct (Ascii.eqb x "-" || Ascii.eqb x "+").
    + destruct (String.append s (String c t)) as [| y r] eqn:Hs; [reflexivity |].
      rewrite <- Hs. now rewrite digits_stray.
    + rewrite (digits_stray (String x s) t c Hc). reflexivity.
Qed.

(** X9.  A pid file with any character in it that is neither a digit nor
    a sign, such as a newline after the number, reads as pid 0. *)
Theorem stray_character_reads_as_pid_0 :
  forall (cfg : config) (w : World) (mtime : Time) (s t : string) (c : ascii),
    pidfile w = Contents mtime (String.append s (String c t)) ->
    strconv.digit c = None -> c <> "-"%char -> c <> "+"%char ->
    getPIDFile cfg w = ((0, mtime), w).
Proof.
  intros cfg w mtime s t c Hfile Hc Hm Hp.
  unfold getPIDFile. rewrite bind_eq. cbn [get fst snd]. rewrite Hfile.
  rewrite Atoi_stray by assumption. reflexivity.
Qed.

Lemma stray_character_reads_as_pid_0_witness :
  pidfile newlineRecord =
    Contents noon (String.append "4242" (String "010"%char "")) /\
  getPIDFile (service []) newlineRecord = ((0, noon), newlineRecord).
Proof.
  split; [reflexivity |].
  apply (stray_character_reads_as_pid_0 (service []) newlineRecord noon
           "4242" "" "010"%char);
    [reflexivity | reflexivity | discriminate | discriminate].
Defined.

(** ** The resolver in closed form *)


Lemma sameView_refl (w : World) : sameView w w.
Proof. repeat split. Qed.

Lemma sameView_trans (w1 w2 w3 : World) :
  sameView w1 w2 -> sameView w2 w3 -> sameView w1 w3.
Proof. intros (c1 & o1 & s1) (c2 & o2 & s2). repeat split; congruence. Qed.

Lemma sameView_getSysinfo (w : World) : sameView w (snd (getSysinfo w)).
Proof.
  split; [apply getSysinfo_clock |]. split.
  - now destruct (observer_getSysinfo w).
  - now rewrite getSysinfo_cached.
Qed.

Lemma sameView_log (e : Event) (w : World) : sameView w (snd (log e w)).
Proof. repeat split. now rewrite !getSysinfo_fst. Qed.

Lemma sameView_getProcess (cfg : config) (w : World) :
  sameView w (snd (getProcess cfg w)).
Proof.
  rewrite getProcess_eq.
  destruct (fst (fst (getPIDFile cfg w)) <? 2) eqn:Hpid; [apply sameView_refl |].
  apply Z.ltb_ge in Hpid. rewrite getProcessByPID_eq.
  destruct (match fst (getSysinfo w) with
            | inr uptime => olderThanBoot _ uptime
            | inl _ => false
            end); [apply sameView_getSysinfo |].
  rewrite Signal0_eq by (cbn [Pid]; lia). cbn [Pid].
  destruct (os_ops.reachable _ _); cbn [snd];
    (eapply sameView_trans; [apply sameView_getSysinfo | apply sameView_log]).
Qed.


Lemma reachable_same (pid : Z) (w w' : World) :
  sameView w w' -> reaped w' = reaped w ->
  os_ops.reachable pid w' = os_ops.reachable pid w.
Proof. intros (Hc & Ho & _) Hr. unfold os_ops.reachable. now rewrite Hc, Ho, Hr. Qed.


(** ** The pid that the kernel reads *)

Lemma pid_t_range (p : Z) : - 2 ^ 31 <= os_ops.pid_t p < 2 ^ 31.
Proof.
  unfold os_ops.pid_t.
  change (2 ^ 31) with 2147483648. change (2 ^ 32) with 4294967296.
  pose proof (Z.mod_pos_bound (p + 2147483648) 4294967296 ltac:(lia)). lia.
Qed.

(** A pid within the range of a [pid_t] is read as it is. *)
Lemma pid_t_small (p : Z) : - 2 ^ 31 <= p < 2 ^ 31 -> os_ops.pid_t p = p.
Proof.
  unfold os_ops.pid_t.
  change (2 ^ 31) with 2147483648. change (2 ^ 32) with 4294967296.
  intros H. rewrite Z.mod_small by lia. lia.
Qed.

Lemma pid_t_idem (p : Z) : os_ops.pid_t (os_ops.pid_t p) = os_ops.pid_t p.
Proof. apply pid_t_small, pid_t_range. Qed.

(** The pid of a process that [Start] has launched is one a [pid_t]
    holds. *)
Lemma Start_pid (ctx : Context) (w : World) (proc : Process) :
  fst (os_ops.Start ctx w) = inr proc -> os_ops.pid_t (Pid proc) = Pid proc.
Proof.
  unfold os_ops.Start, time_ops.Now. rewrite !bind_eq. cbn [get fst snd].
  destruct (ctx (clock w)); [discriminate |].
  rewrite !bind_eq. cbn [get fst snd].
  destruct (os_spawn (os w) (length (children w))) as [e | pid];
    rewrite ?bind_eq; cbn; [discriminate |].
  intros [= <-]. apply pid_t_idem.
Qed.

(** ** stop *)

Lemma sameView_fields (w w' : World) :
  clock w' = clock w -> os w' = os w -> sysinfoOnce w' = sysinfoOnce w ->
  sameView w w'.
Proof.
  intros Hc Ho Hs. repeat split; try assumption.
  now rewrite !getSysinfo_fst, Hs, Ho, Hc.
Qed.



Lemma RemoveAll_fields (w : World) :
  let w' := snd (os_ops.RemoveAll w) in
  killed w' = killed w /\
  pidfile w' = (if os_remove (os w) then NoFile else pidfile w) /\
  children w' = children w /\
  reaped w' = reaped w /\
  dirs w' = dirs w /\
  trace w' = trace w ++ [EvRemove] /\
  sameView w w'.
Proof.
  cbv zeta. unfold os_ops.RemoveAll. rewrite !bind_eq. cbn [get fst snd].
  destruct (os_remove (os w)); cbn; repeat split; now rewrite !getSysinfo_fst.
Qed.


Lemma getProcess_trace (cfg : config) (w : World) :
  exists added,
    extends w (snd (getProcess cfg w)) added /\
    forall e, In e added ->
      e = EvSysinfo \/
      (exists ok,
          e = EvSignal (os_ops.pid_t (fst (fst (getPIDFile cfg w)))) Signal0 ok) /\
      2 <= fst (fst (getPIDFile cfg w)).
Proof.
  rewrite getProcess_eq.
  destruct (fst (fst (getPIDFile cfg w)) <? 2) eqn:Hpid.
  { exists []. split; [apply extends_refl | intros e []]. }
  apply Z.ltb_ge in Hpid. rewrite getProcessByPID_eq.
  pose proof (getSysinfo_trace w) as Hs.
  set (a := match sysinfoOnce w with Some _ => [] | None => [EvSysinfo] end) in *.
  assert (Ha : forall e, In e a -> e = EvSysinfo).
  { subst a. destruct (sysinfoOnce w); intros e; [intros [] | intros [<- | []]; reflexivity]. }
  destruct (match fst (getSysinfo w) with
            | inr uptime => olderThanBoot _ uptime
            | inl _ => false
            end).
  - exists a. split; [assumption |]. intros e He. left. now apply Ha.
  - rewrite Signal0_eq by (cbn [Pid]; lia). cbn [Pid].
    set (ok := os_ops.reachable _ (snd (getSysinfo w))).
    exists (a ++ [EvSignal (os_ops.pid_t (fst (fst (getPIDFile cfg w)))) Signal0 ok]).
    split.
    + destruct ok; cbn [snd];
        (eapply extends_trans; [exact Hs | reflexivity]).
    + intros e He. apply in_app_or in He as [He | [<- | []]].
      * left. now apply Ha.
      * right. split; [now exists ok | assumption].
Qed.



(** Where the pid file cannot be removed, the service may still count as
    running after [stop]: process 4242 was killed, but it is not a child of
    this program, the wait for it fails, and until its parent has waited for
    it the zero signal is still delivered. *)
Example stop_with_stuck_pid_file :
  let '(r, w') := stop (service []) background stuckWorld in
  r = None /\
  killed w' = [4242] /\
  reaped w' = [] /\
  pidfile w' = Contents noon "4242" /\
  fst (running (service []) w') = true.
Proof. vm_compute. repeat split. Qed.



(** A record of [2^32 + 1] passes the guard on small pids, and the kernel
    reads it as pid 1: [stop] kills process 1. *)
Example stop_with_wrapped_record :
  let '(r, w') := stop (service []) background wrappedRecord in
  fst (fst (getPIDFile (service []) wrappedRecord)) = 4294967297 /\
  killed w' = [1] /\
  trace w' =
    [EvSysinfo; EvSignal 1 Signal0 true; EvSignal 1 SIGKILL true;
     EvWait 1; EvRemove].
Proof. vm_compute. repeat split. Qed.

(** X12.  With no usable pid in the pid file (none, unreadable, garbled, or
    a pid below 2), [stop] returns nil after a single call, the removal of
    the pid file: it sends no signal and kills nothing. *)
Theorem stop_without_record_only_removes :
  forall (cfg : config) (ctx : Context) (w : World),
    fst (fst (getPIDFile cfg w)) < 2 ->
    let w' := snd (stop cfg ctx w) in
    fst (stop cfg ctx w) = None /\
    trace w' = trace w ++ [EvRemove] /\
    killed w' = killed w /\
    pidfile w' = (if os_remove (os w) then NoFile else pidfile w).
Proof.
  intros cfg ctx w Hpid w'. subst w'.
  rewrite (stop_small_pid cfg ctx w Hpid). cbn [fst snd].
  destruct (RemoveAll_fields w) as (Hk & Hf & _ & _ & _ & Ht & _).
  repeat split; assumption.
Qed.

Lemma stop_without_record_only_removes_witness :
  fst (fst (getPIDFile (service []) garbledRecord)) < 2 /\
  fst (stop (service []) background garbledRecord) = None /\
  trace (snd (stop (service []) background garbledRecord)) =
    trace garbledRecord ++ [EvRemove].
Proof.
  split; [vm_compute; reflexivity |].
  pose proof (stop_without_record_only_removes (service []) background garbledRecord
                ltac:(vm_compute; reflexivity)) as (H1 & H2 & _).
  split; assumption.
Defined.

(** ** The signals of the wait *)

Lemma aimedAt_passive (pid : Z) (e : Event) :
  aimedAt pid e = true -> passive e = true.
Proof. destruct e as [| p [|] ok | | | | | |]; simpl; congruence. Qed.

Lemma observer_Signal0_aimed (ps : Process) :
  observer (aimedAt (Pid ps)) (os_ops.Signal ps Signal0).
Proof.
  unfold os_ops.Signal.
  destruct (Pid ps =? -1); [apply observer_ret |].
  destruct (Pid ps =? 0); [apply observer_ret |].
  apply observer_bind; [apply observer_get | intros ok].
  apply observer_bind; [| intros []; destruct ok; apply observer_ret].
  apply observer_log. cbn. apply Z.eqb_refl.
Qed.

Lemma observer_checkPass_aimed (pid : Z) (ctx : Context) (cs : list Check) :
  forall i unready ready, observer (aimedAt pid) (checkPass ctx cs i unready ready).
Proof.
  induction cs as [| c rest IH]; intros i unready ready; simpl.
  - observe.
  - unfold probe. observe.
Qed.

Lemma observer_checkLoop_aimed (rounds : nat) (cfg : config) (ctx : Context)
  (ps : Process) :
  forall unready ready,
    observer (aimedAt (Pid ps)) (checkLoop rounds cfg ctx ps unready ready).
Proof.
  induction rounds as [| rounds IH]; intros unready ready; simpl.
  - observe.
  - pose proof (observer_checkPass_aimed (Pid ps) ctx (checks cfg)).
    pose proof (observer_Signal0_aimed ps).
    unfold time_ops.Now, time_ops.Sleep. observe.
Qed.

Lemma check_aimed (rounds : nat) (cfg : config) (ctx : Context) (w : World) :
  quiet (aimedAt (fst (fst (getPIDFile cfg w)))) w (snd (check rounds cfg ctx w)).
Proof.
  unfold check. rewrite bind_eq.
  destruct (observer_getProcess cfg w) as [Hf Hk Hc Ho _ Hrp Hd].
  destruct (getProcess_trace cfg w) as (a & Ha & Hsig).
  assert (Hq : quiet (aimedAt (fst (fst (getPIDFile cfg w)))) w
                     (snd (getProcess cfg w))).
  { constructor; try assumption. exists a. split; [assumption |].
    apply forallb_forall. intros e He.
    destruct (Hsig e He) as [-> | [(ok & ->) _]]; cbn; [reflexivity | apply Z.eqb_refl]. }
  destruct (getProcess cfg w) as [[ps |] w1] eqn:Hgp; cbn [fst snd] in *.
  - destruct (getProcess_Some _ _ _ _ Hgp) as [Hpid _].
    rewrite <- Hpid in Hq |- *.
    eapply quiet_trans; [exact Hq | apply observer_checkLoop_aimed].
  - exact Hq.
Qed.

Lemma check_signals (rounds : nat) (cfg : config) (ctx : Context) (w : World)
  (added : list Event) :
  extends w (snd (check rounds cfg ctx w)) added ->
  forall target sig ok,
    In (EvSignal target sig ok) added ->
    sig = Signal0 /\
    2 <= fst (fst (getPIDFile cfg w)) /\
    target = os_ops.pid_t (fst (fst (getPIDFile cfg w))).
Proof.
  intros Hext target sig ok Hin.
  destruct (check_aimed rounds cfg ctx w) as [_ _ _ _ (a & Ha & Hall) _ _].
  assert (a = added) by (eapply extends_inj; eassumption). subst a. clear Ha.
  rewrite forallb_forall in Hall. specialize (Hall _ Hin).
  destruct sig; [| discriminate Hall].
  change ((target =? os_ops.pid_t (fst (fst (getPIDFile cfg w)))) = true) in Hall.
  apply Z.eqb_eq in Hall.
  split; [reflexivity |]. split; [| assumption].
  (* a signal was sent, so the record named a pid of at least 2 *)
  destruct (Z.ltb_spec (fst (fst (getPIDFile cfg w))) 2) as [Hlt | Hge];
    [| lia].
  exfalso.
  rewrite (check_small_pid rounds cfg ctx w Hlt) in Hext. cbn [snd] in Hext.
  assert (added = []) by (eapply extends_inj; [exact Hext | apply extends_refl]).
  subst added. destruct Hin.
Qed.

(** X13.  The only signal that [check] sends is the zero signal; it is
    made for the pid recorded in the pid file, and only if that pid is at
    least 2, and goes to the process that the kernel reads from that number,
    its low 32 bits.  For a recorded pid that a [pid_t] holds, this is the
    recorded pid itself. *)
Theorem check_signals_only_recorded_process :
  forall (rounds : nat) (cfg : config) (ctx : Context) (w : World)
         (added : list Event),
    extends w (snd (check rounds cfg ctx w)) added ->
    let recorded := fst (fst (getPIDFile cfg w)) in
    forall target sig ok,
      In (EvSignal target sig ok) added ->
      sig = Signal0 /\ 2 <= recorded /\ target = os_ops.pid_t recorded /\
      (recorded <= maxPid -> target = recorded).
Proof.
  intros rounds cfg ctx w added Hext recorded target sig ok Hin.
  destruct (check_signals rounds cfg ctx w added Hext _ _ _ Hin) as (Hs & Hge & Ht).
  fold recorded in Hge, Ht.
  split; [assumption |]. split; [assumption |]. split; [assumption |].
  intros Hmax. rewrite Ht. apply pid_t_small.
  unfold maxPid in Hmax. change (2 ^ 31) with 2147483648 in *. lia.
Qed.

Lemma check_signals_only_recorded_process_witness :
  extends dyingWorld (snd (check 5 slowService background dyingWorld))
    [EvSysinfo; EvSignal 4242 Signal0 true; EvProbe 0 (Some ErrNotReady);
     EvSleep pollInterval; EvSignal 4242 Signal0 false] /\
  forall target sig ok,
    In (EvSignal target sig ok)
       [EvSysinfo; EvSignal 4242 Signal0 true; EvProbe 0 (Some ErrNotReady);
        EvSleep pollInterval; EvSignal 4242 Signal0 false] ->
    sig = Signal0 /\
    2 <= fst (fst (getPIDFile slowService dyingWorld)) /\
    target = os_ops.pid_t (fst (fst (getPIDFile slowService dyingWorld))) /\
    (fst (fst (getPIDFile slowService dyingWorld)) <= maxPid ->
     target = fst (fst (getPIDFile slowService dyingWorld))).
Proof.
  assert (H : extends dyingWorld (snd (check 5 slowService background dyingWorld))
                [EvSysinfo; EvSignal 4242 Signal0 true; EvProbe 0 (Some ErrNotReady);
                 EvSleep pollInterval; EvSignal 4242 Signal0 false])
    by (vm_compute; reflexivity).
  split; [exact H |].
  exact (check_signals_only_recorded_process 5 slowService background dyingWorld _ H).
Defined.

(** ** start: what each step leaves as it is *)

Lemma sameView_running (cfg : config) (w : World) :
  sameView w (snd (running cfg w)).
Proof. rewrite running_eq. apply sameView_getProcess. Qed.

Lemma resolving_failedLaunch (e : Event) :
  resolving e = true -> failedLaunch e = true.
Proof. destruct e as [| pid [|] ok | | | | | |]; simpl; congruence. Qed.

Lemma Start_fields (ctx : Context) (w : World) :
  let w' := snd (os_ops.Start ctx w) in
  killed w' = killed w /\ pidfile w' = pidfile w /\ reaped w' = reaped w /\
  dirs w' = dirs w /\ sameView w w' /\
  children w' =
    match fst (os_ops.Start ctx w) with
    | inl _ => children w
    | inr proc => children w ++ [Pid proc]
    end /\
  exists added,
    extends w w' added /\
    forallb (fun e => negb (isSignal e)) added = true /\
    match fst (os_ops.Start ctx w) with
    | inl _ => forallb failedLaunch added = true
    | inr _ => True
    end.
Proof.
  cbv zeta. unfold os_ops.Start, time_ops.Now. rewrite !bind_eq. cbn [get fst snd].
  destruct (ctx (clock w)).
  { cbn. repeat split. exists []. repeat split. apply extends_refl. }
  rewrite !bind_eq. cbn [get fst snd].
  destruct (os_spawn (os w) (length (children w))) as [e | pid];
    rewrite ?bind_eq; cbn; repeat split; try (now rewrite !getSysinfo_fst);
    (eexists [_]; repeat split).
Qed.

Lemma WriteFile_fields (data : string) (w : World) :
  let w' := snd (os_ops.WriteFile data w) in
  killed w' = killed w /\ children w' = children w /\ reaped w' = reaped w /\
  dirs w' = dirs w /\ sameView w w' /\
  exists added,
    extends w w' added /\ forallb (fun e => negb (isSignal e)) added = true.
Proof.
  cbv zeta. unfold os_ops.WriteFile, time_ops.Now. rewrite !bind_eq. cbn [get fst snd].
  destruct (os_write (os w) (clock w) (pidfile w)) as [[e rest] |];
    rewrite ?bind_eq; cbn; repeat split; try (now rewrite !getSysinfo_fst);
    (eexists [_]; split; [reflexivity | reflexivity]).
Qed.

Lemma kill_fields (cfg : config) (proc : Process) (w : World) :
  let w' := snd (kill cfg proc w) in
  children w' = children w /\ pidfile w' = pidfile w /\
  (forall p, In p (killed w') ->
             In p (killed w) \/ p = os_ops.pid_t (Pid proc)) /\
  (2 <= Pid proc -> os_ops.reachable (Pid proc) w = true ->
   In (os_ops.pid_t (Pid proc)) (killed w')) /\
  exists added,
    extends w w' added /\
    forall target sig ok,
      In (EvSignal target sig ok) added -> target = os_ops.pid_t (Pid proc).
Proof.
  cbv zeta. unfold kill, os_ops.Kill, os_ops.Wait, os_ops.Signal.
  rewrite bind_eq.
  destruct (Pid proc =? -1) eqn:H1.
  { cbn. apply Z.eqb_eq in H1.
    split; [reflexivity |]. split; [reflexivity |].
    split; [intros; now left |]. split; [intros; lia |].
    exists []. split; [apply extends_refl | intros ? ? ? []]. }
  destruct (Pid proc =? 0) eqn:H0.
  { cbn. apply Z.eqb_eq in H0.
    split; [reflexivity |]. split; [reflexivity |].
    split; [intros; now left |]. split; [intros; lia |].
    exists []. split; [apply extends_refl | intros ? ? ? []]. }
  rewrite !bind_eq. cbn [get fst snd].
  destruct (os_ops.reachable (Pid proc) w) eqn:Hreach.
  - rewrite !bind_eq. cbn [log addKilled ret fst snd].
    rewrite ?H1. rewrite ?bind_eq. cbn [get log ret fst snd].
    match goal with
    | |- context [if ?b then addReaped _ ;; ret None
                  else ret (Some os_ops.errECHILD)] =>
        destruct b
    end; rewrite ?bind_eq; cbn;
      (split; [reflexivity |]); (split; [reflexivity |]);
      (split; [intros p [<- | Hin]; [now right | now left] |]);
      (split; [intros; now left |]);
      (eexists [_; _]; split; [unfold extends; cbn; now rewrite <- app_assoc |]);
      intros target sig ok [H | [H | []]]; try discriminate; now injection H as <-.
  - rewrite ?bind_eq. cbn.
    split; [reflexivity |]. split; [reflexivity |].
    split; [intros; now left |]. split; [intros _ H; discriminate |].
    eexists [_]. split; [reflexivity |].
    intros target sig ok [H | []]. now injection H as <-.
Qed.

Lemma Atoi_Itoa_gen (n : Z) :
  strconv.Atoi (strconv.Itoa n) =
  if (strconv.minInt <=? n) && (n <=? strconv.maxInt) then Some n else None.
Proof.
  unfold strconv.Itoa.
  destruct n as [| p | p]; cbn [Z.to_int NilZero.string_of_int].
  - reflexivity.
  - destruct (string_of_to_uint p) as (c & rest & Hz & He & Hm & Hp).
    pose proof (digits_to_uint p) as Hd. rewrite He in Hd.
    rewrite Hz. unfold strconv.Atoi. rewrite Hm, Hp. cbn [orb].
    rewrite Hd. reflexivity.
  - destruct (string_of_to_uint p) as (c & rest & Hz & He & Hm & Hp).
    pose proof (digits_to_uint p) as Hd. rewrite He in Hd.
    rewrite Hz. unfold strconv.Atoi.
    change (Ascii.eqb "-" "-") with true. cbn [orb].
    rewrite Hd. reflexivity.
Qed.

(** *** The directories asked for play no part in the launch *)

Lemma sameButDirs_refl (w : World) : sameButDirs w w.
Proof. repeat split. Qed.

Lemma sameButDirs_trans (w1 w2 w3 : World) :
  sameButDirs w1 w2 -> sameButDirs w2 w3 -> sameButDirs w1 w3.
Proof.
  intros (a1 & a2 & a3 & a4 & a5 & a6 & a7 & a8) (b1 & b2 & b3 & b4 & b5 & b6 & b7 & b8).
  repeat split; congruence.
Qed.

Lemma sameButDirs_sameView (w w' : World) : sameButDirs w w' -> sameView w w'.
Proof.
  intros (Hc & _ & Hs & _ & _ & _ & _ & Ho). now apply sameView_fields.
Qed.

Lemma launchWorld_same (cfg : config) (w : World) :
  sameButDirs (snd (running cfg w)) (launchWorld cfg w).
Proof.
  unfold launchWorld. destruct (String.eqb (run_dir (run cfg)) "");
    repeat split.
Qed.

Lemma launchWorld_dirs (cfg : config) (w : World) :
  dirs (launchWorld cfg w) =
  if String.eqb (run_dir (run cfg)) "" then dirs w
  else dirs w ++ [Named (run_dir (run cfg))].
Proof.
  unfold launchWorld. destruct (observer_running cfg w) as [_ _ _ _ _ _ Hd].
  destruct (String.eqb (run_dir (run cfg)) ""); cbn; now rewrite Hd.
Qed.

Lemma recordWorld_same (cfg : config) (ctx : Context) (w : World) :
  sameButDirs (snd (os_ops.Start ctx (launchWorld cfg w))) (recordWorld cfg ctx w).
Proof. repeat split. Qed.

Lemma Start_sameButDirs (ctx : Context) (w w' : World) :
  sameButDirs w w' ->
  fst (os_ops.Start ctx w') = fst (os_ops.Start ctx w) /\
  sameButDirs (snd (os_ops.Start ctx w)) (snd (os_ops.Start ctx w')).
Proof.
  intros (Hc & Hf & Hs & Hk & Hr & Hch & Ht & Ho).
  unfold os_ops.Start, time_ops.Now. rewrite !bind_eq. cbn [get fst snd].
  rewrite Hc. destruct (ctx (clock w)).
  { cbn. split; [reflexivity |]. repeat split; assumption. }
  rewrite !bind_eq. cbn [get fst snd]. rewrite Hch, Ho.
  destruct (os_spawn (os w) (length (children w))) as [e | pid];
    rewrite ?bind_eq; cbn; (split; [reflexivity |]);
    repeat split; cbn; congruence.
Qed.

Lemma WriteFile_sameButDirs (data : string) (w w' : World) :
  sameButDirs w w' ->
  fst (os_ops.WriteFile data w') = fst (os_ops.WriteFile data w) /\
  sameButDirs (snd (os_ops.WriteFile data w)) (snd (os_ops.WriteFile data w')).
Proof.
  intros (Hc & Hf & Hs & Hk & Hr & Hch & Ht & Ho).
  unfold os_ops.WriteFile, time_ops.Now. rewrite !bind_eq. cbn [get fst snd].
  rewrite Hc, Ho, Hf.
  destruct (os_write (os w) (clock w) (pidfile w)) as [[e rest] |];
    rewrite ?bind_eq; cbn; (split; [reflexivity |]);
    repeat split; cbn; congruence.
Qed.

(** X14.  When the service is not running and the command cannot be
    started (or the context is already done), [start] returns that error.
    No process is added, killed or waited for and the pid file is not
    touched; the calls made are those of the resolver and the launch that
    failed.  What [start] has done by then is ask for the run directory, if
    one is configured: that comes before the launch. *)
Theorem start_launch_failure_leaves_no_process :
  forall (rounds : nat) (cfg : config) (ctx : Context) (w : World) (e : error),
    fst (running cfg w) = false ->
    fst (os_ops.Start ctx (launchWorld cfg w)) = inl e ->
    let w' := snd (start rounds cfg ctx w) in
    fst (start rounds cfg ctx w) = Returned (Some e) /\
    pidfile w' = pidfile w /\ killed w' = killed w /\
    reaped w' = reaped w /\ children w' = children w /\
    dirs w' =
      (if String.eqb (run_dir (run cfg)) "" then dirs w
       else dirs w ++ [Named (run_dir (run cfg))]) /\
    exists added, extends w w' added /\ forallb failedLaunch added = true.
Proof.
  intros rounds cfg ctx w e Hrun Hstart w'. subst w'.
  rewrite start_eq, Hrun, Hstart. cbn [fst snd].
  destruct (observer_running cfg w) as [Hf Hk Hc _ (a0 & H0 & P0) Hr Hd].
  destruct (launchWorld_same cfg w) as (_ & Lf & _ & Lk & Lr & Lc & Lt & _).
  destruct (Start_fields ctx (launchWorld cfg w))
    as (Sk & Sf & Sr & Sd & _ & Sc & a1 & H1 & _ & P1).
  rewrite Hstart in Sc, P1.
  split; [reflexivity |].
  split; [congruence |]. split; [congruence |]. split; [congruence |].
  split; [congruence |]. split; [rewrite Sd; apply launchWorld_dirs |].
  exists (a0 ++ a1). split.
  - eapply extends_trans; [| exact H1].
    unfold extends in *. now rewrite Lt.
  - rewrite forallb_app, P1, andb_true_r.
    apply forallb_forall. intros x Hx. apply resolving_failedLaunch.
    rewrite forallb_forall in P0. now apply P0.
Qed.

Lemma start_launch_failure_leaves_no_process_witness :
  fst (running failingService freshWorld) = false /\
  fst (os_ops.Start cancelled (launchWorld failingService freshWorld)) =
    inl (Error "context canceled") /\
  fst (start 5 failingService cancelled freshWorld) =
    Returned (Some (Error "context canceled")) /\
  children (snd (start 5 failingService cancelled freshWorld)) =
    children freshWorld /\
  dirs (snd (start 5 failingService cancelled freshWorld)) = [Named "var/nats"].
Proof.
  split; [vm_compute; reflexivity |].
  split; [vm_compute; reflexivity |].
  pose proof (start_launch_failure_leaves_no_process 5 failingService cancelled
                freshWorld (Error "context canceled")
                ltac:(vm_compute; reflexivity) ltac:(vm_compute; reflexivity))
    as (H1 & _ & _ & _ & H4 & H5 & _).
  split; [exact H1 |]. split; [exact H4 |]. exact H5.
Defined.

(** X15.  When the process was launched but its pid cannot be written,
    [start] returns the error of the write and does not leave the process
    behind: if the launched process can be signalled, it is among the
    processes killed. *)
Theorem start_write_failure_kills_child :
  forall (rounds : nat) (cfg : config) (ctx : Context) (w : World)
         (proc : Process) (e : error),
    fst (running cfg w) = false ->
    let w0 := snd (running cfg w) in
    fst (os_ops.Start ctx w0) = inr proc ->
    let w1 := snd (os_ops.Start ctx w0) in
    fst (os_ops.WriteFile (strconv.Itoa (Pid proc)) w1) = Some e ->
    2 <= Pid proc ->
    os_ops.reachable (Pid proc) w = true ->
    let w' := snd (start rounds cfg ctx w) in
    fst (start rounds cfg ctx w) = Returned (Some e) /\
    In (Pid proc) (killed w') /\
    children w' = children w ++ [Pid proc].
Proof.
  intros rounds cfg ctx w proc e Hrun w0 Hstart w1 Hwrite Hpid Hreach w'.
  (* the launch and the write made by [start], in worlds that differ from
     [w0] and [w1] in the directories asked for only *)
  destruct (Start_sameButDirs ctx w0 (launchWorld cfg w) (launchWorld_same cfg w))
    as [Hs1 Hs2]. fold w1 in Hs2.
  pose proof (sameButDirs_trans _ _ _ Hs2 (recordWorld_same cfg ctx w)) as Hrec.
  destruct (WriteFile_sameButDirs (strconv.Itoa (Pid proc)) w1 _ Hrec) as [Hw1 Hw2].
  subst w'. rewrite start_eq, Hrun, Hs1, Hstart.
  destruct (os_ops.WriteFile (strconv.Itoa (Pid proc)) (recordWorld cfg ctx w))
    as [o w2'] eqn:Hw. cbn [fst snd] in Hw1, Hw2.
  rewrite Hwrite in Hw1. subst o. cbn [fst snd].
  (* from [w] to the world of the write, nothing was waited for *)
  destruct (observer_running cfg w) as [_ _ Hc _ _ Hr _]. fold w0 in Hc, Hr.
  pose proof (sameView_running cfg w) as Hv. fold w0 in Hv.
  destruct (Start_fields ctx w0) as (_ & _ & Sr & _ & Sv & Sc & _).
  fold w1 in Sr, Sv, Sc. rewrite Hstart in Sc.
  destruct (WriteFile_fields (strconv.Itoa (Pid proc)) w1) as (_ & Wc & Wr & _ & Wv & _).
  set (w2 := snd (os_ops.WriteFile (strconv.Itoa (Pid proc)) w1)) in *.
  destruct Hw2 as (_ & _ & _ & _ & Dr & Dc & _ & _).
  pose proof (sameButDirs_sameView _ _
                (proj2 (WriteFile_sameButDirs (strconv.Itoa (Pid proc)) w1 _ Hrec)))
    as Dv.
  rewrite Hw in Dv. cbn [snd] in Dv. fold w2 in Dv.
  destruct (kill_fields cfg proc w2') as (Kc & _ & _ & Kk & _).
  split; [reflexivity |]. split.
  - rewrite <- (Start_pid ctx w0 proc Hstart). apply Kk; [assumption |].
    rewrite (reachable_same (Pid proc) w w2'); [assumption | | congruence].
    exact (sameView_trans _ _ _ Hv
             (sameView_trans _ _ _ Sv (sameView_trans _ _ _ Wv Dv))).
  - congruence.
Qed.

Lemma start_write_failure_kills_child_witness :
  fst (running failingService (world machineReadOnly noon NoFile)) = false /\
  In 4242 (killed (snd (start 5 failingService background
                          (world machineReadOnly noon NoFile)))).
Proof.
  split; [vm_compute; reflexivity |].
  apply (start_write_failure_kills_child 5 failingService background
           (world machineReadOnly noon NoFile) (mkProcess 4242)
           (Error "open var/nats/nats.pid: read-only file system"));
    first [ vm_compute; reflexivity | vm_compute; discriminate ].
Defined.

(** ** A start that succeeds *)

Lemma check_success (rounds : nat) (cfg : config) (ctx : Context) (w : World) :
  fst (check rounds cfg ctx w) = Returned None ->
  2 <= fst (fst (getPIDFile cfg w)) /\
  forall added,
    extends w (snd (check rounds cfg ctx w)) added ->
    forall i, (i < length (checks cfg))%nat -> In (EvProbe i None) added.
Proof.
  intros Hok. split.
  - destruct (Z.ltb_spec (fst (fst (getPIDFile cfg w))) 2) as [Hlt | Hge];
      [| assumption].
    rewrite (check_small_pid rounds cfg ctx w Hlt) in Hok. discriminate.
  - intros added Hext i Hi.
    destruct (check_facts rounds cfg ctx w) as (a & Ha & _ & Hs & _).
    assert (a = added) by (eapply extends_inj; eassumption). subst a.
    rewrite Hok in Hs. pose proof (Hs eq_refl) as H0.
    apply pending_zero with (i := i) in H0;
      [| now rewrite marked_length, length_replicate].
    apply marked_true_inv in H0 as [H0 | H0]; [| assumption].
    now apply lookup_replicate_false in H0.
Qed.

Lemma extends_In (w w1 w2 : World) (pre a added : list Event) (e : Event) :
  extends w w1 pre -> extends w1 w2 a -> extends w w2 added ->
  In e a -> In e added.
Proof.
  intros H1 H2 H3 Hin.
  assert (added = pre ++ a)
    by (eapply extends_inj; [exact H3 | eapply extends_trans; eassumption]).
  subst added. apply in_or_app. now right.
Qed.

Lemma extends_split (w w1 w2 : World) (a b added : list Event) :
  extends w w1 a -> extends w1 w2 b -> extends w w2 added -> added = a ++ b.
Proof.
  intros H1 H2 H3. eapply extends_inj; [exact H3 | eapply extends_trans; eassumption].
Qed.

Lemma no_signal_In (a : list Event) (pid : Z) (sig : signal) (ok : bool) :
  forallb (fun e => negb (isSignal e)) a = true -> ~ In (EvSignal pid sig ok) a.
Proof.
  intros H Hin. rewrite forallb_forall in H. specialize (H _ Hin). discriminate.
Qed.

(** The trace of [start] up to the write of the pid: the calls of the
    resolver, which send signals for the recorded pid only, then the launch
    and the write, which send none. *)
Lemma launch_trace (cfg : config) (ctx : Context) (w : World) (data : string) :
  exists a0 a1,
    extends w (snd (running cfg w)) a0 /\
    extends w (snd (os_ops.WriteFile data (recordWorld cfg ctx w))) (a0 ++ a1) /\
    forallb (fun e => negb (isSignal e)) a1 = true.
Proof.
  destruct (observer_running cfg w) as [_ _ _ _ (a0 & H0 & _) _ _].
  destruct (launchWorld_same cfg w) as (_ & _ & _ & _ & _ & _ & Lt & _).
  destruct (Start_fields ctx (launchWorld cfg w))
    as (_ & _ & _ & _ & _ & _ & a1 & H1 & N1 & _).
  destruct (recordWorld_same cfg ctx w) as (_ & _ & _ & _ & _ & _ & Rt & _).
  destruct (WriteFile_fields data (recordWorld cfg ctx w))
    as (_ & _ & _ & _ & _ & a2 & H2 & N2).
  exists a0, (a1 ++ a2). split; [assumption |]. split.
  - rewrite app_assoc. eapply extends_trans; [| exact H2].
    unfold extends in *. rewrite Rt, H1, Lt, H0. now rewrite app_assoc.
  - rewrite forallb_app, N1, N2. reflexivity.
Qed.

(** X16.  When [start] returns success, the pid file names a pid of at
    least 2 and every configured check has answered nil during the call,
    whether [start] found the service running or launched it. *)
Theorem start_success_means_ready_record :
  forall (rounds : nat) (cfg : config) (ctx : Context) (w : World)
         (added : list Event),
    fst (start rounds cfg ctx w) = Returned None ->
    extends w (snd (start rounds cfg ctx w)) added ->
    2 <= fst (fst (getPIDFile cfg (snd (start rounds cfg ctx w)))) /\
    forall i, (i < length (checks cfg))%nat -> In (EvProbe i None) added.
Proof.
  intros rounds cfg ctx w added. rewrite start_eq.
  destruct (fst (running cfg w)) eqn:Hrun.
  - intros Hok Hext.
    destruct (check_success rounds cfg ctx _ Hok) as [Hpid Hall].
    destruct (observer_check rounds cfg ctx (snd (running cfg w)))
      as [Hf _ _ _ (a & Ha & _) _ _].
    destruct (observer_running cfg w) as [_ _ _ _ (a0 & H0 & _) _ _].
    split.
    + now rewrite (getPIDFile_fst_file cfg _ _ Hf).
    + intros i Hi. eapply extends_In; [exact H0 | exact Ha | exact Hext |].
      now apply Hall.
  - destruct (fst (os_ops.Start ctx (launchWorld cfg w))) as [e | proc];
      [discriminate |].
    destruct (launch_trace cfg ctx w (strconv.Itoa (Pid proc)))
      as (a0 & a1 & _ & Hpre & _).
    destruct (os_ops.WriteFile (strconv.Itoa (Pid proc)) (recordWorld cfg ctx w))
      as [[e |] w2]; cbn [fst snd] in *; [discriminate |].
    destruct (os_release (os w2)); [discriminate |].
    intros Hok Hext.
    destruct (check_success rounds cfg ctx _ Hok) as [Hpid Hall].
    destruct (observer_check rounds cfg ctx w2) as [Hf _ _ _ (a & Ha & _) _ _].
    split.
    + now rewrite (getPIDFile_fst_file cfg _ _ Hf).
    + intros i Hi. eapply extends_In; [exact Hpre | exact Ha | exact Hext |].
      now apply Hall.
Qed.

Lemma start_success_means_ready_record_witness :
  fst (start 5 slowService background runningWorld) = Returned None /\
  forall i, (i < length (checks slowService))%nat ->
    In (EvProbe i None)
       (trace (snd (start 5 slowService background runningWorld))).
Proof.
  split; [vm_compute; reflexivity |].
  assert (H1 : fst (start 5 slowService background runningWorld) = Returned None)
    by (vm_compute; reflexivity).
  assert (H2 : extends runningWorld (snd (start 5 slowService background runningWorld))
                 (trace (snd (start 5 slowService background runningWorld))))
    by (vm_compute; reflexivity).
  exact (proj2 (start_success_means_ready_record 5 slowService background
                  runningWorld _ H1 H2)).
Defined.

(** ** The signals of start *)

Lemma recorded_after_write (cfg : config) (pid : Z) (w : World) :
  fst (os_ops.WriteFile (strconv.Itoa pid) w) = None ->
  2 <= fst (fst (getPIDFile cfg (snd (os_ops.WriteFile (strconv.Itoa pid) w)))) ->
  fst (fst (getPIDFile cfg (snd (os_ops.WriteFile (strconv.Itoa pid) w)))) = pid.
Proof.
  intros Hwrite. destruct (WriteFile_ok _ _ Hwrite) as [Hfile _].
  unfold getPIDFile. rewrite bind_eq. cbn [get fst snd]. rewrite Hfile.
  rewrite Atoi_Itoa_gen.
  destruct ((strconv.minInt <=? pid) && (pid <=? strconv.maxInt)); cbn; [reflexivity | lia].
Qed.

Lemma recordWorld_children (cfg : config) (ctx : Context) (w : World)
  (proc : Process) :
  fst (os_ops.Start ctx (launchWorld cfg w)) = inr proc ->
  children (recordWorld cfg ctx w) = children w ++ [Pid proc].
Proof.
  intros Hs.
  destruct (observer_running cfg w) as [_ _ Hc _ _ _ _].
  destruct (launchWorld_same cfg w) as (_ & _ & _ & _ & _ & Lc & _ & _).
  destruct (Start_fields ctx (launchWorld cfg w)) as (_ & _ & _ & _ & _ & Sc & _).
  rewrite Hs in Sc.
  destruct (recordWorld_same cfg ctx w) as (_ & _ & _ & _ & _ & Rc & _ & _).
  congruence.
Qed.

(** X17.  Every signal that [start] sends is made either for the pid
    recorded in the pid file when [start] was called, which then is at least
    2, and goes to the process that the kernel reads from that number, its
    low 32 bits; or it goes to a process that this run has launched. *)
Theorem start_signals_only_own_processes :
  forall (rounds : nat) (cfg : config) (ctx : Context) (w : World)
         (added : list Event),
    extends w (snd (start rounds cfg ctx w)) added ->
    let recorded := fst (fst (getPIDFile cfg w)) in
    forall target sig ok,
      In (EvSignal target sig ok) added ->
      (2 <= recorded /\ target = os_ops.pid_t recorded /\
       (recorded <= maxPid -> target = recorded)) \/
      In target (children (snd (start rounds cfg ctx w))).
Proof.
  intros rounds cfg ctx w added Hext recorded target sig ok Hin.
  assert (Hwrap : 2 <= recorded -> target = os_ops.pid_t recorded ->
                  2 <= recorded /\ target = os_ops.pid_t recorded /\
                  (recorded <= maxPid -> target = recorded)).
  { intros Hge Ht. split; [assumption |]. split; [assumption |].
    intros Hmax. rewrite Ht. apply pid_t_small.
    unfold maxPid in Hmax. change (2 ^ 31) with 2147483648 in *. lia. }
  rewrite start_eq in Hext |- *.
  destruct (getProcess_trace cfg w) as (a0 & H0 & S0). fold recorded in S0.
  destruct (observer_running cfg w) as [Rf _ _ _ _ _ _].
  assert (Hw0 : snd (running cfg w) = snd (getProcess cfg w))
    by now rewrite running_eq.
  rewrite <- Hw0 in H0.
  assert (Hleft : In (EvSignal target sig ok) a0 ->
                  2 <= recorded /\ target = os_ops.pid_t recorded).
  { intros Hi. destruct (S0 _ Hi) as [H | [(ok' & H) Hge]]; [discriminate |].
    injection H as -> _ _. split; [assumption | reflexivity]. }
  destruct (fst (running cfg w)).
  - (* already running: the wait only *)
    destruct (observer_check rounds cfg ctx (snd (running cfg w)))
      as [_ _ _ _ (ac & Hac & _) _ _].
    rewrite (extends_split _ _ _ _ _ _ H0 Hac Hext) in Hin.
    apply in_app_or in Hin as [Hi | Hi];
      [left; destruct (Hleft Hi); now apply Hwrap |].
    destruct (check_signals rounds cfg ctx _ ac Hac _ _ _ Hi) as (_ & Hge & Hp).
    rewrite (getPIDFile_fst_file cfg w _ Rf) in Hge, Hp.
    left. now apply Hwrap.
  - destruct (Start_fields ctx (launchWorld cfg w))
      as (_ & _ & _ & _ & _ & _ & a1 & H1 & N1 & _).
    destruct (launchWorld_same cfg w) as (_ & _ & _ & _ & _ & _ & Lt & _).
    assert (H01 : extends w (snd (os_ops.Start ctx (launchWorld cfg w))) (a0 ++ a1)).
    { eapply extends_trans; [| exact H1]. unfold extends in *. now rewrite Lt. }
    pose proof (Start_pid ctx (launchWorld cfg w)) as Hpidt.
    pose proof (recordWorld_children cfg ctx w) as Hkids.
    destruct (fst (os_ops.Start ctx (launchWorld cfg w))) as [e | proc].
    + (* the launch failed *)
      cbn [snd] in Hext.
      assert (added = a0 ++ a1) by (eapply extends_inj; eassumption). subst added.
      apply in_app_or in Hin as [Hi | Hi];
        [left; destruct (Hleft Hi); now apply Hwrap |].
      now apply no_signal_In in Hi.
    + specialize (Hpidt proc eq_refl). specialize (Hkids proc eq_refl).
      destruct (launch_trace cfg ctx w (strconv.Itoa (Pid proc)))
        as (b0 & b1 & Hb0 & Hb & Nb).
      assert (b0 = a0) by (eapply extends_inj; eassumption). subst b0. clear Hb0.
      destruct (WriteFile_fields (strconv.Itoa (Pid proc)) (recordWorld cfg ctx w))
        as (_ & Wc & _).
      pose proof (recorded_after_write cfg (Pid proc) (recordWorld cfg ctx w)) as Hrec.
      assert (Hpre : In (EvSignal target sig ok) (a0 ++ b1) ->
                     2 <= recorded /\ target = os_ops.pid_t recorded).
      { intros Hi. apply in_app_or in Hi as [Hi | Hi]; [now apply Hleft |].
        now apply no_signal_In in Hi. }
      destruct (os_ops.WriteFile (strconv.Itoa (Pid proc)) (recordWorld cfg ctx w))
        as [[e |] w2] eqn:Hw; cbn [fst snd] in *.
      * (* the write failed: the launched process is killed *)
        destruct (kill_fields cfg proc w2) as (Kc & _ & _ & _ & ak & Hk & Sk).
        rewrite (extends_split _ _ _ _ _ _ Hb Hk Hext) in Hin.
        apply in_app_or in Hin as [Hi | Hi];
          [left; destruct (Hpre Hi); now apply Hwrap |].
        right. rewrite (Sk _ _ _ Hi), Hpidt, Kc, Wc, Hkids.
        apply in_or_app. right. now left.
      * destruct (os_release (os w2)) as [e |].
        -- (* the release failed: the launched process is killed *)
           destruct (kill_fields cfg proc w2) as (Kc & _ & _ & _ & ak & Hk & Sk).
           cbn [snd] in Hext |- *.
           rewrite (extends_split _ _ _ _ _ _ Hb Hk Hext) in Hin.
           apply in_app_or in Hin as [Hi | Hi];
             [left; destruct (Hpre Hi); now apply Hwrap |].
           right. rewrite (Sk _ _ _ Hi), Hpidt, Kc, Wc, Hkids.
           apply in_or_app. right. now left.
        -- (* the wait for the launched process *)
           destruct (observer_check rounds cfg ctx w2)
             as [_ _ Cc _ (ac & Hac & _) _ _].
           rewrite (extends_split _ _ _ _ _ _ Hb Hac Hext) in Hin.
           apply in_app_or in Hin as [Hi | Hi];
             [left; destruct (Hpre Hi); now apply Hwrap |].
           destruct (check_signals rounds cfg ctx w2 ac Hac _ _ _ Hi)
             as (_ & Hge & Hp).
           right. rewrite Cc, Wc, Hkids. apply in_or_app. right. left.
           rewrite Hp, (Hrec eq_refl Hge). symmetry. exact Hpidt.
Qed.

Lemma start_signals_only_own_processes_witness :
  In (EvSignal 4242 Signal0 true)
     (trace (snd (start 2 slowService background freshWorld))) /\
  ((2 <= fst (fst (getPIDFile slowService freshWorld)) /\
    4242 = os_ops.pid_t (fst (fst (getPIDFile slowService freshWorld))) /\
    (fst (fst (getPIDFile slowService freshWorld)) <= maxPid ->
     4242 = fst (fst (getPIDFile slowService freshWorld)))) \/
   In 4242 (children (snd (start 2 slowService background freshWorld)))).
Proof.
  assert (H1 : extends freshWorld (snd (start 2 slowService background freshWorld))
                 (trace (snd (start 2 slowService background freshWorld))))
    by (vm_compute; reflexivity).
  assert (H2 : In (EvSignal 4242 Signal0 true)
                  (trace (snd (start 2 slowService background freshWorld))))
    by (vm_compute; tauto).
  split; [exact H2 |].
  exact (start_signals_only_own_processes 2 slowService background freshWorld _ H1
           _ _ _ H2).
Defined.

(** ** The uptime is asked for once *)

Section Settled.

Variable r : error + Z.

Lemma settled_refl (w : World) : settled r w w.
Proof.
  intros H. split; [exact H |].
  exists []. split; [apply extends_refl | reflexivity].
Qed.

Lemma settled_trans (w1 w2 w3 : World) :
  settled r w1 w2 -> settled r w2 w3 -> settled r w1 w3.
Proof.
  intros H12 H23 H1.
  destruct (H12 H1) as (H2 & a & Ha & Pa).
  destruct (H23 H2) as (H3 & b & Hb & Pb).
  split; [exact H3 |].
  exists (a ++ b). split; [eapply extends_trans; eassumption |].
  rewrite forallb_app, Pa, Pb. reflexivity.
Qed.

Lemma keeper_ret {A : Type} (a : A) : keeper r (ret a).
Proof. intros w. apply settled_refl. Qed.

Lemma keeper_get {A : Type} (f : World -> A) : keeper r (get f).
Proof. intros w. apply settled_refl. Qed.

Lemma keeper_bind {A B : Type} (m : M A) (k : A -> M B) :
  keeper r m -> (forall a, keeper r (k a)) -> keeper r (bind m k).
Proof.
  intros Hm Hk w. rewrite bind_eq.
  eapply settled_trans; [apply Hm | apply Hk].
Qed.

Lemma keeper_log (e : Event) : isSysinfo e = false -> keeper r (log e).
Proof.
  intros He w H. split; [exact H |].
  exists [e]. split; [reflexivity | simpl; now rewrite He].
Qed.

Lemma keeper_field (m : M unit) :
  (forall w, sysinfoOnce (snd (m w)) = sysinfoOnce w) ->
  (forall w, trace (snd (m w)) = trace w) ->
  keeper r m.
Proof.
  intros Hs Ht w H. split; [now rewrite Hs |].
  exists []. split; [unfold extends; rewrite Ht; now rewrite app_nil_r | reflexivity].
Qed.

Lemma keeper_setClock (t : Time) : keeper r (setClock t).
Proof. apply keeper_field; reflexivity. Qed.

Lemma keeper_setPidfile (f : File) : keeper r (setPidfile f).
Proof. apply keeper_field; reflexivity. Qed.

Lemma keeper_addKilled (pid : Z) : keeper r (addKilled pid).
Proof. apply keeper_field; reflexivity. Qed.

Lemma keeper_addChild (pid : Z) : keeper r (addChild pid).
Proof. apply keeper_field; reflexivity. Qed.

Lemma keeper_addReaped (pid : Z) : keeper r (addReaped pid).
Proof. apply keeper_field; reflexivity. Qed.

Lemma keeper_addDir (d : dirName) : keeper r (addDir d).
Proof. apply keeper_field; reflexivity. Qed.

Lemma keeper_getSysinfo : keeper r getSysinfo.
Proof.
  intros w H. unfold getSysinfo. rewrite bind_eq. cbn [get fst snd]. rewrite H.
  now apply settled_refl.
Qed.

End Settled.

Ltac keep :=
  repeat first
    [ match goal with H : _ |- keeper _ _ => apply H end
    | apply keeper_ret
    | apply keeper_get
    | apply keeper_setClock
    | apply keeper_setPidfile
    | apply keeper_addKilled
    | apply keeper_addChild
    | apply keeper_addReaped
    | apply keeper_addDir
    | apply keeper_getSysinfo
    | apply keeper_log; reflexivity
    | apply keeper_bind; [| intros ?]
    | match goal with
      | |- keeper _ (match ?x with _ => _ end) => destruct x
      end ].

Lemma keeper_Signal (r : error + Z) (ps : Process) (sig : signal) :
  keeper r (os_ops.Signal ps sig).
Proof. unfold os_ops.Signal. keep. Qed.

Lemma keeper_Wait (r : error + Z) (ps : Process) : keeper r (os_ops.Wait ps).
Proof. unfold os_ops.Wait. keep. Qed.

Lemma keeper_RemoveAll (r : error + Z) : keeper r os_ops.RemoveAll.
Proof. unfold os_ops.RemoveAll. keep. Qed.

Lemma keeper_Start (r : error + Z) (ctx : Context) : keeper r (os_ops.Start ctx).
Proof. unfold os_ops.Start, time_ops.Now. keep. Qed.

Lemma keeper_WriteFile (r : error + Z) (data : string) :
  keeper r (os_ops.WriteFile data).
Proof. unfold os_ops.WriteFile, time_ops.Now. keep. Qed.

Lemma keeper_getPIDFile (r : error + Z) (cfg : config) : keeper r (getPIDFile cfg).
Proof. unfold getPIDFile. keep. Qed.

Lemma keeper_getProcessByPID (r : error + Z) (cfg : config) (pid : Z) (started : Time) :
  keeper r (getProcessByPID cfg pid started).
Proof.
  unfold getProcessByPID, time_ops.Since, time_ops.Now, os_ops.FindProcess.
  pose proof (keeper_Signal r). keep.
Qed.

Lemma keeper_getProcess (r : error + Z) (cfg : config) : keeper r (getProcess cfg).
Proof.
  unfold getProcess.
  pose proof (keeper_getPIDFile r cfg). pose proof (keeper_getProcessByPID r cfg).
  keep.
Qed.

Lemma keeper_checkPass (r : error + Z) (ctx : Context) (cs : list Check) :
  forall i unready ready, keeper r (checkPass ctx cs i unready ready).
Proof.
  induction cs as [| c rest IH]; intros i unready ready; simpl.
  - keep.
  - unfold probe. keep.
Qed.

Lemma keeper_checkLoop (r : error + Z) (rounds : nat) (cfg : config) (ctx : Context)
  (ps : Process) :
  forall unready ready, keeper r (checkLoop rounds cfg ctx ps unready ready).
Proof.
  induction rounds as [| rounds IH]; intros unready ready; simpl.
  - keep.
  - pose proof (keeper_checkPass r ctx (checks cfg)).
    pose proof (keeper_Signal r).
    unfold time_ops.Sleep, time_ops.Now. keep.
Qed.

Lemma keeper_check (r : error + Z) (rounds : nat) (cfg : config) (ctx : Context) :
  keeper r (check rounds cfg ctx).
Proof.
  unfold check. pose proof (keeper_getProcess r cfg).
  pose proof (keeper_checkLoop r rounds cfg ctx). keep.
Qed.

Lemma keeper_Status (r : error + Z) (rounds : nat) (cfg : config) (ctx : Context) :
  keeper r (Status rounds cfg ctx).
Proof.
  unfold Status. pose proof (keeper_getPIDFile r cfg).
  pose proof (keeper_getProcessByPID r cfg). pose proof (keeper_check r rounds cfg ctx).
  keep.
Qed.

Lemma keeper_kill (r : error + Z) (cfg : config) (ps : Process) : keeper r (kill cfg ps).
Proof.
  unfold kill, os_ops.Kill. pose proof (keeper_Signal r). pose proof (keeper_Wait r).
  keep.
Qed.

Lemma keeper_start (r : error + Z) (rounds : nat) (cfg : config) (ctx : Context) :
  keeper r (start rounds cfg ctx).
Proof.
  unfold start, running, os_ops.MkdirAll, os_ops.Release.
  pose proof (keeper_getProcess r cfg). pose proof (keeper_check r rounds cfg ctx).
  pose proof (keeper_Start r ctx). pose proof (keeper_WriteFile r).
  pose proof (keeper_kill r cfg). keep.
Qed.

Lemma keeper_stop (r : error + Z) (cfg : config) (ctx : Context) :
  keeper r (stop cfg ctx).
Proof.
  unfold stop, os_ops.Kill. pose proof (keeper_getProcess r cfg).
  pose proof (keeper_Signal r). pose proof (keeper_Wait r).
  pose proof (keeper_RemoveAll r). keep.
Qed.

(** X18.  Once the uptime answer is stored, be it a number or an error,
    no call of [Status], [start] or [stop] asks the platform for the uptime
    again or changes the stored answer, however long the call takes. *)
Theorem uptime_is_asked_once :
  forall (rounds : nat) (cfg : config) (ctx : Context) (w w' : World)
         (added : list Event),
    sysinfoOnce w <> None ->
    w' = snd (Status rounds cfg ctx w) \/
    w' = snd (start rounds cfg ctx w) \/
    w' = snd (stop cfg ctx w) ->
    extends w w' added ->
    sysinfoOnce w' = sysinfoOnce w /\ ~ In EvSysinfo added.
Proof.
  intros rounds cfg ctx w w' added Hs Hw Hext.
  destruct (sysinfoOnce w) as [r |] eqn:Hr; [clear Hs | congruence].
  assert (H : settled r w w').
  { destruct Hw as [-> | [-> | ->]];
      [apply keeper_Status | apply keeper_start | apply keeper_stop]. }
  destruct (H Hr) as (H' & a & Ha & Pa).
  split; [exact H' |].
  rewrite (extends_inj _ _ _ _ Hext Ha). intros Hin.
  rewrite forallb_forall in Pa. specialize (Pa _ Hin). discriminate.
Qed.

Lemma uptime_is_asked_once_witness :
  sysinfoOnce (snd (Status 5 slowService background informedWorld)) =
    sysinfoOnce informedWorld /\
  ~ In EvSysinfo
      (skipn 1 (trace (snd (Status 5 slowService background informedWorld)))).
Proof.
  assert (H1 : sysinfoOnce informedWorld <> None) by (vm_compute; discriminate).
  assert (H2 : extends informedWorld
                 (snd (Status 5 slowService background informedWorld))
                 (skipn 1 (trace (snd (Status 5 slowService background informedWorld)))))
    by (vm_compute; reflexivity).
  exact (uptime_is_asked_once 5 slowService background informedWorld _ _ H1
           (or_introl eq_refl) H2).
Defined.
